(** * Per Ankh media and analytics service (server/index.js)

    A shallow embedding of the Express service: the media catalog with
    its upload and delete handlers, the analytics event log with the
    track handler, and the read-only analytics queries.

    Conventions of the embedding.
    - A JavaScript string is a [string]; every character stands for one
      UTF-16 code unit below 256 (multer decodes file names as latin1,
      and the literals the service compares with are ASCII).
    - A JSON scalar is a [jsval].  [JNum n] is an integer-valued number;
      its rendering is the plain decimal one, which is what JavaScript
      prints for magnitudes below 1e21.
    - Timestamps and counts are integers; the one place where the
      service divides, the bounce rate, is computed in IEEE binary64.
    - The two JSON documents are lists, read and rewritten whole.
    - Clock readings, uuids, random draws and the platform's Date and
      URL functions are inputs of the handlers. *)

From Stdlib Require Import ZArith List String Ascii Bool Lia.
From Stdlib Require Import Permutation Sorted DecimalString DecimalN.
From Stdlib Require Import QArith Qpower Lqa.
From Stdlib Require Import Floats.SpecFloat.
Import ListNotations.

Local Open Scope string_scope.
Local Open Scope list_scope.
Local Open Scope nat_scope.

(* ================================================================= *)
(** * JavaScript strings and values *)

Module JS.

(** [String.prototype.toLowerCase] on a code unit below 256: the ASCII
    capitals and the Latin-1 capitals (all of 0xC0..0xDE but the
    multiplication sign 0xD7) move up by 32. *)
Definition toLowerUnit (c : ascii) : ascii :=
  let n := nat_of_ascii c in
  if ((65 <=? n) && (n <=? 90))
     || ((192 <=? n) && (n <=? 222) && negb (n =? 215))
  then ascii_of_nat (n + 32)
  else c.

Fixpoint toLowerCase (s : string) : string :=
  match s with
  | "" => ""
  | String c t => String (toLowerUnit c) (toLowerCase t)
  end.

(** [s.startsWith(p)] *)
Fixpoint startsWith (s p : string) {struct p} : bool :=
  match p with
  | "" => true
  | String a p' =>
      match s with
      | "" => false
      | String b s' => Ascii.eqb a b && startsWith s' p'
      end
  end.

(** [s.includes(needle)] *)
Fixpoint includes (s needle : string) {struct s} : bool :=
  startsWith s needle
  || match s with
     | "" => false
     | String _ t => includes t needle
     end.

(** Case folding of a regular expression with the [i] flag and without
    the [u] flag: a code unit is compared through its upper-case form,
    and a non-ASCII unit never folds onto an ASCII one.  The patterns of
    the service are ASCII letters, so folding the ASCII letters is all
    that decides a match. *)
Definition canonicalize (c : ascii) : ascii :=
  let n := nat_of_ascii c in
  if (97 <=? n) && (n <=? 122) then ascii_of_nat (n - 32) else c.

Fixpoint canonString (s : string) : string :=
  match s with
  | "" => ""
  | String c t => String (canonicalize c) (canonString t)
  end.

(** [/a1|a2|.../i.test(s)] for literal alternatives. *)
Definition regexTestI (alts : list string) (s : string) : bool :=
  existsb (fun a => includes (canonString s) (canonString a)) alts.

(** JSON scalars, and [undefined] for an absent member. *)
Inductive jsval : Type :=
| JUndefined
| JNull
| JBool (b : bool)
| JNum (n : Z)
| JStr (s : string).

Definition jsval_eq_dec (x y : jsval) : {x = y} + {x <> y}.
Proof.
  decide equality.
  - apply bool_dec.
  - apply Z.eq_dec.
  - apply string_dec.
Defined.

(** ToBoolean *)
Definition truthy (v : jsval) : bool :=
  match v with
  | JUndefined | JNull => false
  | JBool b => b
  | JNum n => negb (n =? 0)%Z
  | JStr s => negb (String.eqb s "")
  end.

(** [a || b] *)
Definition jsor (a b : jsval) : jsval := if truthy a then a else b.

(** A default of a destructuring pattern or of a parameter: it replaces
    [undefined] and nothing else. *)
Definition withDefault (d v : jsval) : jsval :=
  match v with
  | JUndefined => d
  | _ => v
  end.

Definition decimalZ (n : Z) : string := NilEmpty.string_of_int (Z.to_int n).
Definition decimalN (n : N) : string := NilEmpty.string_of_uint (N.to_uint n).

(** [String(v)] *)
Definition toString (v : jsval) : string :=
  match v with
  | JUndefined => "undefined"
  | JNull => "null"
  | JBool true => "true"
  | JBool false => "false"
  | JNum n => decimalZ n
  | JStr s => s
  end.

(** JavaScript [Map] with its insertion order: [set] on a present key
    keeps the key's position, on a new key appends. *)
Section JsMap.
Context {K V : Type} (eq_dec : forall x y : K, {x = y} + {x <> y}).

Fixpoint mapGet (m : list (K * V)) (k : K) : option V :=
  match m with
  | [] => None
  | (k', v) :: t => if eq_dec k k' then Some v else mapGet t k
  end.

Fixpoint mapSet (m : list (K * V)) (k : K) (v : V) : list (K * V) :=
  match m with
  | [] => [(k, v)]
  | (k', v') :: t =>
      if eq_dec k k' then (k', v) :: t else (k', v') :: mapSet t k v
  end.
End JsMap.

(** [xs.reduce((m, e) => (m.set(f(e), (m.get(f(e)) || 0) + 1), m), new Map())] *)
Section CountBy.
Context {E K : Type} (eq_dec : forall x y : K, {x = y} + {x <> y}).

Definition bump (m : list (K * nat)) (k : K) : list (K * nat) :=
  mapSet eq_dec m k
    (match mapGet eq_dec m k with
     | Some c => c
     | None => 0
     end + 1).

Definition countBy (f : E -> K) (xs : list E) : list (K * nat) :=
  fold_left (fun m e => bump m (f e)) xs [].
End CountBy.

(** [new Set(xs).size] *)
Definition setSize {K : Type} (eq_dec : forall x y : K, {x = y} + {x <> y})
    (xs : list K) : nat :=
  List.length (nodup eq_dec xs).

(** [Array.prototype.sort] with the comparator [(a, b) => b[1] - a[1]].
    The sort is stable, and for this comparator the stable result is
    unique; it is computed here by insertion from the right, an entry
    going in front of the first one whose count does not exceed its
    own. *)
Section SortDesc.
Context {K : Type}.

Fixpoint insertDesc (x : K * nat) (l : list (K * nat)) : list (K * nat) :=
  match l with
  | [] => [x]
  | y :: t => if snd y <=? snd x then x :: y :: t else y :: insertDesc x t
  end.

Definition sortDesc (l : list (K * nat)) : list (K * nat) :=
  fold_right insertDesc [] l.
End SortDesc.

(** [xs.slice(-n)] *)
Definition sliceLast {A : Type} (n : nat) (xs : list A) : list A :=
  skipn (List.length xs - n) xs.

(** All code units of a string pass a test. *)
Fixpoint allUnits (P : ascii -> bool) (s : string) : bool :=
  match s with
  | "" => true
  | String c t => P c && allUnits P t
  end.

Definition notDash (c : ascii) : bool := negb (Ascii.eqb c "-").
Definition notSlash (c : ascii) : bool := negb (Ascii.eqb c "/").
Definition isDigit (c : ascii) : bool :=
  let n := nat_of_ascii c in (48 <=? n) && (n <=? 57).

End JS.

(* ================================================================= *)
(** * JavaScript numbers *)

(** A JavaScript number is an IEEE binary64 double.  The operations are
    those of the standard library's specification of floating-point
    arithmetic at precision 53, correctly rounded to nearest, ties to
    even. *)
Module Binary64.

(** The double of an integer, as for the [length] of an array. *)
Definition ofZ (n : Z) : spec_float := binary_normalize 53 1024 n 0 false.
Definition div (x y : spec_float) : spec_float := SFdiv 53 1024 x y.
Definition mul (x y : spec_float) : spec_float := SFmul 53 1024 x y.

(** [floor(x + 1/2)] of the real number a finite double stands for. *)
Definition roundZ (x : spec_float) : option Z :=
  match x with
  | S754_zero _ => Some 0%Z
  | S754_finite s m e =>
      let v := if s then Z.neg m else Z.pos m in
      Some (if (0 <=? e)%Z then v * 2 ^ e
            else (2 * v + 2 ^ (- e)) / 2 ^ (1 - e))%Z
  | _ => None
  end.

(** [Math.round]: NaN, the infinities and the zeros are returned as
    they are, and a result of zero keeps the sign of the argument. *)
Definition mathRound (x : spec_float) : spec_float :=
  match x with
  | S754_finite s _ _ =>
      match roundZ x with
      | Some 0%Z => S754_zero s
      | Some t => ofZ t
      | None => x
      end
  | _ => x
  end.

(** The real number a finite positive double stands for. *)
Definition p2 (e : Z) : Q := (2 ^ e)%Q.
Definition valueOf (m : positive) (e : Z) : Q := (inject_Z (Z.pos m) * p2 e)%Q.

(** The unit roundoff [2^-53]. *)
Definition unitRoundoff : Q := 1 # (2 ^ 53).

(** Where [x] lies in the interval of width [P] that starts at [m * P]:
    the two flags are the round and sticky bits of a shifted
    mantissa. *)
Definition located (x : Q) (m : Z) (P : Q) (r s : bool) : Prop :=
  match r, s with
  | false, false => (x == inject_Z m * P)%Q
  | false, true =>
      (inject_Z m * P < x)%Q /\ (x < inject_Z m * P + P * (1 # 2))%Q
  | true, false => (x == inject_Z m * P + P * (1 # 2))%Q
  | true, true =>
      (inject_Z m * P + P * (1 # 2) < x)%Q /\ (x < inject_Z m * P + P)%Q
  end.

End Binary64.

(* ================================================================= *)
(** * The platform functions the service calls *)

(** Local-time rendering of a timestamp and URL parsing belong to the
    JavaScript host.  [urlHostname r] is [Some h] when [new URL(r)]
    succeeds with [hostname] [h], and [None] when it throws.
    [getHours ts] is the hour of the date of [ts]; a time value outside
    the range of [Date] has no hour, and the class says nothing of what
    the service does with it: that is [Faults.timeseriesHourly]. *)
Class Host : Type := {
  getHours : Z -> nat;
  getHours_lt : forall ts, getHours ts < 24;
  toDateString : Z -> string;
  daysBefore : Z -> nat -> Z;
  toLocaleDateLabel : Z -> string;
  toLocaleTimeString : Z -> string;
  urlHostname : string -> option string
}.

(* ================================================================= *)
(** * Media catalog and file store *)

Module Media.
Import JS.

Record MediaRecord : Type := mkMediaRecord {
  id : string;
  name : string;
  storedName : string;
  size : N;
  type : string;
  uploadDate : string;
  url : string
}.

(** A file of a multipart request, then the same file once multer's
    disk storage has chosen its [filename]. *)
Record Upload : Type := mkUpload {
  up_originalname : string;
  up_size : N;
  up_mimetype : string
}.

Record StoredFile : Type := mkStoredFile {
  originalname : string;
  filename : string;
  f_size : N;
  mimetype : string
}.

(** What the environment hands out while one file is processed:
    [Date.now()] and [Math.round(Math.random() * 1e6)] in the storage
    callback, then [uuid()] and [new Date().toISOString()] in the route
    handler. *)
Record Draw : Type := mkDraw {
  nowMs : N;
  rand : N;
  uuid : string;
  iso : string
}.

(** The character class [[A-Za-z0-9._-]]. *)
Definition isSafeUnit (c : ascii) : bool :=
  let n := nat_of_ascii c in
  ((65 <=? n) && (n <=? 90)) || ((97 <=? n) && (n <=? 122))
  || ((48 <=? n) && (n <=? 57))
  || (n =? 46) || (n =? 95) || (n =? 45).

(** [originalname.replace(/[^A-Za-z0-9._-]/g, '_')] *)
Fixpoint safeName (s : string) : string :=
  match s with
  | "" => ""
  | String c t => String (if isSafeUnit c then c else "_"%char) (safeName t)
  end.

(** The [filename] callback of [multer.diskStorage]. *)
Definition uniqueName (now rnd : N) (original : string) : string :=
  decimalN now ++ "-" ++ decimalN rnd ++ "-" ++ safeName original.

(** [path.basename]: the last non-empty component between slashes. *)
Fixpoint components (s cur : string) : list string :=
  match s with
  | "" => [cur]
  | String c t =>
      if Ascii.eqb c "/" then cur :: components t ""
      else components t (cur ++ String c "")
  end.

Definition basename (s : string) : string :=
  last (filter (fun c => negb (String.eqb c "")) (components s "")) "".

(** The persistent state: [media.json], the names present in the upload
    directory, and how many times [media.json] has been rewritten. *)
Record State : Type := mkState {
  catalog : list MediaRecord;
  files : list string;
  writes : nat
}.

Inductive Response : Type :=
| Saved (records : list MediaRecord)   (* 200, the new records *)
| NoFiles                              (* 400 'No files uploaded' *)
| Rejected                             (* multer refuses a 21st file *)
| NotFound                             (* 404 'Not found' *)
| Deleted                              (* 200 { ok: true } *)
| Crashed.                             (* an exception leaves the handler *)

Definition storeFile (d : Draw) (u : Upload) : StoredFile :=
  {| originalname := up_originalname u;
     filename := uniqueName (nowMs d) (rand d) (up_originalname u);
     f_size := up_size u;
     mimetype := up_mimetype u |}.

Definition recordOf (d : Draw) (f : StoredFile) : MediaRecord :=
  {| id := uuid d;
     name := originalname f;
     storedName := basename (filename f);
     size := f_size f;
     type := mimetype f;
     uploadDate := iso d;
     url := "/uploads/media/" ++ basename (filename f) |}.

(** Writing a file creates it or replaces the one of the same name. *)
Definition fsWrite (n : string) (fs : list string) : list string :=
  if existsb (String.eqb n) fs then fs else fs ++ [n].

(** [fs.remove]: deletes the file when there is one.  The removal is
    taken to succeed and [n] to be the name of an entry of the upload
    directory; [Faults.deleteMediaWith] makes neither assumption. *)
Definition fsRemove (n : string) (fs : list string) : list string :=
  filter (fun x => negb (String.eqb n x)) fs.

(** The i-th file of a request is processed under [draws i]. *)
Definition indexed {A : Type} (xs : list A) : list (nat * A) :=
  combine (seq 0 (List.length xs)) xs.

(** POST /api/media *)
Definition postMedia (draws : nat -> Draw) (uploads : list Upload)
    (st : State) : Response * State :=
  if 20 <? List.length uploads then (Rejected, st)
  else
    let stored :=
      map (fun iu => (fst iu, storeFile (draws (fst iu)) (snd iu)))
          (indexed uploads) in
    let disk :=
      fold_left (fun fs f => fsWrite (filename (snd f)) fs) stored (files st) in
    match stored with
    | [] => (NoFiles, st)
    | _ :: _ =>
        let saved := map (fun f => recordOf (draws (fst f)) (snd f)) stored in
        (Saved saved,
         {| catalog := catalog st ++ saved;
            files := disk;
            writes := S (writes st) |})
    end.

(** [items.findIndex(p)] *)
Fixpoint findIndex {A : Type} (p : A -> bool) (l : list A) : option nat :=
  match l with
  | [] => None
  | x :: t => if p x then Some 0 else option_map S (findIndex p t)
  end.

(** [items.splice(idx, 1)] *)
Definition splice1 {A : Type} (idx : nat) (l : list A) : list A :=
  firstn idx l ++ skipn (S idx) l.

(** DELETE /api/media/:id *)
Definition deleteMedia (rid : string) (st : State) : Response * State :=
  match findIndex (fun m => String.eqb (id m) rid) (catalog st) with
  | None => (NotFound, st)
  | Some idx =>
      match nth_error (catalog st) idx with
      | None => (Crashed, st)
      | Some item =>
          (Deleted,
           {| catalog := splice1 idx (catalog st);
              files := fsRemove (storedName item) (files st);
              writes := S (writes st) |})
      end
  end.

(** GET /api/media *)
Definition listMedia (st : State) : list MediaRecord := catalog st.

End Media.

(* ================================================================= *)
(** * Analytics: event log, track handler and queries *)

Module Analytics.
Import JS.

Record Event : Type := mkEvent {
  id : string;
  ts : Z;
  type : jsval;
  path : jsval;
  referrer : jsval;
  device : jsval;
  sessionId : jsval;
  ip : jsval
}.

(** [isAdminPath(p = '')].  [String(p)] cannot throw on a scalar, so the
    [catch] branch is never taken. *)
Definition isAdminPath (p : jsval) : bool :=
  let v := toLowerCase (toString (withDefault (JStr "") p)) in
  startsWith v "/admin" || includes v "admin-".

(** ** POST /api/analytics/track *)

Record Body : Type := mkBody {
  b_type : jsval;
  b_path : jsval;
  b_page : jsval;
  b_referrer : jsval;
  b_device : jsval;
  b_sessionId : jsval
}.

Definition emptyBody : Body :=
  mkBody JUndefined JUndefined JUndefined JUndefined JUndefined JUndefined.

Record Request : Type := mkRequest {
  body : option Body;          (* [req.body], [None] when undefined *)
  userAgent : jsval;           (* [req.headers['user-agent']] *)
  referer : jsval;             (* [req.headers.referer] *)
  req_ip : jsval               (* [req.ip] *)
}.

(** What the environment supplies to one call: the clock, the two
    uuids the handler may draw, and whether reading and rewriting
    [analytics.json] succeed. *)
Record Env : Type := mkEnv {
  now : Z;
  uuid1 : string;
  uuid2 : string;
  readOk : bool;
  writeOk : bool
}.

Inductive TrackResponse : Type :=
| Tracked (eventId : string)    (* { ok: true, eventId } *)
| Ignored                       (* { ok: true, ignored: true } *)
| FailedToTrack.                (* 500 { error: 'failed_to_track' } *)

(** [pagePath || page || '/'] after the destructuring defaults. *)
Definition finalPath (b : Body) : jsval :=
  let pagePath := withDefault (JStr "/") (b_path b) in
  jsor (jsor pagePath (b_page b)) (JStr "/").

Definition eventOf (env : Env) (req : Request) (b : Body) : Event :=
  let ua := jsor (userAgent req) (JStr "") in
  {| id := uuid1 env;
     ts := now env;
     type := withDefault (JStr "pageview") (b_type b);
     path := finalPath b;
     referrer := jsor (jsor (b_referrer b) (referer req)) (JStr "");
     device := jsor (b_device b) ua;
     sessionId := jsor (b_sessionId b) (JStr (uuid2 env));
     ip := req_ip req |}.

(** [req.body || {}] *)
Definition bodyOf (req : Request) : Body :=
  match body req with
  | Some b => b
  | None => emptyBody
  end.

(** A read or a write of [analytics.json] that fails is taken to leave
    the file as it was. *)
Definition track (env : Env) (req : Request) (db : list Event)
    : TrackResponse * list Event :=
  let b := bodyOf req in
  if isAdminPath (finalPath b) then (Ignored, db)
  else
    let event := eventOf env req b in
    if negb (readOk env) then (FailedToTrack, db)
    else if negb (writeOk env) then (FailedToTrack, db)
    else (Tracked (id event), db ++ [event]).

(** ** The time window *)

(** Members every object literal inherits from [Object.prototype]. *)
Definition objectPrototypeKeys : list string :=
  [ "constructor"; "__proto__"; "hasOwnProperty"; "isPrototypeOf";
    "propertyIsEnumerable"; "toLocaleString"; "toString"; "valueOf";
    "__defineGetter__"; "__defineSetter__"; "__lookupGetter__";
    "__lookupSetter__" ].

Inductive Member : Type :=
| Own (n : Z)      (* a number of the literal *)
| Inherited        (* a function or object of the prototype: truthy *)
| Absent.          (* undefined *)

(** [table[k]] for an object literal [table] with numeric members. *)
Fixpoint member (table : list (string * Z)) (k : string) : Member :=
  match table with
  | [] => if existsb (String.eqb k) objectPrototypeKeys then Inherited
          else Absent
  | (k', n) :: t => if String.eqb k k' then Own n else member t k
  end.

Definition dayMs : Z := 86400000.

Definition windowTable : list (string * Z) :=
  [ ("1d", dayMs); ("7d", 7 * dayMs); ("30d", 30 * dayMs);
    ("90d", 90 * dayMs); ("1y", 365 * dayMs) ]%Z.

(** [map[period] || map['7d']]; [None] when the value is not a number,
    which makes [now - windowMs] NaN. *)
Definition windowMs (period : string) : option Z :=
  match member windowTable period with
  | Own n => Some n
  | Inherited => None
  | Absent => Some (7 * dayMs)%Z
  end.

(** [filterEvents(events, period)] evaluated at the clock reading [t].
    A comparison with NaN is false, so nothing passes then. *)
Definition filterEvents (t : Z) (period : string) (events : list Event)
    : list Event :=
  match windowMs period with
  | Some w =>
      filter (fun e => (t - w <=? ts e)%Z && negb (isAdminPath (path e)))
             events
  | None => []
  end.

(** [req.query.period || '7d'] *)
Definition periodOf (q : option string) : string :=
  match q with
  | Some p => if String.eqb p "" then "7d" else p
  | None => "7d"
  end.

(** ** GET /api/analytics/summary *)

(** The members the service leaves null are omitted. *)
Record Summary : Type := mkSummary {
  visitors : nat;
  pageViews : nat;
  bounceRate : spec_float
}.

(** [Math.round((bounces / sessions) * 1000)] *)
Definition tenthsOf (bounces sessions : nat) : spec_float :=
  Binary64.mathRound
    (Binary64.mul
       (Binary64.div (Binary64.ofZ (Z.of_nat bounces))
                     (Binary64.ofZ (Z.of_nat sessions)))
       (Binary64.ofZ 1000)).

(** [sessions ? Math.round((bounces / sessions) * 1000) / 10 : 0] *)
Definition bounceRateOf (bounces sessions : nat) : spec_float :=
  if sessions =? 0 then S754_zero false
  else Binary64.div (tenthsOf bounces sessions) (Binary64.ofZ 10).

Definition summary (t : Z) (q : option string) (events : list Event)
    : Summary :=
  let evs := filterEvents t (periodOf q) events in
  let sessions := setSize jsval_eq_dec (map sessionId evs) in
  let countsBySession := countBy jsval_eq_dec sessionId evs in
  let bounces :=
    List.length (filter (fun c => c =? 1) (map snd countsBySession)) in
  {| visitors := sessions;
     pageViews := List.length evs;
     bounceRate := bounceRateOf bounces sessions |}.

(** ** GET /api/analytics/timeseries *)

Record Bucket : Type := mkBucket {
  label : string;
  key : option string;
  value : nat
}.

Definition incr (b : Bucket) : Bucket :=
  {| label := label b; key := key b; value := value b + 1 |}.

(** [buckets[i].value += 1] *)
Fixpoint bumpAt (i : nat) (bs : list Bucket) : list Bucket :=
  match bs, i with
  | [], _ => []
  | b :: t, 0 => incr b :: t
  | b :: t, S j => b :: bumpAt j t
  end.

(** [b = buckets.find(b => b.key === k); if (b) b.value += 1] *)
Fixpoint bumpKey (k : string) (bs : list Bucket) : list Bucket :=
  match bs with
  | [] => []
  | b :: t =>
      match key b with
      | Some k' => if String.eqb k' k then incr b :: t else b :: bumpKey k t
      | None => b :: bumpKey k t
      end
  end.

Definition daysTable : list (string * Z) :=
  [ ("7d", 7); ("30d", 30); ("90d", 12); ("1y", 12) ]%Z.

(** [days[period] || 7], then the length [Array.from] makes of it: an
    inherited member is not a number and gives length 0. *)
Definition bucketCount (period : string) : nat :=
  match member daysTable period with
  | Own n => Z.to_nat n
  | Inherited => 0
  | Absent => 7
  end.

Section Queries.
Context {host : Host}.

Definition hourBuckets : list Bucket :=
  map (fun i => {| label := decimalN (N.of_nat i) ++ ":00";
                   key := None; value := 0 |})
      (seq 0 24).

(** [t'] is the later clock reading of [new Date()]. *)
Definition dayBuckets (t' : Z) (count : nat) : list Bucket :=
  map (fun i =>
         let d := daysBefore t' (count - 1 - i) in
         {| label := toLocaleDateLabel d;
            key := Some (toDateString d); value := 0 |})
      (seq 0 count).

Definition timeseries (t t' : Z) (q : option string) (events : list Event)
    : list string * list nat :=
  let period := periodOf q in
  let evs := filterEvents t period events in
  let buckets :=
    if String.eqb period "1d" then
      fold_left (fun bs e => bumpAt (getHours (ts e)) bs) evs hourBuckets
    else
      fold_left (fun bs e => bumpKey (toDateString (ts e)) bs) evs
                (dayBuckets t' (bucketCount period)) in
  (map label buckets, map value buckets).

(** ** GET /api/analytics/top-pages *)
Definition topPages (t : Z) (q : option string) (events : list Event)
    : list (jsval * nat) :=
  let evs := filterEvents t (periodOf q) events in
  let counts := countBy jsval_eq_dec path evs in
  firstn 10 (sortDesc counts).

(** ** GET /api/analytics/sources *)
Inductive Source : Type := Direct | Search | Social | Referral.

Definition Source_eq_dec (x y : Source) : {x = y} + {x <> y}.
Proof. decide equality. Defined.

Definition sourceOf (r : jsval) : Source :=
  if negb (truthy r) then Direct
  else
    match urlHostname (toString r) with
    | Some h =>
        if includes h "google" then Search
        else if includes h "facebook" || includes h "twitter"
                || includes h "instagram" then Social
        else Referral
    | None => Referral
    end.

Definition sources (t : Z) (q : option string) (events : list Event)
    : list (Source * nat) :=
  let evs := filterEvents t (periodOf q) events in
  countBy Source_eq_dec (fun e => sourceOf (referrer e)) evs.

(** ** GET /api/analytics/devices *)
Inductive DeviceClass : Type := Mobile | Tablet | Desktop.

Definition DeviceClass_eq_dec (x y : DeviceClass) : {x = y} + {x <> y}.
Proof. decide equality. Defined.

Definition mobilePattern : list string := ["Mobile"; "Android"; "iPhone"].
Definition tabletPattern : list string := ["Tablet"; "iPad"].

(** [deviceOf(ua = '')] *)
Definition deviceOf (ua : jsval) : DeviceClass :=
  let s := toString (withDefault (JStr "") ua) in
  if regexTestI mobilePattern s then Mobile
  else if regexTestI tabletPattern s then Tablet
  else Desktop.

Definition devices (t : Z) (q : option string) (events : list Event)
    : list (DeviceClass * nat) :=
  let evs := filterEvents t (periodOf q) events in
  countBy DeviceClass_eq_dec (fun e => deviceOf (device e)) evs.

(** ** GET /api/analytics/realtime *)
Record Row : Type := mkRow {
  time : string;
  page : jsval;
  location : string;
  r_device : DeviceClass;
  duration : string
}.

(** The em dash the service prints for a value it does not have,
    written by its UTF-8 bytes. *)
Definition unknownMark : string := "—".

Definition rowOf (e : Event) : Row :=
  {| time := toLocaleTimeString (ts e);
     page := path e;
     location := unknownMark;
     r_device :=
       if regexTestI mobilePattern (toString (jsor (device e) (JStr "")))
       then Mobile else Desktop;
     duration := unknownMark |}.

Definition realtime (events : list Event) : list Row :=
  map rowOf (firstn 20 (rev (sliceLast 50 events))).
End Queries.

End Analytics.

(* ================================================================= *)
(** * Definitions that follow the words of the specification *)

(** These are not translations of code: they say what the
    specification asks for, and the theorems compare the handlers with
    them. *)
Module Spec.
Import JS.

(** [s] contains [needle]. *)
Definition Contains (s needle : string) : Prop :=
  exists pre post, s = (pre ++ needle ++ post)%string.

(** [s] starts with [p]. *)
Definition StartsWith (s p : string) : Prop :=
  exists rest, s = (p ++ rest)%string.

(** [s] contains one of the words, letter case aside. *)
Definition MatchesAnyCase (words : list string) (s : string) : Prop :=
  exists w pre mid post,
    In w words /\ s = (pre ++ mid ++ post)%string
    /\ canonString mid = canonString w.

Section Grouping.
Context {K : Type} (eq_dec : forall x y : K, {x = y} + {x <> y}).

(** The distinct members of a list, each at its first occurrence. *)
Fixpoint firstOccurrences (l : list K) : list K :=
  match l with
  | [] => []
  | x :: t => x :: remove eq_dec x (firstOccurrences t)
  end.

(** Group by key and count, groups in order of first occurrence. *)
Definition groupCount (ks : list K) : list (K * nat) :=
  map (fun k => (k, count_occ eq_dec ks k)) (firstOccurrences ks).
End Grouping.

(** The sessions of a window, and those with exactly one event. *)
Definition sessionsOf (evs : list Analytics.Event) : list jsval :=
  nodup jsval_eq_dec (map Analytics.sessionId evs).

Definition bouncedSessions (evs : list Analytics.Event) : list jsval :=
  filter (fun s => count_occ jsval_eq_dec (map Analytics.sessionId evs) s =? 1)
         (sessionsOf evs).

(** Descending by count. *)
Definition countGe {K : Type} (x y : K * nat) : Prop := snd y <= snd x.

(** The characters a stored name keeps: letters, digits, dot,
    underscore and hyphen. *)
Definition safeAlphabet : string :=
  "ABCDEFGHIJKLMNOPQRSTUVWXYZabcdefghijklmnopqrstuvwxyz0123456789._-".

Definition SafeUnit (c : ascii) : Prop :=
  In c (list_ascii_of_string safeAlphabet).


End Spec.

(* ================================================================= *)
(** * A host for examples *)

(** A UTC clock whose date strings are day numbers, and URLs of the
    shape [scheme://host] followed by nothing or by [/], [?] or [#]. *)
Module ExampleHost.
Import JS.

Fixpoint untilDelimiter (s : string) : string :=
  match s with
  | "" => ""
  | String c t =>
      if Ascii.eqb c "/" || Ascii.eqb c "?" || Ascii.eqb c "#" then ""
      else String c (untilDelimiter t)
  end.

Fixpoint afterScheme (s : string) (seen : nat) : option string :=
  match s with
  | "" => None
  | String c t =>
      if startsWith s "://" then
        match seen with
        | 0 => None
        | _ => Some (untilDelimiter (substring 3 (String.length s - 3) s))
        end
      else if Ascii.eqb c " " then None
      else afterScheme t (S seen)
  end.

Definition hostnameOf (s : string) : option string :=
  match afterScheme s 0 with
  | Some "" => None
  | Some h => Some (toLowerCase h)
  | None => None
  end.

Definition hourOf (ts : Z) : nat := Z.to_nat ((ts / 3600000) mod 24).

Lemma hourOf_lt (ts : Z) : hourOf ts < 24.
Proof.
  unfold hourOf.
  assert (0 <= (ts / 3600000) mod 24 < 24)%Z by (apply Z.mod_pos_bound; lia).
  lia.
Qed.

Definition dayOf (ts : Z) : string := decimalZ (ts / Analytics.dayMs).

#[export] Instance utc : Host := {|
  getHours := hourOf;
  getHours_lt := hourOf_lt;
  toDateString := dayOf;
  daysBefore := fun t k => (t - Z.of_nat k * Analytics.dayMs)%Z;
  toLocaleDateLabel := dayOf;
  toLocaleTimeString := decimalZ;
  urlHostname := hostnameOf
|}.

End ExampleHost.

(* ================================================================= *)
(** * Sample data *)

Module Examples.
Import JS.



Definition photo : Media.Upload :=
  {| Media.up_originalname := "my photo.png";
     Media.up_size := 10;
     Media.up_mimetype := "image/png" |}.

Definition emptyState : Media.State :=
  {| Media.catalog := []; Media.files := []; Media.writes := 0 |}.

Definition media (i n : string) : Media.MediaRecord :=
  {| Media.id := i; Media.name := n; Media.storedName := ("1-2-" ++ n)%string;
     Media.size := 1; Media.type := "image/png";
     Media.uploadDate := "2023-11-14T22:13:20.000Z";
     Media.url := ("/uploads/media/1-2-" ++ n)%string |}.

Definition env : Analytics.Env :=
  {| Analytics.now := 1700000000000;
     Analytics.uuid1 := "event-1";
     Analytics.uuid2 := "session-1";
     Analytics.readOk := true;
     Analytics.writeOk := true |}.

(** A request whose body has [path] and [page] as given. *)
Definition request (pth pg : jsval) : Analytics.Request :=
  {| Analytics.body :=
       Some (Analytics.mkBody JUndefined pth pg JUndefined JUndefined
                              JUndefined);
     Analytics.userAgent := JStr "Mozilla/5.0";
     Analytics.referer := JUndefined;
     Analytics.req_ip := JStr "127.0.0.1" |}.

(** An event at time [t] of session [s] on page [p]. *)
Definition event (t : Z) (s p : string) : Analytics.Event :=
  {| Analytics.id := "e"; Analytics.ts := t;
     Analytics.type := JStr "pageview"; Analytics.path := JStr p;
     Analytics.referrer := JStr ""; Analytics.device := JStr "iPad";
     Analytics.sessionId := JStr s; Analytics.ip := JStr "127.0.0.1" |}.

Definition clock : Z := 1700000000000.

(** Three sessions in the window: two with one event, one with three. *)
Definition bounceLog : list Analytics.Event :=
  [ event clock "s1" "/"; event clock "s3" "/a"; event clock "s2" "/";
    event clock "s3" "/b"; event clock "s3" "/c" ].

(** Five views of /a, three of /b and three of /c, interleaved. *)
Definition pagesLog : list Analytics.Event :=
  map (event clock "s")
      [ "/b"; "/a"; "/c"; "/a"; "/b"; "/a"; "/c"; "/a"; "/c"; "/b"; "/a" ].

End Examples.

(* ================================================================= *)
(** * The browser-side tracker *)

(** The script that posts page views to the track endpoint.  It is
    called with the type [pageview] and no extra data. *)
Module Client.
Import JS.

(** What the script reads of the page it runs on. *)
Record Page : Type := mkPage {
  pathname : string;          (* [location.pathname] *)
  search : string;            (* [location.search] *)
  hash : string;              (* [location.hash] *)
  docReferrer : string;       (* [document.referrer] *)
  navUserAgent : string       (* [navigator.userAgent] *)
}.

(** The two renderings a new session id is made of:
    [Math.random().toString(36).slice(2)] and
    [Date.now().toString(36)]. *)
Record Draw : Type := mkDraw {
  random36 : string;
  now36 : string
}.

(** [getSessionId()] over the entry of [sessionStorage] under the
    session key, [None] when there is none.  It returns the id and the
    entry it leaves. *)
Definition getSessionId (d : Draw) (entry : option string)
    : string * option string :=
  let fresh := ("sess_" ++ random36 d ++ "_" ++ now36 d)%string in
  match entry with
  | Some id => if String.eqb id "" then (fresh, Some fresh) else (id, entry)
  | None => (fresh, Some fresh)
  end.

(** [isAdminPage()] *)
Definition isAdminPage (pg : Page) : bool :=
  let p := toLowerCase (pathname pg) in
  startsWith p "/admin" || includes p "admin-".

(** The JSON body [track('pageview')] posts, [None] when it posts
    nothing, and the session entry it leaves. *)
Definition track (d : Draw) (pg : Page) (entry : option string)
    : option Analytics.Body * option string :=
  if isAdminPage pg then (None, entry)
  else
    let (sid, entry') := getSessionId d entry in
    (Some {| Analytics.b_type := JStr "pageview";
             Analytics.b_path :=
               JStr (pathname pg ++ search pg ++ hash pg)%string;
             Analytics.b_page := JUndefined;
             Analytics.b_referrer := jsor (JStr (docReferrer pg)) (JStr "");
             Analytics.b_device := JStr (navUserAgent pg);
             Analytics.b_sessionId := JStr sid |},
     entry').

End Client.

(* ================================================================= *)
(** * Two handlers with the failures of their environment *)

(** [Media.deleteMedia] takes the removal of the stored file to succeed
    and the stored name to be the name of an entry of the upload
    directory; [Analytics.timeseries] takes every time value to be in
    the range of [Date].  Here the two handlers are modelled without
    these assumptions. *)
Module Faults.
Import JS.

(** ** DELETE /api/media/:id *)

(** How [fs.remove] ended; when it throws, the empty [catch] swallows
    the error. *)
Inductive Removal : Type := RemovalDone | RemovalThrew.

(** A slash, a backslash or the NUL character. *)
Definition isSeparator (c : ascii) : bool :=
  let n := nat_of_ascii c in (n =? 47) || (n =? 92) || (n =? 0).

(** [path.join(UPLOAD_DIR, n)] is the path of the entry [n] of the
    upload directory: [n] is not empty, not [.] or [..], and has no
    separator.  For the empty name and for [.] the joined path is the
    upload directory itself. *)
Definition isEntryName (n : string) : bool :=
  negb (String.eqb n "") && negb (String.eqb n ".")
  && negb (String.eqb n "..")
  && allUnits (fun c => negb (isSeparator c)) n.

(** The entries of the upload directory after
    [try { await fs.remove(path.join(UPLOAD_DIR, n)) } catch {}];
    [None] when the path is not that of an entry, so that what is
    removed is not described by the list of entries. *)
Definition removeStored (o : Removal) (n : string) (entries : list string)
    : option (list string) :=
  if isEntryName n then
    Some match o with
         | RemovalDone => Media.fsRemove n entries
         | RemovalThrew => entries
         end
  else None.

Record Deletion : Type := mkDeletion {
  response : Media.Response;
  records : list Media.MediaRecord;     (* [media.json] afterwards *)
  entries : option (list string);       (* the upload directory afterwards *)
  jsonWrites : nat
}.

Definition deleteMediaWith (o : Removal) (rid : string) (st : Media.State)
    : Deletion :=
  match Media.findIndex (fun m => String.eqb (Media.id m) rid)
                        (Media.catalog st) with
  | None =>
      {| response := Media.NotFound; records := Media.catalog st;
         entries := Some (Media.files st); jsonWrites := Media.writes st |}
  | Some idx =>
      match nth_error (Media.catalog st) idx with
      | None =>
          {| response := Media.Crashed; records := Media.catalog st;
             entries := Some (Media.files st);
             jsonWrites := Media.writes st |}
      | Some item =>
          {| response := Media.Deleted;
             records := Media.splice1 idx (Media.catalog st);
             entries := removeStored o (Media.storedName item) (Media.files st);
             jsonWrites := S (Media.writes st) |}
      end
  end.

(** ** GET /api/analytics/timeseries for the period 1d *)

(** The largest time value of a [Date]; beyond it, in either direction,
    the date is invalid and [getHours()] is [NaN]. *)
Definition maxTime : Z := 8640000000000000.

Definition isValidTime (ts : Z) : bool :=
  (- maxTime <=? ts)%Z && (ts <=? maxTime)%Z.

Section Hourly.
Context {host : Host}.

(** [evs.forEach((e) => { buckets[new Date(e.ts).getHours()].value += 1 })]:
    for an invalid date [buckets[NaN]] is [undefined] and reading its
    [value] throws; [None] is that exception. *)
Fixpoint hourly (evs : list Analytics.Event) (bs : list Analytics.Bucket)
    : option (list Analytics.Bucket) :=
  match evs with
  | [] => Some bs
  | e :: rest =>
      if isValidTime (Analytics.ts e) then
        hourly rest (Analytics.bumpAt (getHours (Analytics.ts e)) bs)
      else None
  end.

(** The answer of the handler when [period === '1d'], [None] when it
    throws. *)
Definition timeseriesHourly (t : Z) (events : list Analytics.Event)
    : option (list string * list nat) :=
  let evs := Analytics.filterEvents t "1d" events in
  match hourly evs Analytics.hourBuckets with
  | Some buckets =>
      Some (map Analytics.label buckets, map Analytics.value buckets)
  | None => None
  end.
End Hourly.

End Faults.

(* ================================================================= *)
(** * Notions the further properties are stated with *)

Module Derived.
Import JS.

(** The record the upload handler makes of the file at one position of
    a request. *)
Definition recordAt (draws : nat -> Media.Draw) (iu : nat * Media.Upload)
    : Media.MediaRecord :=
  Media.recordOf (draws (fst iu)) (Media.storeFile (draws (fst iu)) (snd iu)).

(** The sum of the counts of a list of groups. *)
Definition totalCount {K : Type} (groups : list (K * nat)) : nat :=
  list_sum (map snd groups).

(** No event of the log has an administrative path. *)
Definition NoAdmin (log : list Analytics.Event) : Prop :=
  Forall (fun e => Analytics.isAdminPath (Analytics.path e) = false) log.

(** The timestamps of the log never decrease. *)
Definition Chronological (log : list Analytics.Event) : Prop :=
  StronglySorted (fun a b => (Analytics.ts a <= Analytics.ts b)%Z) log.

(** The logs the track handler builds from the empty log, when the
    clock never goes back and [uuid()] returns a non-empty string. *)
Inductive Reachable : list Analytics.Event -> Prop :=
| reach_empty : Reachable []
| reach_track (env : Analytics.Env) (req : Analytics.Request)
    (db : list Analytics.Event) :
    Reachable db ->
    (forall e, In e db -> (Analytics.ts e <= Analytics.now env)%Z) ->
    Analytics.uuid2 env <> ""%string ->
    Reachable (snd (Analytics.track env req db)).

(** The bucket is the one of the date string [k]. *)
Definition hasKey (k : string) (b : Analytics.Bucket) : bool :=
  match Analytics.key b with
  | Some k' => String.eqb k' k
  | None => false
  end.

(** The five period tokens. *)
Definition periodTokens : list string := ["1d"; "7d"; "30d"; "90d"; "1y"].

(** Tablet is not a class of the realtime feed. *)
Definition collapseTablet (c : Analytics.DeviceClass) : Analytics.DeviceClass :=
  match c with
  | Analytics.Tablet => Analytics.Desktop
  | c => c
  end.

End Derived.

(* ================================================================= *)
(** * More sample data *)

Module Fixtures.
Import JS.

Definition draws (i : nat) : Media.Draw :=
  {| Media.nowMs := 1700000000000 + N.of_nat i;
     Media.rand := 42;
     Media.uuid := ("id-" ++ decimalN (N.of_nat i))%string;
     Media.iso := "2023-11-14T22:13:20.000Z" |}.

Definition report : Media.Upload :=
  {| Media.up_originalname := "annual report (final).pdf";
     Media.up_size := 2048;
     Media.up_mimetype := "application/pdf" |}.

Definition oneRecord : Media.State :=
  {| Media.catalog := [Examples.media "a" "x.png"];
     Media.files := ["1-2-x.png"];
     Media.writes := 1 |}.

(** Two records that share one stored file. *)
Definition sharedFile : Media.State :=
  {| Media.catalog := [Examples.media "a" "x.png"; Examples.media "b" "x.png"];
     Media.files := ["1-2-x.png"];
     Media.writes := 2 |}.

Definition home : Client.Page :=
  {| Client.pathname := "/events.html";
     Client.search := "?tab=next";
     Client.hash := "";
     Client.docReferrer := "";
     Client.navUserAgent := "Mozilla/5.0 (iPhone)" |}.

(** A public page reached with an administrative marker in its query. *)
Definition marked : Client.Page :=
  {| Client.pathname := "/events.html";
     Client.search := "?from=admin-panel";
     Client.hash := "";
     Client.docReferrer := "";
     Client.navUserAgent := "Mozilla/5.0" |}.

Definition clientDraw : Client.Draw :=
  {| Client.random36 := "k3j9x"; Client.now36 := "lp0q2z" |}.

(** The request the server sees for a body the tracker posted. *)
Definition requestOf (b : Analytics.Body) : Analytics.Request :=
  {| Analytics.body := Some b;
     Analytics.userAgent := JStr "Mozilla/5.0 (iPhone)";
     Analytics.referer := JUndefined;
     Analytics.req_ip := JStr "127.0.0.1" |}.

(** Views at four ages: now, three days, twenty days and two hundred
    days ago. *)
Definition agedLog : list Analytics.Event :=
  [ Examples.event (Examples.clock - 200 * Analytics.dayMs) "s4" "/d";
    Examples.event (Examples.clock - 20 * Analytics.dayMs) "s3" "/c";
    Examples.event (Examples.clock - 3 * Analytics.dayMs) "s2" "/b";
    Examples.event Examples.clock "s1" "/a" ].

End Fixtures.

(* ================================================================= *)
(** * Facts about strings *)

Section StringFacts.
Import JS.
Local Open Scope string_scope.

Lemma startsWith_app (p r : string) : startsWith (p ++ r) p = true.
Proof.
  induction p as [|a p IH]; simpl; [reflexivity|].
  now rewrite Ascii.eqb_refl, IH.
Qed.

Lemma startsWith_inv (s p : string) :
  startsWith s p = true -> exists r, s = p ++ r.
Proof.
  revert s; induction p as [|a p IH]; intros s Hs; simpl in *.
  - now exists s.
  - destruct s as [|b s]; [discriminate|].
    apply andb_true_iff in Hs as [Hab Hs].
    apply Ascii.eqb_eq in Hab; subst b.
    destruct (IH _ Hs) as [r ->]. now exists r.
Qed.

Lemma includes_app (pre needle post : string) :
  includes (pre ++ needle ++ post) needle = true.
Proof.
  induction pre as [|c pre IH]; simpl.
  - assert (U : forall s, startsWith s needle = true ->
                          includes s needle = true).
    { intros s Hs. destruct s; simpl; now rewrite Hs. }
    apply U, startsWith_app.
  - rewrite IH. apply orb_true_r.
Qed.

Lemma includes_inv (s needle : string) :
  includes s needle = true -> exists pre post, s = pre ++ needle ++ post.
Proof.
  induction s as [|c s IH]; simpl; intros H.
  - rewrite orb_false_r in H. apply startsWith_inv in H as [r ->].
    now exists "", r.
  - apply orb_true_iff in H as [H|H].
    + apply startsWith_inv in H as [r ->]. now exists "", r.
    + destruct (IH H) as (pre & post & ->).
      now exists (String c pre), post.
Qed.

Lemma toLowerCase_app (a b : string) :
  toLowerCase (a ++ b) = toLowerCase a ++ toLowerCase b.
Proof. induction a as [|c a IH]; simpl; [|rewrite IH]; reflexivity. Qed.

Lemma canonString_app (a b : string) :
  canonString (a ++ b) = canonString a ++ canonString b.
Proof. induction a as [|c a IH]; simpl; [|rewrite IH]; reflexivity. Qed.

Lemma canonString_length (a : string) :
  String.length (canonString a) = String.length a.
Proof. induction a as [|c a IH]; simpl; [|rewrite IH]; reflexivity. Qed.

(** A split of the folded string is the folding of a split. *)
Lemma canonString_split (s x y : string) :
  canonString s = x ++ y ->
  exists a b, s = a ++ b /\ canonString a = x /\ canonString b = y.
Proof.
  revert x; induction s as [|c s IH]; intros x H; simpl in H.
  - destruct x; [|discriminate]. simpl in H. subst y.
    now exists "", "".
  - destruct x as [|d x]; simpl in H.
    + exists "", (String c s). now subst y.
    + injection H as Hd Hs. destruct (IH _ Hs) as (a & b & -> & Ha & Hb).
      exists (String c a), b. simpl. now rewrite Ha, Hd, Hb.
Qed.
End StringFacts.

(* ================================================================= *)
(** * Facts about maps, groups and sorting *)

Section GroupFacts.
Import JS Spec.
Context {K : Type} (eq_dec : forall x y : K, {x = y} + {x <> y}).

Let tab (g : K -> nat) (l : list K) : list (K * nat) :=
  map (fun k => (k, g k)) l.

Lemma mapGet_tab (g : K -> nat) (l : list K) (k : K) :
  mapGet eq_dec (tab g l) k = if in_dec eq_dec k l then Some (g k) else None.
Proof.
  induction l as [|x l IH]; simpl; [reflexivity|].
  destruct (eq_dec k x) as [->|Hkx].
  - destruct (eq_dec x x); [|contradiction].
    reflexivity.
  - rewrite IH. destruct (eq_dec x k) as [E|N]; [now subst|].
    destruct (in_dec eq_dec k l); reflexivity.
Qed.

Lemma mapSet_tab_new (g : K -> nat) (l : list K) (k : K) (v : nat) :
  ~ In k l -> mapSet eq_dec (tab g l) k v = tab g l ++ [(k, v)].
Proof.
  induction l as [|x l IH]; simpl; intros Hk; [reflexivity|].
  destruct (eq_dec k x) as [->|Hkx]; [tauto|].
  rewrite IH by tauto. reflexivity.
Qed.

Lemma mapSet_tab_old (g : K -> nat) (l : list K) (k : K) (v : nat) :
  NoDup l -> In k l ->
  mapSet eq_dec (tab g l) k v
  = tab (fun k' => if eq_dec k k' then v else g k') l.
Proof.
  induction l as [|x l IH]; simpl; intros Hnd Hk; [contradiction|].
  inversion Hnd as [|? ? Hx Hl]; subst.
  destruct (eq_dec k x) as [->|Hkx].
  - f_equal. apply map_ext_in. intros y Hy.
    destruct (eq_dec x y) as [->|_]; [contradiction|reflexivity].
  - f_equal. apply IH; [assumption|]. destruct Hk; [congruence|assumption].
Qed.

Lemma firstOccurrences_In (l : list K) (k : K) :
  In k (firstOccurrences eq_dec l) <-> In k l.
Proof.
  induction l as [|x l IH]; simpl; [tauto|].
  split.
  - intros [->|H]; [now left|].
    apply in_remove in H as [H _]. right. now apply IH.
  - intros [->|H]; [now left|].
    destruct (eq_dec x k) as [->|Hxk]; [now left|].
    right. apply in_in_remove; [congruence|now apply IH].
Qed.

Lemma NoDup_remove_keep (x : K) (l : list K) :
  NoDup l -> NoDup (remove eq_dec x l).
Proof.
  induction 1 as [|y l Hy Hl IH]; simpl; [constructor|].
  destruct (eq_dec x y); [assumption|].
  constructor; [|assumption].
  intros H. apply in_remove in H as [H _]. contradiction.
Qed.

Lemma firstOccurrences_NoDup (l : list K) :
  NoDup (firstOccurrences eq_dec l).
Proof.
  induction l as [|x l IH]; simpl; constructor.
  - apply remove_In.
  - now apply NoDup_remove_keep.
Qed.

Lemma firstOccurrences_snoc (l : list K) (k : K) :
  firstOccurrences eq_dec (l ++ [k])
  = if in_dec eq_dec k l then firstOccurrences eq_dec l
    else firstOccurrences eq_dec l ++ [k].
Proof.
  induction l as [|x l IH]; simpl; [reflexivity|].
  rewrite IH.
  destruct (eq_dec x k) as [->|Hxk].
  - destruct (in_dec eq_dec k l) as [Hin|Hout]; [reflexivity|].
    rewrite remove_app. simpl.
    destruct (eq_dec k k); [|contradiction].
    now rewrite app_nil_r.
  - destruct (in_dec eq_dec k l) as [Hin|Hout]; [reflexivity|].
    rewrite remove_app. simpl.
    destruct (eq_dec x k); [contradiction|reflexivity].
Qed.

Lemma groupCount_snoc (ks : list K) (k : K) :
  groupCount eq_dec (ks ++ [k]) = bump eq_dec (groupCount eq_dec ks) k.
Proof.
  unfold groupCount, bump.
  fold (tab (count_occ eq_dec ks) (firstOccurrences eq_dec ks)).
  rewrite mapGet_tab, firstOccurrences_snoc.
  destruct (in_dec eq_dec k ks) as [Hin|Hout].
  - destruct (in_dec eq_dec k (firstOccurrences eq_dec ks)) as [_|N];
      [|exfalso; apply N; now apply firstOccurrences_In].
    rewrite mapSet_tab_old;
      [|apply firstOccurrences_NoDup|now apply firstOccurrences_In].
    apply map_ext. intros y. rewrite count_occ_app. simpl.
    destruct (eq_dec k y) as [->|Hky].
    + reflexivity.
    + f_equal. lia.
  - destruct (in_dec eq_dec k (firstOccurrences eq_dec ks)) as [Y|_];
      [exfalso; apply Hout; now apply firstOccurrences_In|].
    rewrite mapSet_tab_new by (now rewrite firstOccurrences_In).
    rewrite map_app. simpl. f_equal.
    + apply map_ext_in. intros y Hy. rewrite count_occ_app. simpl.
      destruct (eq_dec k y) as [->|_]; [|f_equal; lia].
      exfalso. apply Hout. apply (proj1 (firstOccurrences_In _ _) Hy).
    + rewrite count_occ_app. simpl.
      destruct (eq_dec k k); [|contradiction].
      rewrite (proj1 (count_occ_not_In eq_dec ks k) Hout). reflexivity.
Qed.

(** The map the reducer builds is the grouping of the specification. *)
Lemma countBy_groupCount {E : Type} (f : E -> K) (xs : list E) :
  countBy eq_dec f xs = groupCount eq_dec (map f xs).
Proof.
  induction xs as [|x xs IH] using rev_ind; [reflexivity|].
  unfold countBy in *. rewrite fold_left_app, IH. simpl.
  rewrite map_app. simpl. now rewrite groupCount_snoc.
Qed.

Lemma countBy_keys {E : Type} (f : E -> K) (xs : list E) (k : K) :
  In k (map fst (countBy eq_dec f xs)) <-> In k (map f xs).
Proof.
  rewrite countBy_groupCount. unfold groupCount.
  rewrite map_map. simpl. rewrite map_id. apply firstOccurrences_In.
Qed.
End GroupFacts.

Section SortFacts.
Import JS Spec.
Context {K : Type}.
Implicit Types (x y : K * nat) (l : list (K * nat)).

Lemma insertDesc_perm x l : Permutation (insertDesc x l) (x :: l).
Proof.
  induction l as [|y l IH]; simpl; [reflexivity|].
  destruct (snd y <=? snd x); [reflexivity|].
  rewrite IH. apply perm_swap.
Qed.

Lemma sortDesc_perm l : Permutation (sortDesc l) l.
Proof.
  induction l as [|x l IH]; simpl; [reflexivity|].
  unfold sortDesc in IH. now rewrite insertDesc_perm, IH.
Qed.

Lemma insertDesc_sorted x l :
  Sorted countGe l -> Sorted countGe (insertDesc x l).
Proof.
  induction 1 as [|y l Hl IH Hy]; simpl.
  - repeat constructor.
  - destruct (snd y <=? snd x) eqn:E.
    + apply Nat.leb_le in E.
      constructor; [now constructor|]. constructor. exact E.
    + apply Nat.leb_gt in E. constructor; [exact IH|].
      destruct l as [|z l]; simpl.
      * constructor. unfold countGe. lia.
      * destruct (snd z <=? snd x).
        -- constructor. unfold countGe. lia.
        -- inversion Hy; subst. now constructor.
Qed.

Lemma sortDesc_sorted l : Sorted countGe (sortDesc l).
Proof.
  induction l as [|x l IH]; simpl; [constructor|].
  now apply insertDesc_sorted.
Qed.

(** Entries of equal count keep the order they had. *)
Lemma insertDesc_stable (c : nat) x l :
  filter (fun p => snd p =? c) (insertDesc x l)
  = filter (fun p => snd p =? c) (x :: l).
Proof.
  induction l as [|y l IH]; [reflexivity|].
  simpl insertDesc. destruct (snd y <=? snd x) eqn:E; [reflexivity|].
  apply Nat.leb_gt in E.
  change (filter (fun p => snd p =? c) (y :: insertDesc x l))
    with (if snd y =? c then y :: filter (fun p => snd p =? c) (insertDesc x l)
          else filter (fun p => snd p =? c) (insertDesc x l)).
  rewrite IH. simpl.
  destruct (snd y =? c) eqn:Ey; [|reflexivity].
  apply Nat.eqb_eq in Ey.
  destruct (snd x =? c) eqn:Ex; [|reflexivity].
  apply Nat.eqb_eq in Ex. lia.
Qed.

Lemma sortDesc_stable (c : nat) l :
  filter (fun p => snd p =? c) (sortDesc l) = filter (fun p => snd p =? c) l.
Proof.
  induction l as [|x l IH]; [reflexivity|].
  change (sortDesc (x :: l)) with (insertDesc x (sortDesc l)).
  rewrite insertDesc_stable. simpl. now rewrite IH.
Qed.

Lemma firstn_incl {A : Type} (n : nat) (xs : list A) (a : A) :
  In a (firstn n xs) -> In a xs.
Proof.
  revert n; induction xs as [|b xs IH]; intros [|n]; simpl; try tauto.
  intros [->|H]; [now left|right; eauto].
Qed.
End SortFacts.

Section ListFacts.
Lemma filter_length_perm {A : Type} (f : A -> bool) (l l' : list A) :
  Permutation l l' ->
  List.length (filter f l) = List.length (filter f l').
Proof.
  induction 1 as [|x l l' _ IH|x y l|l l' l'' _ IH1 _ IH2]; simpl.
  - reflexivity.
  - destruct (f x); simpl; now rewrite IH.
  - destruct (f x), (f y); reflexivity.
  - now rewrite IH1.
Qed.

Lemma filter_drop_middle {A : Type} (f : A -> bool) (l1 l2 : list A) (a : A) :
  f a = false -> filter f (l1 ++ a :: l2) = filter f (l1 ++ l2).
Proof.
  intros Ha. rewrite !filter_app. simpl. now rewrite Ha.
Qed.

(** [xs.slice(-50).reverse().slice(0, 20)] is the last twenty, newest
    first. *)
Lemma recent_slice {A : Type} (xs : list A) :
  firstn 20 (rev (JS.sliceLast 50 xs)) = firstn 20 (rev xs).
Proof.
  unfold JS.sliceLast.
  destruct (Nat.le_gt_cases (List.length xs) 50) as [Hle|Hgt].
  - replace (List.length xs - 50) with 0 by lia. reflexivity.
  - rewrite <- firstn_rev, firstn_firstn. reflexivity.
Qed.
End ListFacts.

(* ================================================================= *)
(** * Facts about the analytics service *)

Section AnalyticsFacts.
Import JS Spec Analytics.
Context {host : Host}.
Local Open Scope string_scope.

Lemma isAdminPath_prefix (rest : string) :
  isAdminPath (JStr ("/admin" ++ rest)) = true.
Proof.
  unfold isAdminPath. cbn [withDefault toString].
  rewrite toLowerCase_app.
  change (toLowerCase "/admin") with "/admin".
  now rewrite startsWith_app.
Qed.

Lemma isAdminPath_marker (pre post : string) :
  isAdminPath (JStr (pre ++ "admin-" ++ post)) = true.
Proof.
  unfold isAdminPath. cbn [withDefault toString].
  rewrite !toLowerCase_app.
  change (toLowerCase "admin-") with "admin-".
  rewrite includes_app. apply orb_true_r.
Qed.

Lemma isAdminPath_of_spec (p : string) :
  StartsWith p "/admin" \/ Contains p "admin-" ->
  isAdminPath (JStr p) = true /\ truthy (JStr p) = true.
Proof.
  intros [[rest ->]|(pre & post & ->)].
  - split; [apply isAdminPath_prefix|reflexivity].
  - split; [apply isAdminPath_marker|].
    destruct pre; reflexivity.
Qed.

Lemma finalPath_truthy (b : Body) :
  truthy (b_path b) = true -> finalPath b = b_path b.
Proof.
  intros H. unfold finalPath, jsor.
  destruct (b_path b) as [| |[|]|n|s]; simpl in *; try discriminate;
    try reflexivity; rewrite H; simpl; now rewrite ?H.
Qed.

Lemma finalPath_undefined (b : Body) :
  b_path b = JUndefined -> finalPath b = JStr "/".
Proof. intros H. unfold finalPath. now rewrite H. Qed.

Lemma finalPath_falsy (b : Body) :
  b_path b <> JUndefined -> truthy (b_path b) = false ->
  finalPath b = jsor (b_page b) (JStr "/").
Proof.
  intros Hd Hf. unfold finalPath.
  destruct (b_path b) eqn:E; try contradiction; simpl in Hf |- *;
    unfold jsor at 2; simpl; now rewrite ?Hf.
Qed.

Lemma track_stores (env : Env) (req : Request) (db : list Event) :
  isAdminPath (finalPath (bodyOf req)) = false ->
  readOk env = true -> writeOk env = true ->
  track env req db
  = (Tracked (uuid1 env), (db ++ [eventOf env req (bodyOf req)])%list).
Proof.
  intros Ha Hr Hw. unfold track. now rewrite Ha, Hr, Hw.
Qed.

(** The windows of the five tokens; an unknown token falls back to
    seven days, and the name of an inherited member gives no number. *)
Lemma windowMs_tokens :
  windowMs "1d" = Some 86400000%Z
  /\ windowMs "7d" = Some 604800000%Z
  /\ windowMs "30d" = Some 2592000000%Z
  /\ windowMs "90d" = Some 7776000000%Z
  /\ windowMs "1y" = Some 31536000000%Z
  /\ windowMs "2w" = Some 604800000%Z
  /\ windowMs "constructor" = None.
Proof. repeat split. Qed.

Lemma filterEvents_not_admin (t : Z) (p : string) (l : list Event) (e : Event) :
  In e (filterEvents t p l) -> isAdminPath (path e) = false.
Proof.
  unfold filterEvents. destruct (windowMs p); [|contradiction].
  intros H. apply filter_In in H as [_ H].
  apply andb_true_iff in H as [_ H]. now apply negb_true_iff in H.
Qed.

Lemma filterEvents_in_window (t : Z) (p : string) (l : list Event) (e : Event) :
  In e (filterEvents t p l) ->
  In e l /\ exists w, windowMs p = Some w /\ (t - w <= ts e)%Z.
Proof.
  unfold filterEvents. destruct (windowMs p) as [w|]; [|contradiction].
  intros H. apply filter_In in H as [Hin H].
  apply andb_true_iff in H as [H _]. apply Z.leb_le in H.
  split; [assumption|]. now exists w.
Qed.

(** An administrative event, or one older than the window, has no
    effect on what the filter keeps. *)
Lemma filterEvents_drop (t : Z) (p : string) (l1 l2 : list Event) (e : Event) :
  isAdminPath (path e) = true
  \/ (forall w, windowMs p = Some w -> (ts e < t - w)%Z) ->
  filterEvents t p (l1 ++ e :: l2)%list = filterEvents t p (l1 ++ l2)%list.
Proof.
  intros H. unfold filterEvents. destruct (windowMs p) as [w|]; [|reflexivity].
  apply filter_drop_middle. destruct H as [H|H].
  - rewrite H. apply andb_false_r.
  - specialize (H w eq_refl).
    apply andb_false_iff. left. apply Z.leb_gt. lia.
Qed.

Lemma topPages_paths (t : Z) (q : option string) (l : list Event) (k : jsval) :
  In k (map fst (topPages t q l)) ->
  exists e, In e (filterEvents t (periodOf q) l) /\ path e = k.
Proof.
  unfold topPages. intros H.
  apply in_map_iff in H as (kc & <- & H).
  apply firstn_incl in H.
  apply (Permutation_in _ (sortDesc_perm _)) in H.
  assert (Hk : In (fst kc) (map fst (countBy jsval_eq_dec path
                (filterEvents t (periodOf q) l)))) by now apply in_map.
  apply countBy_keys in Hk. apply in_map_iff in Hk as (e & He & Hin).
  now exists e.
Qed.

Lemma regexTestI_spec (words : list string) (s : string) :
  regexTestI words s = true <-> MatchesAnyCase words s.
Proof.
  unfold regexTestI, MatchesAnyCase. rewrite existsb_exists. split.
  - intros (w & Hw & H). apply includes_inv in H as (x & y & H).
    apply canonString_split in H as (pre & r & -> & <- & H).
    apply canonString_split in H as (mid & post & -> & Hm & <-).
    now exists w, pre, mid, post.
  - intros (w & pre & mid & post & Hw & -> & Hm).
    exists w. split; [assumption|].
    rewrite !canonString_app, Hm. apply includes_app.
Qed.

Lemma jsor_string_default (s : string) :
  toString (jsor (JStr s) (JStr "")) = s.
Proof. destruct s; reflexivity. Qed.
End AnalyticsFacts.

(* ================================================================= *)
(** * Properties of the analytics service *)

Section AnalyticsClaims.
Import JS Spec Analytics.
Context {host : Host}.
Local Open Scope string_scope.

(** C1.  A tracking request whose path starts with the administrative
    prefix [/admin] or contains the marker [admin-] is acknowledged
    with [ignored: true] and the event log is left as it was, whatever
    the outcome of file access would have been.  Moreover an event with
    such a path, should the log hold one, has no influence on summary,
    timeseries and top-pages, and its path is not among the top pages:
    the window filter excludes it again. *)
Theorem admin_path_ignored_and_excluded :
  forall (p : string) (env : Env) (req : Request) (db : list Event),
    b_path (bodyOf req) = JStr p ->
    StartsWith p "/admin" \/ Contains p "admin-" ->
    track env req db = (Ignored, db)
    /\ forall (e : Event) (t t' : Z) (q : option string) (l1 l2 : list Event),
         path e = JStr p ->
         summary t q (l1 ++ e :: l2)%list = summary t q (l1 ++ l2)%list
         /\ timeseries t t' q (l1 ++ e :: l2)%list
            = timeseries t t' q (l1 ++ l2)%list
         /\ topPages t q (l1 ++ e :: l2)%list = topPages t q (l1 ++ l2)%list
         /\ ~ In (JStr p) (map fst (topPages t q (l1 ++ e :: l2)%list)).
Proof.
  intros p env req db Hp Hadm.
  destruct (isAdminPath_of_spec p Hadm) as [Ha Ht].
  split.
  - unfold track. rewrite finalPath_truthy by (now rewrite Hp).
    now rewrite Hp, Ha.
  - intros e t t' q l1 l2 He.
    assert (D : filterEvents t (periodOf q) (l1 ++ e :: l2)%list
                = filterEvents t (periodOf q) (l1 ++ l2)%list).
    { apply filterEvents_drop. left. now rewrite He. }
    unfold summary, timeseries, topPages. rewrite D.
    repeat split.
    fold (topPages t q (l1 ++ l2)%list). intros Hin.
    apply topPages_paths in Hin as (e' & He' & Hpath).
    apply filterEvents_not_admin in He'. congruence.
Qed.

(** C3.  An event older than [now] minus the window of the period has
    no influence on summary, timeseries, top-pages, sources and
    devices.  The realtime feed does not look at the window: it is the
    rows of the last twenty stored events, the newest first, so an old
    event with fewer than twenty events after it is still listed, and
    every row carries the unknown mark as location and as duration. *)
Theorem window_excludes_old_events_realtime_does_not :
  forall (t t' w : Z) (q : option string) (e : Event) (l1 l2 : list Event),
    windowMs (periodOf q) = Some w ->
    (ts e < t - w)%Z ->
    let log := (l1 ++ e :: l2)%list in
    summary t q log = summary t q (l1 ++ l2)%list
    /\ timeseries t t' q log = timeseries t t' q (l1 ++ l2)%list
    /\ topPages t q log = topPages t q (l1 ++ l2)%list
    /\ sources t q log = sources t q (l1 ++ l2)%list
    /\ devices t q log = devices t q (l1 ++ l2)%list
    /\ realtime log = map rowOf (firstn 20 (rev log))
    /\ List.length (realtime log) = Nat.min 20 (List.length log)
    /\ (List.length l2 < 20 -> In (rowOf e) (realtime log))
    /\ (forall r, In r (realtime log) ->
          location r = unknownMark /\ duration r = unknownMark).
Proof.
  intros t t' w q e l1 l2 Hw Hold log.
  assert (D : filterEvents t (periodOf q) log
              = filterEvents t (periodOf q) (l1 ++ l2)%list).
  { apply filterEvents_drop. right. intros w' Hw'.
    rewrite Hw in Hw'. injection Hw' as <-. exact Hold. }
  assert (R : realtime log = map rowOf (firstn 20 (rev log))).
  { unfold realtime. now rewrite recent_slice. }
  unfold summary, timeseries, topPages, sources, devices. rewrite D.
  repeat split; try exact R.
  - rewrite R, length_map, length_firstn, length_rev. reflexivity.
  - intros Hl. rewrite R. apply in_map.
    unfold log. rewrite rev_app_distr.
    change (rev (e :: l2)) with (rev l2 ++ [e])%list.
    rewrite <- app_assoc, firstn_app.
    apply in_or_app. right.
    rewrite length_rev.
    replace (20 - List.length l2) with (S (19 - List.length l2)) by lia.
    change ([e] ++ rev l1)%list with (e :: rev l1).
    rewrite firstn_cons. now left.
  - rewrite R in H. apply in_map_iff in H as (e' & <- & _). reflexivity.
  - rewrite R in H. apply in_map_iff in H as (e' & <- & _). reflexivity.
Qed.

(** C7.  The sources query puts every referrer in one of the four
    classes, by the first rule that applies: a falsy referrer, the
    empty string in particular, is Direct; a referrer that parses as a
    URL whose hostname contains [google] is Search; otherwise one whose
    hostname contains [facebook], [twitter] or [instagram] is Social;
    any other URL is Referral, and so is a string that does not parse.
    On a host that parses the first example with hostname
    [www.google.com] and rejects the second, the two examples are
    Search and Referral. *)
Theorem referrer_classification :
  urlHostname "https://www.google.com/search?q=x" = Some "www.google.com" ->
  urlHostname "not a url" = None ->
  sourceOf (JStr "") = Direct
  /\ (forall r, truthy r = false -> sourceOf r = Direct)
  /\ (forall r h, truthy r = true -> urlHostname (toString r) = Some h ->
        Contains h "google" -> sourceOf r = Search)
  /\ (forall r h, truthy r = true -> urlHostname (toString r) = Some h ->
        ~ Contains h "google" ->
        Contains h "facebook" \/ Contains h "twitter"
        \/ Contains h "instagram" ->
        sourceOf r = Social)
  /\ (forall r h, truthy r = true -> urlHostname (toString r) = Some h ->
        ~ Contains h "google" -> ~ Contains h "facebook" ->
        ~ Contains h "twitter" -> ~ Contains h "instagram" ->
        sourceOf r = Referral)
  /\ (forall r, truthy r = true -> urlHostname (toString r) = None ->
        sourceOf r = Referral)
  /\ sourceOf (JStr "https://www.google.com/search?q=x") = Search
  /\ sourceOf (JStr "not a url") = Referral.
Proof.
  intros HG HN.
  assert (Yes : forall h n, Contains h n -> includes h n = true).
  { intros h n (pre & post & ->). apply includes_app. }
  assert (No : forall h n, ~ Contains h n -> includes h n = false).
  { intros h n H. destruct (includes h n) eqn:E; [|reflexivity].
    exfalso. apply H. now apply includes_inv. }
  repeat split.
  - intros r Hr. unfold sourceOf. now rewrite Hr.
  - intros r h Hr Hh Hg. unfold sourceOf. now rewrite Hr, Hh, (Yes _ _ Hg).
  - intros r h Hr Hh Hg Hs. unfold sourceOf.
    rewrite Hr, Hh, (No _ _ Hg). simpl.
    destruct Hs as [Hs|[Hs|Hs]]; rewrite (Yes _ _ Hs);
      now rewrite ?orb_true_r.
  - intros r h Hr Hh Hg Hf Ht Hi. unfold sourceOf.
    now rewrite Hr, Hh, (No _ _ Hg), (No _ _ Hf), (No _ _ Ht), (No _ _ Hi).
  - intros r Hr Hh. unfold sourceOf. now rewrite Hr, Hh.
  - unfold sourceOf. cbn [truthy toString String.eqb Ascii.eqb negb].
    simpl negb. now rewrite HG.
  - unfold sourceOf. simpl negb. cbn [toString]. now rewrite HN.
Qed.

(** C9.  For an event whose device string matches [Tablet] or [iPad]
    and none of [Mobile], [Android], [iPhone] (letter case aside), the
    devices query classifies it as Tablet while the realtime feed
    reports it as Desktop; and no row of the realtime feed is ever
    Tablet. *)
Theorem realtime_never_reports_tablet :
  forall (e : Event) (s : string),
    device e = JStr s ->
    MatchesAnyCase tabletPattern s ->
    ~ MatchesAnyCase mobilePattern s ->
    deviceOf (device e) = Tablet
    /\ r_device (rowOf e) = Desktop
    /\ forall e' : Event, r_device (rowOf e') <> Tablet.
Proof.
  intros e s Hd Ht Hm.
  apply regexTestI_spec in Ht.
  assert (Hm' : regexTestI mobilePattern s = false).
  { destruct (regexTestI mobilePattern s) eqn:E; [|reflexivity].
    exfalso. apply Hm. now apply regexTestI_spec. }
  repeat split.
  - unfold deviceOf. rewrite Hd. cbn [withDefault toString].
    now rewrite Hm', Ht.
  - unfold rowOf. cbv [r_device]. rewrite Hd, jsor_string_default.
    now rewrite Hm'.
  - intros e'. unfold rowOf. cbv [r_device].
    destruct (regexTestI mobilePattern
                (toString (jsor (device e') (JStr "")))); discriminate.
Qed.

(** C10.  When the body of a tracking request has no [path] member, the
    stored event's path is [/] whatever [page] is: the destructuring
    default fills an undefined path before the fallback chain is
    evaluated.  A truthy path is taken as it is.  The chain reaches
    [page] only for a path that is present and falsy, which null and
    the empty string are (and, among JSON scalars, false and 0). *)
Theorem path_default_precedes_page_fallback :
  forall (env : Env) (req : Request) (db : list Event),
    readOk env = true -> writeOk env = true ->
    let b := bodyOf req in
    (b_path b = JUndefined ->
       finalPath b = JStr "/"
       /\ exists e, track env req db = (Tracked (uuid1 env), (db ++ [e])%list)
                    /\ path e = JStr "/")
    /\ (truthy (b_path b) = true -> finalPath b = b_path b)
    /\ (b_path b <> JUndefined -> truthy (b_path b) = false ->
          finalPath b = jsor (b_page b) (JStr "/"))
    /\ (b_path b = JNull \/ b_path b = JStr "" ->
          finalPath b = jsor (b_page b) (JStr "/"))
    /\ (isAdminPath (finalPath b) = false ->
          exists e, track env req db = (Tracked (uuid1 env), (db ++ [e])%list)
                    /\ path e = finalPath b).
Proof.
  intros env req db Hr Hw b. repeat split.
  - now apply finalPath_undefined.
  - exists (eventOf env req b). split.
    + apply track_stores; try assumption.
      fold b. now rewrite finalPath_undefined.
    + cbn [eventOf path]. now apply finalPath_undefined.
  - apply finalPath_truthy.
  - apply finalPath_falsy.
  - intros [H|H]; apply finalPath_falsy; rewrite H; (discriminate || reflexivity).
  - intros Ha. exists (eventOf env req b). split; [|reflexivity].
    now apply track_stores.
Qed.

End AnalyticsClaims.

(* ================================================================= *)
(** * Facts about the media catalog *)

Section MediaFacts.
Import JS Spec Media.
Local Open Scope string_scope.

Lemma findIndex_none {A : Type} (p : A -> bool) (l : list A) :
  (forall x, In x l -> p x = false) -> findIndex p l = None.
Proof.
  induction l as [|x l IH]; simpl; intros H; [reflexivity|].
  rewrite (H x) by now left. rewrite IH; [reflexivity|].
  intros y Hy. apply H. now right.
Qed.

Lemma findIndex_first {A : Type} (p : A -> bool) (l1 l2 : list A) (x : A) :
  (forall y, In y l1 -> p y = false) -> p x = true ->
  findIndex p (l1 ++ x :: l2)%list = Some (List.length l1).
Proof.
  induction l1 as [|y l1 IH]; simpl; intros H Hx.
  - now rewrite Hx.
  - rewrite (H y) by now left. rewrite IH; [reflexivity| |assumption].
    intros z Hz. apply H. now right.
Qed.

Lemma findIndex_some {A : Type} (p : A -> bool) (l : list A) (i : nat) :
  findIndex p l = Some i ->
  exists l1 x l2, l = (l1 ++ x :: l2)%list /\ List.length l1 = i
                  /\ p x = true /\ forall y, In y l1 -> p y = false.
Proof.
  revert i; induction l as [|a l IH]; simpl; intros i H; [discriminate|].
  destruct (p a) eqn:Ea.
  - injection H as <-. exists [], a, l. repeat split; [assumption|].
    intros y [].
  - destruct (findIndex p l) as [j|]; [|discriminate].
    injection H as <-. destruct (IH j eq_refl) as (l1 & x & l2 & -> & <- & Hx & Hl).
    exists (a :: l1), x, l2. repeat split; [assumption|].
    intros y [<-|Hy]; [assumption|now apply Hl].
Qed.

Lemma splice1_middle {A : Type} (l1 l2 : list A) (x : A) :
  splice1 (List.length l1) (l1 ++ x :: l2)%list = (l1 ++ l2)%list.
Proof.
  unfold splice1. rewrite firstn_app, Nat.sub_diag, firstn_all. simpl.
  rewrite app_nil_r. f_equal.
  induction l1 as [|y l1 IH]; [reflexivity|exact IH].
Qed.

Lemma nth_error_middle {A : Type} (l1 l2 : list A) (x : A) :
  nth_error (l1 ++ x :: l2)%list (List.length l1) = Some x.
Proof. induction l1 as [|y l1 IH]; [reflexivity|exact IH]. Qed.

(** Deleting the id of a record that no earlier record shares. *)
Lemma deleteMedia_present (l1 l2 : list MediaRecord) (x : MediaRecord)
    (fs : list string) (w : nat) :
  ~ In (id x) (map id l1) ->
  deleteMedia (id x) (mkState (l1 ++ x :: l2)%list fs w)
  = (Deleted, mkState (l1 ++ l2)%list (fsRemove (storedName x) fs) (S w)).
Proof.
  intros Hx. unfold deleteMedia. cbn [catalog files writes].
  rewrite (findIndex_first _ l1 l2 x).
  - now rewrite nth_error_middle, splice1_middle.
  - intros y Hy. apply String.eqb_neq. intros E. apply Hx.
    rewrite <- E. now apply in_map.
  - apply String.eqb_refl.
Qed.

Lemma deleteMedia_absent (rid : string) (st : State) :
  ~ In rid (map id (catalog st)) -> deleteMedia rid st = (NotFound, st).
Proof.
  intros H. unfold deleteMedia. rewrite findIndex_none; [reflexivity|].
  intros x Hx. apply String.eqb_neq. intros E. apply H.
  rewrite <- E. now apply in_map.
Qed.

Lemma fsRemove_absent (n : string) (fs : list string) :
  ~ In n fs -> fsRemove n fs = fs.
Proof.
  induction fs as [|x fs IH]; simpl; intros H; [reflexivity|].
  destruct (String.eqb_spec n x) as [->|_]; [tauto|].
  simpl. f_equal. apply IH. tauto.
Qed.

Lemma fsRemove_gone (n : string) (fs : list string) :
  ~ In n (fsRemove n fs).
Proof.
  unfold fsRemove. rewrite filter_In. intros [_ H].
  now rewrite String.eqb_refl in H.
Qed.
End MediaFacts.

(* ================================================================= *)
(** * Properties of the media catalog *)

Section MediaClaims.
Import JS Spec Media.
Local Open Scope string_scope.

(** C4.  Deleting an id that no record of the catalog carries answers
    404 and leaves the whole state as it was: the catalog keeps every
    record and [media.json] is not rewritten.  The handler is not
    idempotent, for after a successful delete in a catalog of distinct
    ids the same request is answered 404; removing a file is, for it
    succeeds on an absent file and changes nothing. *)
Theorem delete_unknown_id_not_found :
  forall (rid : string) (st : State),
    ~ In rid (map id (catalog st)) ->
    deleteMedia rid st = (NotFound, st)
    /\ (forall st1 st2, NoDup (map id (catalog st1)) ->
          deleteMedia rid st1 = (Deleted, st2) ->
          deleteMedia rid st2 = (NotFound, st2))
    /\ (forall n fs, ~ In n fs -> fsRemove n fs = fs)
    /\ (forall n fs, fsRemove n (fsRemove n fs) = fsRemove n fs).
Proof.
  intros rid st Hout. split; [now apply deleteMedia_absent|].
  split; [|split].
  - intros st1 st2 Hnd Hdel. unfold deleteMedia in Hdel.
    destruct (findIndex _ (catalog st1)) as [i|] eqn:Ei; [|discriminate].
    apply findIndex_some in Ei as (l1 & x & l2 & Hc & <- & Hx & Hl).
    rewrite Hc, nth_error_middle, splice1_middle in Hdel.
    injection Hdel as <-. apply deleteMedia_absent. cbn [catalog].
    apply String.eqb_eq in Hx. subst rid.
    rewrite Hc, map_app in Hnd. simpl in Hnd.
    apply NoDup_remove_2 in Hnd. now rewrite map_app.
  - apply fsRemove_absent.
  - intros n fs. apply fsRemove_absent, fsRemove_gone.
Qed.

(** C5.  In a catalog of three records A, B, C with distinct ids,
    deleting B's id leaves the catalog A, C.  In general the first
    record with the requested id is the one removed, and the records
    before and after it stay, in their order. *)
Theorem delete_removes_exactly_one :
  forall (A B C : MediaRecord) (fs : list string) (w : nat),
    id A <> id B -> id B <> id C -> id A <> id C ->
    deleteMedia (id B) (mkState [A; B; C] fs w)
    = (Deleted, mkState [A; C] (fsRemove (storedName B) fs) (S w))
    /\ forall (l1 l2 : list MediaRecord) (x : MediaRecord),
         ~ In (id x) (map id l1) ->
         deleteMedia (id x) (mkState (l1 ++ x :: l2)%list fs w)
         = (Deleted,
            mkState (l1 ++ l2)%list (fsRemove (storedName x) fs) (S w)).
Proof.
  intros A B C fs w HAB HBC HAC. split.
  - apply (deleteMedia_present [A] [C] B). simpl. intros [E|[]]. congruence.
  - intros l1 l2 x. apply deleteMedia_present.
Qed.

End MediaClaims.

(* ================================================================= *)
(** * Facts about stored names *)

Section NameFacts.
Import JS Spec Media.
Local Open Scope string_scope.

Lemma allUnits_app (P : ascii -> bool) (a b : string) :
  allUnits P (a ++ b) = allUnits P a && allUnits P b.
Proof.
  induction a as [|c a IH]; simpl; [reflexivity|].
  now rewrite IH, andb_assoc.
Qed.

Lemma allUnits_weaken (P Q : ascii -> bool) (s : string) :
  (forall c, P c = true -> Q c = true) ->
  allUnits P s = true -> allUnits Q s = true.
Proof.
  intros H. induction s as [|c s IH]; simpl; [reflexivity|].
  intros E. apply andb_true_iff in E as [Ec Es].
  now rewrite (H _ Ec), IH.
Qed.

Lemma string_of_uint_digits (d : Decimal.uint) :
  allUnits isDigit (NilEmpty.string_of_uint d) = true.
Proof. induction d; simpl; try reflexivity; exact IHd. Qed.

Lemma decimalN_digits (n : N) : allUnits isDigit (decimalN n) = true.
Proof. apply string_of_uint_digits. Qed.





Lemma isSafeUnit_spec (c : ascii) : isSafeUnit c = true <-> SafeUnit c.
Proof.
  assert (E : isSafeUnit c
              = existsb (Ascii.eqb c) (list_ascii_of_string safeAlphabet)).
  { destruct c as [[] [] [] [] [] [] [] []]; vm_compute; reflexivity. }
  rewrite E, existsb_exists. unfold SafeUnit. split.
  - intros (x & Hx & Hc). apply Ascii.eqb_eq in Hc. now subst.
  - intros H. exists c. split; [assumption|apply Ascii.eqb_refl].
Qed.


Lemma safeName_notSlash (s : string) : allUnits notSlash (safeName s) = true.
Proof.
  induction s as [|c s IH]; simpl; [reflexivity|]. rewrite IH, andb_true_r.
  destruct (isSafeUnit c) eqn:E; [|reflexivity].
  unfold notSlash. destruct (Ascii.eqb_spec c "/") as [->|_];
    [discriminate E|reflexivity].
Qed.

Lemma components_notSlash (s cur : string) :
  allUnits notSlash s = true -> components s cur = [cur ++ s].
Proof.
  revert cur; induction s as [|c s IH]; intros cur H; simpl in *.
  - f_equal. induction cur as [|d cur IHc]; simpl; [|rewrite <- IHc];
      reflexivity.
  - apply andb_true_iff in H as [Hc Hs]. unfold notSlash in Hc.
    apply negb_true_iff in Hc. rewrite Hc, IH by assumption.
    f_equal. induction cur as [|d cur IHc]; simpl; [|rewrite IHc];
      reflexivity.
Qed.

Lemma basename_notSlash (s : string) :
  allUnits notSlash s = true -> basename s = s.
Proof.
  intros H. unfold basename. rewrite components_notSlash by assumption.
  simpl. destruct s; reflexivity.
Qed.

Lemma uniqueName_notSlash (n r : N) (s : string) :
  allUnits notSlash (uniqueName n r s) = true.
Proof.
  assert (D : forall m, allUnits notSlash (decimalN m) = true).
  { intros m. apply (allUnits_weaken isDigit); [|apply decimalN_digits].
    intros c Hc. unfold isDigit in Hc. unfold notSlash.
    destruct (Ascii.eqb_spec c "/") as [->|_]; [discriminate Hc|reflexivity]. }
  unfold uniqueName. rewrite !allUnits_app, !D, safeName_notSlash.
  reflexivity.
Qed.

Lemma storedName_recordOf (d : Draw) (u : Upload) :
  storedName (recordOf d (storeFile d u))
  = uniqueName (nowMs d) (rand d) (up_originalname u).
Proof. apply basename_notSlash, uniqueName_notSlash. Qed.
End NameFacts.

(* ================================================================= *)
(** * Properties of uploads *)

Section UploadClaims.
Import JS Spec Media.
Local Open Scope string_scope.



End UploadClaims.

(* ================================================================= *)
(** * Facts about binary64 arithmetic *)

Section Binary64Facts.
Import Binary64.
Local Open Scope Q_scope.

Lemma p2_pos (e : Z) : 0 < p2 e.
Proof. apply Qpower_0_lt. reflexivity. Qed.

Lemma p2_add (a b : Z) : p2 (a + b) == p2 a * p2 b.
Proof. apply Qpower_plus. discriminate. Qed.

Lemma p2_succ (e : Z) : p2 (e + 1) == 2 * p2 e.
Proof. rewrite p2_add. unfold p2 at 2. rewrite Qpower_1_r. ring. Qed.

Lemma p2_nonneg (n : Z) : (0 <= n)%Z -> p2 n == inject_Z (2 ^ n).
Proof. intros H. unfold p2. now rewrite Zpower_Qpower. Qed.

Lemma p2_neg (n : Z) : (0 <= n)%Z -> p2 (- n) * inject_Z (2 ^ n) == 1.
Proof.
  intros H. unfold p2. rewrite Qpower_opp, Zpower_Qpower by assumption.
  change (inject_Z 2) with 2. field.
  apply Qpower_not_0. discriminate.
Qed.

Lemma inject_Z_xO (p : positive) : inject_Z (Z.pos p~0) == 2 * inject_Z (Z.pos p).
Proof. rewrite Pos2Z.inj_xO, inject_Z_mult. reflexivity. Qed.

Lemma inject_Z_xI (p : positive) :
  inject_Z (Z.pos p~1) == 2 * inject_Z (Z.pos p) + 1.
Proof. rewrite Pos2Z.inj_xI, inject_Z_plus, inject_Z_mult. reflexivity. Qed.

Lemma shr_1_located (x : Q) (m : Z) (P : Q) (r s : bool) :
  (0 <= m)%Z -> 0 < P -> located x m P r s ->
  let mrs := shr_1 (Build_shr_record m r s) in
  located x (shr_m mrs) (2 * P) (shr_r mrs) (shr_s mrs).
Proof.
  intros Hm HP H.
  destruct m as [|p|p]; [| |lia].
  - destruct r, s; simpl in *; change (inject_Z 0) with 0 in *; lra.
  - destruct p as [p|p|]; destruct r, s; simpl in *;
      rewrite ?inject_Z_xO, ?inject_Z_xI in H;
      change (inject_Z 0) with 0; change (inject_Z 1) with 1 in *; lra.
Qed.

Lemma digits_bounds (p : positive) :
  (2 ^ (Z.pos (digits2_pos p) - 1) <= Z.pos p < 2 ^ Z.pos (digits2_pos p))%Z.
Proof.
  induction p as [p IH|p IH|]; simpl digits2_pos.
  - rewrite Pos2Z.inj_succ.
    replace (Z.succ (Z.pos (digits2_pos p)) - 1)%Z
      with (Z.succ (Z.pos (digits2_pos p) - 1)) by lia.
    rewrite !Z.pow_succ_r by lia. lia.
  - rewrite Pos2Z.inj_succ.
    replace (Z.succ (Z.pos (digits2_pos p)) - 1)%Z
      with (Z.succ (Z.pos (digits2_pos p) - 1)) by lia.
    rewrite !Z.pow_succ_r by lia. lia.
  - simpl. lia.
Qed.

Lemma digits_unique (p : positive) (k : Z) :
  (2 ^ (k - 1) <= Z.pos p < 2 ^ k)%Z -> Z.pos (digits2_pos p) = k.
Proof.
  intros [Hlo Hhi]. destruct (digits_bounds p) as [Dlo Dhi].
  set (d := Z.pos (digits2_pos p)) in *.
  assert (Hk : (0 < k)%Z).
  { destruct (Z.lt_trichotomy k 0) as [N|[N|N]]; [|subst k; simpl in *; lia|lia].
    rewrite Z.pow_neg_r in Hhi by lia. lia. }
  destruct (Z.lt_trichotomy d k) as [L|[E|G]]; [|exact E|].
  - assert (2 ^ d <= 2 ^ (k - 1))%Z by (apply Z.pow_le_mono_r; lia). lia.
  - assert (2 ^ k <= 2 ^ (d - 1))%Z by (apply Z.pow_le_mono_r; lia). lia.
Qed.

Lemma shr_1_digits (p : positive) (r s : bool) :
  (2 <= Z.pos (digits2_pos p))%Z ->
  exists p', shr_m (shr_1 (Build_shr_record (Z.pos p) r s)) = Z.pos p'
             /\ Z.pos (digits2_pos p') = (Z.pos (digits2_pos p) - 1)%Z.
Proof.
  intros H.
  destruct p as [p|p|]; cbn [digits2_pos shr_1 shr_m orb] in *;
    [exists p|exists p|lia]; (split; [reflexivity|lia]).
Qed.

Lemma iter_pos_nat {A : Type} (f : A -> A) (p : positive) (x : A) :
  iter_pos f p x = Nat.iter (Pos.to_nat p) f x.
Proof.
  revert x; induction p as [p IH|p IH|]; intros x; cbn [iter_pos].
  - rewrite !IH, Pos2Nat.inj_xI.
    replace (S (2 * Pos.to_nat p)) with (Pos.to_nat p + S (Pos.to_nat p))%nat
      by lia.
    rewrite Nat.iter_add. f_equal. now rewrite Nat.iter_succ_r.
  - rewrite !IH, Pos2Nat.inj_xO.
    replace (2 * Pos.to_nat p)%nat with (Pos.to_nat p + Pos.to_nat p)%nat
      by lia.
    now rewrite Nat.iter_add.
  - reflexivity.
Qed.

(** [n] shifts divide the unit's weight by [2 ^ n] and keep the
    location of [x]. *)
Lemma shr_iter (x : Q) (n : nat) :
  forall (p : positive) (r s : bool) (P : Q),
    (Z.of_nat n < Z.pos (digits2_pos p))%Z -> 0 < P ->
    located x (Z.pos p) P r s ->
    exists p' r' s',
      Nat.iter n shr_1 (Build_shr_record (Z.pos p) r s)
      = Build_shr_record (Z.pos p') r' s'
      /\ Z.pos (digits2_pos p') = (Z.pos (digits2_pos p) - Z.of_nat n)%Z
      /\ located x (Z.pos p') (inject_Z (2 ^ Z.of_nat n) * P) r' s'.
Proof.
  induction n as [|n IH]; intros p r s P Hn HP H.
  - exists p, r, s. split; [reflexivity|]. split; [lia|].
    change (inject_Z (2 ^ Z.of_nat 0)) with 1.
    destruct r, s; unfold located in *; lra.
  - destruct (IH p r s P ltac:(lia) HP H) as (p1 & r1 & s1 & E & D & L).
    simpl Nat.iter. rewrite E.
    destruct (shr_1_digits p1 r1 s1 ltac:(lia)) as (p2' & M & D2).
    assert (HW : 0 < inject_Z (2 ^ Z.of_nat n) * P).
    { apply Qmult_lt_0_compat; [|exact HP].
      change 0 with (inject_Z 0). rewrite <- Zlt_Qlt.
      apply Z.pow_pos_nonneg; lia. }
    assert (L2 := shr_1_located x (Z.pos p1) _ r1 s1 ltac:(lia) HW L).
    cbv zeta in L2.
    destruct (shr_1 (Build_shr_record (Z.pos p1) r1 s1)) as [m2 r2 s2] eqn:E2.
    simpl in M, L2. subst m2.
    exists p2', r2, s2. split; [reflexivity|]. split; [lia|].
    rewrite Nat2Z.inj_succ, Z.pow_succ_r, inject_Z_mult by lia.
    change (inject_Z 2) with 2.
    destruct r2, s2; unfold located in *; lra.
Qed.

Lemma fexp_normal (e : Z) : (-1021 <= e)%Z -> fexp 53 1024 e = (e - 53)%Z.
Proof. intros H. unfold fexp, emin. lia. Qed.

Lemma shr_nonneg (mrs : shr_record) (e n : Z) :
  (0 <= n)%Z -> shr mrs e n = (Nat.iter (Z.to_nat n) shr_1 mrs, (e + n)%Z).
Proof.
  intros H. destruct n as [|q|q]; [| |lia]; cbn [shr].
  - now rewrite Z.add_0_r.
  - now rewrite iter_pos_nat.
Qed.

Lemma shr_record_of_loc_eta (m : Z) (l : location) :
  shr_record_of_loc m l
  = Build_shr_record m (shr_r (shr_record_of_loc m l))
                     (shr_s (shr_record_of_loc m l)).
Proof. destruct l as [|[| |]]; reflexivity. Qed.

(** A mantissa of 53 digits, or the 54-digit [2 ^ 53] a rounding may
    produce, is brought back to 53 digits without loss. *)
Lemma shr_fexp_canonical (m e : Z) :
  (2 ^ 52 <= m <= 2 ^ 53)%Z -> (-1074 <= e)%Z ->
  exists q e3,
    shr_fexp 53 1024 m e loc_Exact = (Build_shr_record (Z.pos q) false false, e3)
    /\ Z.pos (digits2_pos q) = 53%Z
    /\ (e <= e3 <= e + 1)%Z
    /\ inject_Z (Z.pos q) * p2 e3 == inject_Z m * p2 e.
Proof.
  intros Hm He. destruct m as [|p|p]; try lia.
  destruct (Z.eq_dec (Z.pos p) (2 ^ 53)) as [E|N].
  - injection E as ->. exists (2 ^ 52)%positive, (e + 1)%Z.
    split; [|split; [reflexivity|split; [lia|]]].
    + unfold shr_fexp. cbn [Zdigits2].
      change (Z.pos (digits2_pos 9007199254740992)) with 54%Z.
      rewrite fexp_normal by lia.
      replace (54 + e - 53 - e)%Z with 1%Z by lia. reflexivity.
    + rewrite p2_succ.
      change (inject_Z (Z.pos (2 ^ 52))) with (4503599627370496 # 1).
      change (inject_Z (Z.pos 9007199254740992)) with (9007199254740992 # 1).
      ring.
  - assert (D : Z.pos (digits2_pos p) = 53%Z) by (apply digits_unique; lia).
    exists p, e. split; [|split; [exact D|split; [lia|reflexivity]]].
    unfold shr_fexp. cbn [Zdigits2]. rewrite D, fexp_normal by lia.
    replace (53 + e - 53 - e)%Z with 0%Z by lia. reflexivity.
Qed.

(** Rounding to nearest even of a mantissa of 53 digits. *)
Lemma round_nearest_even_located (x : Q) (p : positive) (P : Q) (r s : bool) :
  Z.pos (digits2_pos p) = 53%Z -> 0 < P ->
  located x (Z.pos p) P r s ->
  let m := round_nearest_even (Z.pos p)
             (loc_of_shr_record (Build_shr_record (Z.pos p) r s)) in
  (2 ^ 52 <= m <= 2 ^ 53)%Z
  /\ - (P * (1 # 2)) <= inject_Z m * P - x
  /\ inject_Z m * P - x <= P * (1 # 2).
Proof.
  intros D HP L m.
  assert (B := digits_bounds p). rewrite D in B.
  change (53 - 1)%Z with 52%Z in B.
  assert (M : m = Z.pos p \/ m = (Z.pos p + 1)%Z).
  { unfold m. destruct r, s; cbn [loc_of_shr_record round_nearest_even];
      try tauto. destruct (Z.even (Z.pos p)); tauto. }
  split; [lia|].
  unfold m in *. clear m.
  destruct r, s; cbn [loc_of_shr_record round_nearest_even] in *;
    unfold located in L.
  - rewrite inject_Z_plus. change (inject_Z 1) with 1. lra.
  - destruct (Z.even (Z.pos p));
      rewrite ?inject_Z_plus; change (inject_Z 1) with 1; lra.
  - lra.
  - lra.
Qed.

Lemma round_aux_correct (sx : bool) (p : positive) (ex : Z) (lx : location)
    (x : Q) :
  let d := Z.pos (digits2_pos p) in
  (53 <= d)%Z -> (-1000 <= ex)%Z -> (ex + d <= 1000)%Z ->
  located x (Z.pos p) (p2 ex)
          (shr_r (shr_record_of_loc (Z.pos p) lx))
          (shr_s (shr_record_of_loc (Z.pos p) lx)) ->
  exists m e,
    binary_round_aux 53 1024 sx (Z.pos p) ex lx = S754_finite sx m e
    /\ Z.pos (digits2_pos m) = 53%Z
    /\ (ex + d - 53 <= e <= ex + d - 52)%Z
    /\ - (p2 e * (1 # 2)) <= inject_Z (Z.pos m) * p2 e - x
    /\ inject_Z (Z.pos m) * p2 e - x <= p2 e * (1 # 2).
Proof.
  intros d Hd Hlo Hhi L.
  unfold binary_round_aux, shr_fexp at 1. cbn [Zdigits2]. fold d.
  rewrite fexp_normal by lia.
  rewrite shr_nonneg by lia.
  rewrite shr_record_of_loc_eta.
  set (n := Z.to_nat (d + ex - 53 - ex)).
  destruct (shr_iter x n p _ _ (p2 ex) ltac:(unfold n; fold d; lia)
              (p2_pos ex) L) as (p1 & r1 & s1 & E & D1 & L1).
  rewrite E. cbn [shr_m].
  set (e1 := (ex + (d + ex - 53 - ex))%Z).
  assert (W : inject_Z (2 ^ Z.of_nat n) * p2 ex == p2 e1).
  { unfold e1. rewrite p2_add, (p2_nonneg (d + ex - 53 - ex)) by lia.
    unfold n. rewrite Z2Nat.id by lia. ring. }
  assert (L1' : located x (Z.pos p1) (p2 e1) r1 s1).
  { destruct r1, s1; unfold located in *; rewrite <- W; exact L1. }
  assert (D53 : Z.pos (digits2_pos p1) = 53%Z) by (unfold n in D1; fold d in D1; lia).
  destruct (round_nearest_even_located x p1 (p2 e1) r1 s1 D53 (p2_pos e1) L1')
    as (Bm & Rlo & Rhi).
  set (m2 := round_nearest_even (Z.pos p1)
               (loc_of_shr_record (Build_shr_record (Z.pos p1) r1 s1))) in *.
  destruct (shr_fexp_canonical m2 e1 Bm ltac:(unfold e1; lia))
    as (q & e3 & E3 & Dq & He3 & V).
  rewrite E3. cbn [shr_m].
  assert (Hle : (e3 <=? 1024 - 53)%Z = true) by (apply Z.leb_le; unfold e1 in *; lia).
  rewrite Hle.
  exists q, e3. split; [reflexivity|]. split; [exact Dq|].
  split; [unfold e1 in He3; lia|].
  assert (Pm : p2 e1 <= p2 e3).
  { apply Qpower_le_compat_l; [lia|]. discriminate. }
  rewrite V. split; lra.
Qed.

(** A canonical mantissa with an exact location is left as it is. *)
Lemma round_aux_canonical (sx : bool) (p : positive) (e : Z) :
  Z.pos (digits2_pos p) = 53%Z -> (-1000 <= e <= 900)%Z ->
  binary_round_aux 53 1024 sx (Z.pos p) e loc_Exact = S754_finite sx p e.
Proof.
  intros D He.
  assert (S : shr_fexp 53 1024 (Z.pos p) e loc_Exact
              = (Build_shr_record (Z.pos p) false false, e)).
  { unfold shr_fexp. cbn [Zdigits2]. rewrite D, fexp_normal by lia.
    replace (53 + e - 53 - e)%Z with 0%Z by lia. reflexivity. }
  unfold binary_round_aux. rewrite S.
  cbn [shr_m loc_of_shr_record round_nearest_even]. rewrite S. cbn [shr_m].
  replace (e <=? 1024 - 53)%Z with true by (symmetry; apply Z.leb_le; lia).
  reflexivity.
Qed.

Lemma iter_xO (p : positive) (k : positive) :
  Z.pos (Pos.iter xO p k) = (Z.pos p * 2 ^ Z.pos k)%Z
  /\ Z.pos (digits2_pos (Pos.iter xO p k))
     = (Z.pos (digits2_pos p) + Z.pos k)%Z.
Proof.
  induction k as [|k IH] using Pos.peano_ind.
  - simpl. split; lia.
  - rewrite Pos.iter_succ. destruct IH as [V D]. cbn [digits2_pos].
    rewrite Pos2Z.inj_succ, Z.pow_succ_r by lia. split; lia.
Qed.

(** An integer below [2 ^ 53] is a double. *)
Lemma ofZ_exact (n : Z) :
  (0 < n < 2 ^ 53)%Z ->
  exists m e,
    Binary64.ofZ n = S754_finite false m e
    /\ Z.pos (digits2_pos m) = 53%Z
    /\ (-52 <= e <= 0)%Z
    /\ inject_Z (Z.pos m) * p2 e == inject_Z n.
Proof.
  intros Hn. destruct n as [|p|p]; try lia.
  assert (B := digits_bounds p).
  set (d := Z.pos (digits2_pos p)) in *.
  assert (Hd : (1 <= d <= 53)%Z).
  { split; [unfold d; lia|].
    destruct (Z.le_gt_cases d 53) as [L|G]; [exact L|].
    assert (2 ^ 53 <= 2 ^ (d - 1))%Z by (apply Z.pow_le_mono_r; lia). lia. }
  unfold Binary64.ofZ, binary_normalize, binary_round, shl_align.
  fold d. rewrite fexp_normal by lia.
  destruct (Z.eq_dec d 53) as [E|N].
  - rewrite E. cbn [Z.add Z.sub Z.opp Z.pos_sub Pos.compare_cont Z.succ_double
                      Z.pred_double Z.double].
    exists p, 0%Z. split; [|split; [exact E|split; [lia|]]].
    + simpl. apply round_aux_canonical; [exact E|lia].
    + unfold p2. rewrite Qpower_0_r. ring.
  - destruct (d + 0 - 53 - 0)%Z as [|k|k] eqn:Ek; try lia.
    destruct (iter_xO p k) as [V D].
    exists (Pos.iter xO p k), (d + 0 - 53)%Z.
    split; [|split; [|split; [lia|]]].
    + apply round_aux_canonical; [|lia]. rewrite D. fold d. lia.
    + rewrite D. fold d. lia.
    + rewrite V, inject_Z_mult.
      replace (d + 0 - 53)%Z with (- Z.pos k)%Z by lia.
      rewrite <- Qmult_assoc, (Qmult_comm (inject_Z (2 ^ Z.pos k))).
      rewrite p2_neg by lia. ring.
Qed.

(** The location [new_location] computes for a remainder. *)
Lemma new_location_located (q r m2 : Z) (P : Q) :
  (0 <= r < m2)%Z -> 0 < P ->
  located ((inject_Z q + inject_Z r / inject_Z m2) * P) q P
          (shr_r (shr_record_of_loc q (new_location m2 r)))
          (shr_s (shr_record_of_loc q (new_location m2 r))).
Proof.
  intros Hr HP.
  assert (Hm : 0 < inject_Z m2).
  { change 0 with (inject_Z 0). rewrite <- Zlt_Qlt. lia. }
  set (t := inject_Z r / inject_Z m2).
  assert (T : t * inject_Z m2 == inject_Z r).
  { unfold t. field. lra. }
  assert (Cmp : forall a b : Z, (a < b)%Z -> inject_Z a < inject_Z b)
    by (intros a b H; rewrite <- Zlt_Qlt; exact H).
  assert (Half : forall c, (2 * r ?= m2)%Z = c ->
            match c with
            | Lt => t < 1 # 2
            | Eq => t == 1 # 2
            | Gt => (1 # 2) < t
            end).
  { intros c Hc. destruct c.
    - apply Z.compare_eq in Hc.
      assert (E : inject_Z m2 == 2 * inject_Z r)
        by (rewrite <- Hc, inject_Z_mult; reflexivity).
      unfold t. rewrite E. field.
      intros Z. rewrite <- T, E in Z.
      assert (inject_Z r == 0) by nra. lra.
    - apply Z.compare_lt_iff in Hc. apply Cmp in Hc.
      rewrite inject_Z_mult in Hc. change (inject_Z 2) with 2 in Hc.
      unfold t. apply Qlt_shift_div_r; lra.
    - apply Z.compare_gt_iff in Hc. apply Cmp in Hc.
      rewrite inject_Z_mult in Hc. change (inject_Z 2) with 2 in Hc.
      unfold t. apply Qlt_shift_div_l; lra. }
  assert (Tpos : (r <> 0)%Z -> 0 < t).
  { intros N. unfold t. apply Qlt_shift_div_l; [exact Hm|].
    assert (0 < r)%Z by lia. apply Cmp in H. change (inject_Z 0) with 0 in H.
    lra. }
  assert (Tlt : t < 1).
  { unfold t. apply Qlt_shift_div_r; [exact Hm|].
    assert (H := Cmp r m2 ltac:(lia)). lra. }
  unfold new_location, new_location_even, new_location_odd.
  destruct (Z.even m2) eqn:Ev.
  - destruct (Z.eqb_spec r 0) as [R0|RN].
    + cbn [shr_record_of_loc shr_r shr_s located].
      assert (t == 0) by (unfold t; rewrite R0; change (inject_Z 0) with 0; field; lra).
      rewrite H. ring.
    + specialize (Tpos RN).
      destruct (2 * r ?= m2)%Z eqn:C; specialize (Half _ eq_refl);
        cbv beta iota in Half;
        cbn [shr_record_of_loc shr_r shr_s located].
      * rewrite Half. ring.
      * split; nra.
      * split; nra.
  - destruct (Z.eqb_spec r 0) as [R0|RN].
    + cbn [shr_record_of_loc shr_r shr_s located].
      assert (t == 0) by (unfold t; rewrite R0; change (inject_Z 0) with 0; field; lra).
      rewrite H. ring.
    + specialize (Tpos RN).
      assert (Odd : (2 * r <> m2)%Z).
      { intros E. rewrite <- E, Z.even_mul in Ev. discriminate. }
      destruct (2 * r + 1 ?= m2)%Z eqn:C.
      * apply Z.compare_eq in C.
        assert (H := Half Lt ltac:(apply Z.compare_lt_iff; lia)).
        cbv beta iota in H.
        cbn [shr_record_of_loc shr_r shr_s located]. split; nra.
      * rewrite Z.compare_lt_iff in C.
        assert (H := Half Lt ltac:(apply Z.compare_lt_iff; lia)).
        cbv beta iota in H.
        cbn [shr_record_of_loc shr_r shr_s located]. split; nra.
      * rewrite Z.compare_gt_iff in C.
        assert (H := Half Gt ltac:(apply Z.compare_gt_iff; lia)).
        cbv beta iota in H.
        cbn [shr_record_of_loc shr_r shr_s located]. split; nra.
Qed.

Lemma valueOf_pos (m : positive) (e : Z) : 0 < valueOf m e.
Proof.
  unfold valueOf. apply Qmult_lt_0_compat; [|apply p2_pos].
  change 0 with (inject_Z 0). rewrite <- Zlt_Qlt. lia.
Qed.

(** Division of two doubles is the quotient rounded to nearest. *)
Lemma div_correct (m1 m2 : positive) (e1 e2 : Z) :
  Z.pos (digits2_pos m1) = 53%Z -> Z.pos (digits2_pos m2) = 53%Z ->
  (-100 <= e1 <= 100)%Z -> (-100 <= e2 <= 100)%Z ->
  exists m e,
    Binary64.div (S754_finite false m1 e1) (S754_finite false m2 e2)
    = S754_finite false m e
    /\ Z.pos (digits2_pos m) = 53%Z
    /\ (e1 - e2 - 53 <= e <= e1 - e2 - 51)%Z
    /\ - (p2 e * (1 # 2)) <= valueOf m e - valueOf m1 e1 / valueOf m2 e2
    /\ valueOf m e - valueOf m1 e1 / valueOf m2 e2 <= p2 e * (1 # 2).
Proof.
  intros D1 D2 H1 H2.
  assert (B1 := digits_bounds m1). assert (B2 := digits_bounds m2).
  rewrite D1 in B1. rewrite D2 in B2. change (53 - 1)%Z with 52%Z in *.
  unfold Binary64.div, SFdiv, SFdiv_core_binary. cbn [Zdigits2 xorb].
  rewrite D1, D2. rewrite fexp_normal by lia.
  set (e' := (e1 - e2 - 53)%Z).
  replace (Z.min (53 + e1 - (53 + e2) - 53) (e1 - e2))%Z with e' by (unfold e'; lia).
  replace (e1 - e2 - e')%Z with 53%Z by (unfold e'; lia).
  rewrite Z.shiftl_mul_pow2 by lia.
  assert (DM := Z.div_eucl_eq (Z.pos m1 * 2 ^ 53) (Z.pos m2) ltac:(lia)).
  assert (RB := Z.mod_pos_bound (Z.pos m1 * 2 ^ 53) (Z.pos m2) ltac:(lia)).
  unfold Z.modulo in RB.
  destruct (Z.div_eucl (Z.pos m1 * 2 ^ 53) (Z.pos m2)) as [q r].
  assert (Q1 : (2 ^ 52 <= q < 2 ^ 54)%Z) by nia.
  destruct q as [|pq|pq]; try lia.
  set (x := valueOf m1 e1 / valueOf m2 e2).
  assert (X : x == (inject_Z (Z.pos pq) + inject_Z r / inject_Z (Z.pos m2)) * p2 e').
  { unfold x, valueOf.
    assert (E1 : p2 e1 == p2 e' * p2 53 * p2 e2).
    { rewrite <- !p2_add. unfold e'. replace (e1 - e2 - 53 + 53 + e2)%Z with e1 by lia.
      reflexivity. }
    assert (M : inject_Z (Z.pos m1) * p2 53
                == inject_Z (Z.pos m2) * inject_Z (Z.pos pq) + inject_Z r).
    { rewrite (p2_nonneg 53) by lia.
      rewrite <- !inject_Z_mult, <- inject_Z_plus. now rewrite DM. }
    assert (N2 : ~ inject_Z (Z.pos m2) == 0) by discriminate.
    assert (P2 : ~ p2 e2 == 0) by (intros Z; assert (H := p2_pos e2); lra).
    rewrite E1.
    transitivity ((inject_Z (Z.pos m1) * p2 53) * p2 e' / inject_Z (Z.pos m2)).
    - field. split; assumption.
    - rewrite M. field. assumption. }
  assert (Dq : (53 <= Z.pos (digits2_pos pq))%Z).
  { assert (Bq := digits_bounds pq).
    destruct (Z.le_gt_cases 53 (Z.pos (digits2_pos pq))) as [L|G]; [exact L|].
    assert (2 ^ Z.pos (digits2_pos pq) <= 2 ^ 52)%Z by (apply Z.pow_le_mono_r; lia).
    lia. }
  assert (Dq' : (Z.pos (digits2_pos pq) <= 54)%Z).
  { assert (Bq := digits_bounds pq).
    destruct (Z.le_gt_cases (Z.pos (digits2_pos pq)) 54) as [L|G]; [exact L|].
    assert (2 ^ 54 <= 2 ^ (Z.pos (digits2_pos pq) - 1))%Z
      by (apply Z.pow_le_mono_r; lia).
    lia. }
  assert (L : located x (Z.pos pq) (p2 e')
                (shr_r (shr_record_of_loc (Z.pos pq) (new_location (Z.pos m2) r)))
                (shr_s (shr_record_of_loc (Z.pos pq) (new_location (Z.pos m2) r)))).
  { assert (L0 := new_location_located (Z.pos pq) r (Z.pos m2) (p2 e') RB (p2_pos e')).
    destruct (shr_r _), (shr_s _); unfold located in *; rewrite X; exact L0. }
  destruct (round_aux_correct false pq e' (new_location (Z.pos m2) r) x
              Dq ltac:(unfold e'; lia) ltac:(unfold e'; lia) L)
    as (m & e & E & Dm & He & Rlo & Rhi).
  exists m, e. split; [exact E|]. split; [exact Dm|].
  split; [unfold e' in He; lia|]. split; assumption.
Qed.

(** Multiplication of two doubles is the product rounded to nearest. *)
Lemma mul_correct (m1 m2 : positive) (e1 e2 : Z) :
  Z.pos (digits2_pos m1) = 53%Z -> Z.pos (digits2_pos m2) = 53%Z ->
  (-200 <= e1 <= 100)%Z -> (-200 <= e2 <= 100)%Z ->
  exists m e,
    Binary64.mul (S754_finite false m1 e1) (S754_finite false m2 e2)
    = S754_finite false m e
    /\ Z.pos (digits2_pos m) = 53%Z
    /\ (e1 + e2 + 52 <= e <= e1 + e2 + 54)%Z
    /\ - (p2 e * (1 # 2)) <= valueOf m e - valueOf m1 e1 * valueOf m2 e2
    /\ valueOf m e - valueOf m1 e1 * valueOf m2 e2 <= p2 e * (1 # 2).
Proof.
  intros D1 D2 H1 H2.
  assert (B1 := digits_bounds m1). assert (B2 := digits_bounds m2).
  rewrite D1 in B1. rewrite D2 in B2. change (53 - 1)%Z with 52%Z in *.
  unfold Binary64.mul, SFmul. cbn [xorb].
  assert (Bp : (2 ^ 104 <= Z.pos (m1 * m2) < 2 ^ 106)%Z).
  { rewrite Pos2Z.inj_mul.
    change (2 ^ 104)%Z with (2 ^ 52 * 2 ^ 52)%Z.
    change (2 ^ 106)%Z with (2 ^ 53 * 2 ^ 53)%Z. nia. }
  assert (Bd := digits_bounds (m1 * m2)).
  set (d := Z.pos (digits2_pos (m1 * m2))) in *.
  assert (Dlo : (105 <= d)%Z).
  { destruct (Z.le_gt_cases 105 d) as [L|G]; [exact L|].
    assert (2 ^ d <= 2 ^ 104)%Z by (apply Z.pow_le_mono_r; lia). lia. }
  assert (Dhi : (d <= 106)%Z).
  { destruct (Z.le_gt_cases d 106) as [L|G]; [exact L|].
    assert (2 ^ 106 <= 2 ^ (d - 1))%Z by (apply Z.pow_le_mono_r; lia). lia. }
  set (x := valueOf m1 e1 * valueOf m2 e2).
  assert (L : located x (Z.pos (m1 * m2)) (p2 (e1 + e2))
                (shr_r (shr_record_of_loc (Z.pos (m1 * m2)) loc_Exact))
                (shr_s (shr_record_of_loc (Z.pos (m1 * m2)) loc_Exact))).
  { cbn [shr_record_of_loc shr_r shr_s located]. unfold x, valueOf.
    rewrite Pos2Z.inj_mul, inject_Z_mult, p2_add. ring. }
  destruct (round_aux_correct false (m1 * m2) (e1 + e2) loc_Exact x
              ltac:(fold d; lia) ltac:(lia) ltac:(fold d; lia) L)
    as (m & e & E & Dm & He & Rlo & Rhi).
  fold d in He.
  exists m, e. split; [exact E|]. split; [exact Dm|].
  split; [lia|]. split; assumption.
Qed.

Ltac push_inject H :=
  repeat first [ rewrite inject_Z_plus in H
               | rewrite inject_Z_mult in H ].

(** Half a unit in the last place is at most the value times [2^-53]. *)
Lemma half_ulp (m : positive) (e : Z) :
  Z.pos (digits2_pos m) = 53%Z ->
  p2 e * (1 # 2) <= valueOf m e * unitRoundoff.
Proof.
  intros D. assert (B := digits_bounds m). rewrite D in B.
  change (53 - 1)%Z with 52%Z in B. destruct B as [B _].
  rewrite Zle_Qle in B. unfold valueOf, unitRoundoff.
  change (inject_Z (2 ^ 52)) with (4503599627370496 # 1) in B.
  assert (P := p2_pos e).
  assert (H : 4503599627370496 * p2 e <= inject_Z (Z.pos m) * p2 e)
    by (apply Qmult_le_compat_r; lra).
  change (1 # 2 ^ 53) with (1 # 9007199254740992). lra.
Qed.

(** [Math.round] of a positive double with a negative exponent. *)
Lemma round_floor (m : positive) (e : Z) :
  (e < 0)%Z ->
  exists T : Z,
    Binary64.roundZ (S754_finite false m e) = Some T
    /\ inject_Z T <= valueOf m e + (1 # 2)
    /\ valueOf m e + (1 # 2) < inject_Z T + 1.
Proof.
  intros He. unfold Binary64.roundZ.
  replace (0 <=? e)%Z with false by (symmetry; apply Z.leb_gt; lia).
  set (A := (2 ^ (- e))%Z).
  assert (HA : (0 < A)%Z) by (apply Z.pow_pos_nonneg; lia).
  replace (2 ^ (1 - e))%Z with (2 * A)%Z
    by (unfold A; replace (1 - e)%Z with (Z.succ (- e)) by lia;
        rewrite Z.pow_succ_r by lia; reflexivity).
  set (N := (2 * Z.pos m + A)%Z).
  exists (N / (2 * A))%Z. split; [reflexivity|].
  assert (DM := Z.div_mod N (2 * A) ltac:(lia)).
  assert (RB := Z.mod_pos_bound N (2 * A) ltac:(lia)).
  set (T := (N / (2 * A))%Z) in *.
  assert (Lo : (2 * A * T <= N)%Z) by lia.
  assert (Hi : (N < 2 * A * T + 2 * A)%Z) by lia.
  rewrite Zle_Qle in Lo. rewrite Zlt_Qlt in Hi. unfold N in Lo, Hi.
  push_inject Lo. push_inject Hi.
  change (inject_Z 2) with 2 in *.
  assert (U : p2 e * inject_Z A == 1).
  { unfold A. replace e with (- - e)%Z at 1 by lia. apply p2_neg. lia. }
  assert (PA : 0 < inject_Z A).
  { change 0 with (inject_Z 0). rewrite <- Zlt_Qlt. exact HA. }
  assert (PP := p2_pos e).
  unfold valueOf.
  set (a := inject_Z A) in *. set (t := inject_Z T) in *.
  set (mq := inject_Z (Z.pos m)) in *. set (P := p2 e) in *.
  assert (L1 : (2 * a * t) * P <= (2 * mq + a) * P)
    by (apply Qmult_le_compat_r; lra).
  assert (L2 : (2 * mq + a) * P < (2 * a * t + 2 * a) * P)
    by (apply Qmult_lt_compat_r; lra).
  assert (E1 : (2 * a * t) * P == 2 * t * (P * a)) by ring.
  assert (E2 : (2 * mq + a) * P == 2 * (mq * P) + P * a) by ring.
  assert (E3 : (2 * a * t + 2 * a) * P == 2 * t * (P * a) + 2 * (P * a)) by ring.
  rewrite E1, E2 in L1. rewrite E2, E3 in L2. rewrite U in L1, L2.
  split; lra.
Qed.

Lemma mathRound_finite (m : positive) (e T : Z) :
  Binary64.roundZ (S754_finite false m e) = Some T ->
  Binary64.mathRound (S754_finite false m e) = Binary64.ofZ T.
Proof.
  intros H. unfold Binary64.mathRound. rewrite H. destruct T; reflexivity.
Qed.

(** The number of tenths the service arrives at is an integer nearest to
    [1000 * b / s]. *)
Lemma tenthsOf_nearest (b s : nat) :
  (0 < s)%nat -> (b <= s)%nat -> (Z.of_nat s < 2 ^ 32)%Z ->
  exists T : Z,
    Analytics.tenthsOf b s = Binary64.ofZ T
    /\ (2 * Z.abs (T * Z.of_nat s - 1000 * Z.of_nat b) <= Z.of_nat s)%Z.
Proof.
  intros Hs Hbs Hmax. unfold Analytics.tenthsOf.
  destruct (ofZ_exact (Z.of_nat s) ltac:(lia)) as (ms & es & Es & Ds & Hes & Vs).
  rewrite Es.
  destruct b as [|b'].
  { exists 0%Z. split; [reflexivity|]. lia. }
  set (b := S b') in *.
  destruct (ofZ_exact (Z.of_nat b) ltac:(lia)) as (mb & eb & Eb & Db & Heb & Vb).
  rewrite Eb.
  destruct (div_correct mb ms eb es Db Ds ltac:(lia) ltac:(lia))
    as (mF & eF & EF & DF & HeF & Flo & Fhi).
  rewrite EF.
  change (Binary64.ofZ 1000) with (S754_finite false 8796093022208000 (-43)).
  destruct (mul_correct mF 8796093022208000 eF (-43) DF eq_refl
              ltac:(lia) ltac:(lia))
    as (mY & eY & EY & DY & HeY & Ylo & Yhi).
  rewrite EY.
  assert (K : valueOf 8796093022208000 (-43) == 1000) by reflexivity.
  fold (valueOf mb eb) in Vb. fold (valueOf ms es) in Vs.
  rewrite Vb, Vs in Flo, Fhi. rewrite K in Ylo, Yhi.
  assert (UF := half_ulp mF eF DF). assert (UY := half_ulp mY eY DY).
  set (F := valueOf mF eF) in *. set (Y := valueOf mY eY) in *.
  set (B := inject_Z (Z.of_nat b)) in *. set (Sq := inject_Z (Z.of_nat s)) in *.
  assert (HS : 0 < Sq).
  { unfold Sq. change 0 with (inject_Z 0). rewrite <- Zlt_Qlt. lia. }
  assert (HB : B <= Sq) by (unfold B, Sq; rewrite <- Zle_Qle; lia).
  assert (HB0 : 0 < B).
  { unfold B. change 0 with (inject_Z 0). rewrite <- Zlt_Qlt. unfold b. lia. }
  assert (HSmax : Sq < 4294967296).
  { unfold Sq. change 4294967296 with (inject_Z (2 ^ 32)). now rewrite <- Zlt_Qlt. }
  assert (G : B / Sq * Sq == B) by (field; lra).
  set (g := B / Sq) in *.
  assert (PF : 0 < F) by apply valueOf_pos.
  assert (PY : 0 < Y) by apply valueOf_pos.
  unfold unitRoundoff in *. change (1 # 2 ^ 53) with (1 # 9007199254740992) in *.
  (* everything multiplied by the number of sessions *)
  assert (F1 : (F - g) * Sq <= (F * (1 # 9007199254740992)) * Sq)
    by (apply Qmult_le_compat_r; lra).
  assert (F2 : (- (F * (1 # 9007199254740992))) * Sq <= (F - g) * Sq)
    by (apply Qmult_le_compat_r; lra).
  assert (Y1 : (Y - F * 1000) * Sq <= (Y * (1 # 9007199254740992)) * Sq)
    by (apply Qmult_le_compat_r; lra).
  assert (Y2 : (- (Y * (1 # 9007199254740992))) * Sq <= (Y - F * 1000) * Sq)
    by (apply Qmult_le_compat_r; lra).
  set (FS := F * Sq) in *. set (YS := Y * Sq) in *.
  assert (F1' : FS - B <= FS * (1 # 9007199254740992)).
  { setoid_replace (FS - B) with ((F - g) * Sq) by (unfold FS; rewrite <- G; ring).
    setoid_replace (FS * (1 # 9007199254740992))
      with (F * (1 # 9007199254740992) * Sq) by (unfold FS; ring).
    exact F1. }
  assert (F2' : - (FS * (1 # 9007199254740992)) <= FS - B).
  { setoid_replace (FS - B) with ((F - g) * Sq) by (unfold FS; rewrite <- G; ring).
    setoid_replace (- (FS * (1 # 9007199254740992)))
      with (- (F * (1 # 9007199254740992)) * Sq) by (unfold FS; ring).
    exact F2. }
  assert (Y1' : YS - 1000 * FS <= YS * (1 # 9007199254740992)).
  { setoid_replace (YS - 1000 * FS) with ((Y - F * 1000) * Sq)
      by (unfold YS, FS; ring).
    setoid_replace (YS * (1 # 9007199254740992))
      with (Y * (1 # 9007199254740992) * Sq) by (unfold YS; ring).
    exact Y1. }
  assert (Y2' : - (YS * (1 # 9007199254740992)) <= YS - 1000 * FS).
  { setoid_replace (YS - 1000 * FS) with ((Y - F * 1000) * Sq)
      by (unfold YS, FS; ring).
    setoid_replace (- (YS * (1 # 9007199254740992)))
      with (- (Y * (1 # 9007199254740992)) * Sq) by (unfold YS; ring).
    exact Y2. }
  assert (Near : - (1 # 2) < YS - 1000 * B /\ YS - 1000 * B < 1 # 2) by (split; lra).
  assert (Ybound : Y < 4096).
  { assert (YS < 4096 * Sq) by lra.
    destruct (Qlt_le_dec Y 4096) as [L|L]; [exact L|].
    assert (4096 * Sq <= Y * Sq) by (apply Qmult_le_compat_r; lra).
    fold YS in H0. lra. }
  assert (NegE : (eY < 0)%Z).
  { destruct (Z.lt_ge_cases eY 0) as [L|L]; [exact L|].
    assert (1 <= p2 eY).
    { unfold p2. apply Qpower_1_le; [discriminate|exact L]. }
    assert (Bm := digits_bounds mY). rewrite DY in Bm.
    change (53 - 1)%Z with 52%Z in Bm. destruct Bm as [Bm _].
    rewrite Zle_Qle in Bm.
    change (inject_Z (2 ^ 52)) with (4503599627370496 # 1) in Bm.
    assert (inject_Z (Z.pos mY) * 1 <= inject_Z (Z.pos mY) * p2 eY)
      by (apply Qmult_le_l; lra).
    unfold Y, valueOf in Ybound. lra. }
  destruct (round_floor mY eY NegE) as (T & ET & Tlo & Thi).
  fold Y in Tlo, Thi.
  exists T. split; [now apply mathRound_finite|].
  assert (T1 : inject_Z T * Sq <= (Y + (1 # 2)) * Sq)
    by (apply Qmult_le_compat_r; lra).
  assert (T2 : (Y + (1 # 2)) * Sq < (inject_Z T + 1) * Sq)
    by (apply Qmult_lt_compat_r; lra).
  assert (T1' : inject_Z T * Sq <= YS + (1 # 2) * Sq)
    by (setoid_replace (YS + (1 # 2) * Sq) with ((Y + (1 # 2)) * Sq)
          by (unfold YS; ring); exact T1).
  assert (T2' : YS + (1 # 2) * Sq < inject_Z T * Sq + Sq)
    by (setoid_replace (YS + (1 # 2) * Sq) with ((Y + (1 # 2)) * Sq)
          by (unfold YS; ring);
        setoid_replace (inject_Z T * Sq + Sq) with ((inject_Z T + 1) * Sq)
          by ring; exact T2).
  destruct Near as [N1 N2].
  set (TS := inject_Z T * Sq) in *.
  (* back to integers *)
  assert (ZTS : TS == inject_Z (T * Z.of_nat s)).
  { unfold TS, Sq. now rewrite inject_Z_mult. }
  destruct (Z.le_gt_cases (2 * Z.abs (T * Z.of_nat s - 1000 * Z.of_nat b))
                          (Z.of_nat s)) as [OK|Bad]; [exact OK|exfalso].
  assert (Cases : (Z.of_nat s + 1 + 2000 * Z.of_nat b <= 2 * (T * Z.of_nat s))%Z
                  \/ (Z.of_nat s + 1 + 2 * (T * Z.of_nat s) <= 2000 * Z.of_nat b)%Z)
    by lia.
  destruct Cases as [C|C]; rewrite Zle_Qle in C; push_inject C;
    fold Sq in C; fold B in C; fold TS in C;
    change (inject_Z 1) with 1 in C; change (inject_Z 2) with 2 in C;
    change (inject_Z 2000) with 2000 in C; lra.
Qed.
End Binary64Facts.

(* ================================================================= *)
(** * Facts about the bounce rate *)

Section BounceFacts.
Import JS Spec Analytics.

Lemma filter_map_length {A B : Type} (p : B -> bool) (f : A -> B) (l : list A) :
  List.length (filter p (map f l))
  = List.length (filter (fun a => p (f a)) l).
Proof.
  induction l as [|a l IH]; simpl; [reflexivity|].
  destruct (p (f a)); simpl; now rewrite IH.
Qed.

(** The bounces the reducer counts are the sessions with exactly one
    event. *)
Lemma bounces_counted (evs : list Event) :
  List.length
    (filter (fun c => c =? 1) (map snd (countBy jsval_eq_dec sessionId evs)))
  = List.length (bouncedSessions evs).
Proof.
  rewrite countBy_groupCount. unfold groupCount, bouncedSessions, sessionsOf.
  rewrite map_map. cbn [snd]. rewrite filter_map_length.
  apply filter_length_perm, NoDup_Permutation.
  - apply firstOccurrences_NoDup.
  - apply NoDup_nodup.
  - intros k. now rewrite firstOccurrences_In, nodup_In.
Qed.

Lemma bounced_le_sessions (evs : list Event) :
  List.length (bouncedSessions evs) <= List.length (sessionsOf evs).
Proof. apply filter_length_le. Qed.

Lemma sessions_le_events (t : Z) (p : string) (events : list Event) :
  List.length (sessionsOf (filterEvents t p events)) <= List.length events.
Proof.
  unfold sessionsOf.
  transitivity (List.length (map sessionId (filterEvents t p events))).
  - apply NoDup_incl_length; [apply NoDup_nodup|].
    intros k. apply nodup_In.
  - rewrite length_map. unfold filterEvents.
    destruct (windowMs p); [apply filter_length_le|simpl; lia].
Qed.

(** The example of the specification, step by step: two thirds times a
    thousand round to 667, and 667 tenths are the double 66.7. *)
Lemma two_thirds_in_tenths :
  tenthsOf 2 3 = Binary64.ofZ 667
  /\ bounceRateOf 2 3 = S754_finite false 4693595236650189 (-46).
Proof. split; vm_compute; reflexivity. Qed.

(** A tie need not go up: 201 bounces in 400 sessions are 502.5 tenths,
    and the product computed in binary64 falls just below the tie. *)
Lemma tie_rounds_down : tenthsOf 201 400 = Binary64.ofZ 502.
Proof. vm_compute. reflexivity. Qed.
End BounceFacts.

Section SummaryClaims.
Import JS Spec Analytics.

(** C2.  The summary counts as visitors the distinct sessions of the
    window and as bounces those of them with exactly one event in the
    window.  The bounce rate is 0 when there is no session; otherwise it
    is the double of T / 10 for a whole number T of tenths nearest to
    1000 * bounces / sessions, that is 100 * bounces / sessions rounded
    to one decimal.  With three sessions of which two have exactly one
    event, it is 667 / 10, the double written 66.7.  The event log is
    an array, hence shorter than 2^32. *)
Theorem bounce_rate_is_rounded_share :
  forall (t : Z) (q : option string) (events : list Event),
    (Z.of_nat (List.length events) < 2 ^ 32)%Z ->
    let evs := filterEvents t (periodOf q) events in
    let total := List.length (sessionsOf evs) in
    let bounced := List.length (bouncedSessions evs) in
    let rate := bounceRate (summary t q events) in
    visitors (summary t q events) = total
    /\ pageViews (summary t q events) = List.length evs
    /\ (total = 0 -> rate = S754_zero false)
    /\ (0 < total ->
        exists T : Z,
          rate = Binary64.div (Binary64.ofZ T) (Binary64.ofZ 10)
          /\ (0 <= T <= 1000)%Z
          /\ (2 * Z.abs (T * Z.of_nat total - 1000 * Z.of_nat bounced)
              <= Z.of_nat total)%Z)
    /\ (total = 3 -> bounced = 2 ->
        rate = Binary64.div (Binary64.ofZ 667) (Binary64.ofZ 10)
        /\ rate = S754_finite false 4693595236650189 (-46)).
Proof.
  intros t q events Hlen evs total bounced rate.
  assert (R : rate = bounceRateOf bounced total).
  { unfold rate, summary. cbn [bounceRate]. fold evs.
    now rewrite bounces_counted. }
  assert (Hb : bounced <= total) by apply bounced_le_sessions.
  assert (Ht : total <= List.length events) by apply sessions_le_events.
  split; [reflexivity|]. split; [reflexivity|]. split; [|split].
  - intros H0. rewrite R, H0. reflexivity.
  - intros Hpos. rewrite R. unfold bounceRateOf.
    destruct (Nat.eqb_spec total 0) as [E|_]; [lia|].
    destruct (tenthsOf_nearest bounced total Hpos Hb ltac:(lia))
      as (T & ET & Near).
    exists T. rewrite ET. split; [reflexivity|]. split; [|exact Near]. nia.
  - intros H3 H2. rewrite R, H3, H2. split; vm_compute; reflexivity.
Qed.

End SummaryClaims.

(* ================================================================= *)
(** * Facts about the ranking of pages *)

Section RankingFacts.
Import JS Spec Analytics.
Context {K : Type} (eq_dec : forall x y : K, {x = y} + {x <> y}).

Lemma perm3_cases (x y z : K) (l : list K) :
  Permutation l [x; y; z] ->
  l = [x; y; z] \/ l = [x; z; y] \/ l = [y; x; z]
  \/ l = [y; z; x] \/ l = [z; x; y] \/ l = [z; y; x].
Proof.
  intros P.
  assert (L := Permutation_length P).
  destruct l as [|p [|q [|r [|? ?]]]]; try discriminate L.
  assert (Hp : In p [x; y; z]) by (apply (Permutation_in _ P); now left).
  destruct Hp as [<-|[<-|[<-|[]]]].
  - apply Permutation_cons_inv, Permutation_length_2_inv in P.
    destruct P as [E|E]; injection E as -> ->; tauto.
  - assert (P' : Permutation (y :: [q; r]) (y :: [x; z])).
    { rewrite P. apply perm_swap. }
    apply Permutation_cons_inv, Permutation_length_2_inv in P'.
    destruct P' as [E|E]; injection E as -> ->; tauto.
  - assert (P' : Permutation (z :: [q; r]) (z :: [x; y])).
    { rewrite P. symmetry.
      apply (Permutation_cons_app [x; y] []). reflexivity. }
    apply Permutation_cons_inv, Permutation_length_2_inv in P'.
    destruct P' as [E|E]; injection E as -> ->; tauto.
Qed.

Lemma NoDup_firstn (n : nat) (l : list K) : NoDup l -> NoDup (firstn n l).
Proof.
  intros H. rewrite <- (firstn_skipn n l) in H.
  now apply NoDup_app_remove_r in H.
Qed.

Lemma groupCount_keys (ks : list K) :
  map fst (groupCount eq_dec ks) = firstOccurrences eq_dec ks.
Proof. unfold groupCount. rewrite map_map. apply map_id. Qed.

Lemma groupCount_entry (ks : list K) (k : K) (c : nat) :
  In (k, c) (groupCount eq_dec ks) ->
  c = count_occ eq_dec ks k /\ 0 < c.
Proof.
  unfold groupCount. intros H. apply in_map_iff in H as (k' & E & Hk).
  injection E as -> <-. split; [reflexivity|].
  apply count_occ_In. now apply firstOccurrences_In in Hk.
Qed.

(** Three keys, the first seen five times and the others thrice,
    rank with the first on top. *)
Lemma rank_five_three_three (a b c : K) (ks : list K) :
  a <> b -> a <> c -> b <> c ->
  count_occ eq_dec ks a = 5 -> count_occ eq_dec ks b = 3 ->
  count_occ eq_dec ks c = 3 ->
  (forall k, In k ks -> k = a \/ k = b \/ k = c) ->
  let ranked := firstn 10 (sortDesc (groupCount eq_dec ks)) in
  ranked = [(a, 5); (b, 3); (c, 3)] \/ ranked = [(a, 5); (c, 3); (b, 3)].
Proof.
  intros Hab Hac Hbc Ha Hb Hc Hall ranked.
  assert (P : Permutation (firstOccurrences eq_dec ks) [a; b; c]).
  { apply NoDup_Permutation.
    - apply firstOccurrences_NoDup.
    - constructor; [simpl; intuition congruence|].
      constructor; [simpl; intuition congruence|].
      constructor; [simpl; tauto|constructor].
    - intros k. rewrite firstOccurrences_In. split.
      + intros H. destruct (Hall k H) as [-> | [-> | ->]]; simpl; tauto.
      + intros [<-|[<-|[<-|[]]]]; apply (count_occ_In eq_dec); lia. }
  unfold ranked, groupCount.
  destruct (perm3_cases _ _ _ _ P) as [E|[E|[E|[E|[E|E]]]]];
    rewrite E; cbn [map]; rewrite Ha, Hb, Hc; cbn; tauto.
Qed.
End RankingFacts.

Section RankingClaims.
Import JS Spec Analytics.
Context {host : Host}.
Local Open Scope string_scope.

(** C8.  The top-pages query groups the events of the window by path,
    one entry per path with the number of its events, ranks the entries
    by descending count, entries of equal count staying in the order in
    which their paths first occur, and returns the first ten.  When the
    window holds five events of /a, three of /b, three of /c and no
    other, the answer is /a with 5 followed by /b and /c with 3 each,
    in one order or the other. *)
Theorem top_pages_ranking :
  forall (t : Z) (q : option string) (events : list Event),
    let paths := map path (filterEvents t (periodOf q) events) in
    let groups := groupCount jsval_eq_dec paths in
    let top := topPages t q events in
    (exists ranked,
        top = firstn 10 ranked
        /\ Permutation ranked groups
        /\ Sorted countGe ranked
        /\ forall c : nat,
             filter (fun p => (snd p =? c)%nat) ranked
             = filter (fun p => (snd p =? c)%nat) groups)
    /\ List.length top <= 10
    /\ NoDup (map fst top)
    /\ (forall p c, In (p, c) top ->
          c = count_occ jsval_eq_dec paths p /\ 0 < c)
    /\ (count_occ jsval_eq_dec paths (JStr "/a") = 5 ->
        count_occ jsval_eq_dec paths (JStr "/b") = 3 ->
        count_occ jsval_eq_dec paths (JStr "/c") = 3 ->
        (forall p, In p paths ->
           p = JStr "/a" \/ p = JStr "/b" \/ p = JStr "/c") ->
        top = [(JStr "/a", 5); (JStr "/b", 3); (JStr "/c", 3)]
        \/ top = [(JStr "/a", 5); (JStr "/c", 3); (JStr "/b", 3)]).
Proof.
  intros t q events paths groups top.
  assert (E : top = firstn 10 (sortDesc groups)).
  { unfold top, topPages, groups, paths. now rewrite countBy_groupCount. }
  split; [|split; [|split; [|split]]].
  - exists (sortDesc groups). split; [exact E|]. split; [apply sortDesc_perm|].
    split; [apply sortDesc_sorted|]. intros c. apply sortDesc_stable.
  - rewrite E. apply firstn_le_length.
  - rewrite E, <- firstn_map. apply NoDup_firstn.
    apply (Permutation_NoDup (l := map fst groups)).
    + apply Permutation_map. symmetry. apply sortDesc_perm.
    + unfold groups. rewrite groupCount_keys. apply firstOccurrences_NoDup.
  - intros p c H. rewrite E in H. apply firstn_incl in H.
    apply (Permutation_in _ (sortDesc_perm _)) in H.
    now apply groupCount_entry in H.
  - intros Ha Hb Hc Hall. rewrite E.
    apply rank_five_three_three; try assumption; discriminate.
Qed.

End RankingClaims.

(* ================================================================= *)
(** * The properties on sample data *)

Section Samples.
Import JS Spec.
Local Open Scope string_scope.
Local Existing Instance ExampleHost.utc.

Lemma admin_path_ignored_and_excluded_witness :
  let req := Examples.request (JStr "/admin-dashboard.html") (JStr "/home") in
  let e := Examples.event Examples.clock "s1" "/admin-dashboard.html" in
  let other := Examples.event Examples.clock "s2" "/home" in
  StartsWith "/admin-dashboard.html" "/admin"
  /\ Analytics.track Examples.env req [other] = (Analytics.Ignored, [other])
  /\ Analytics.topPages Examples.clock None [other; e]
     = Analytics.topPages Examples.clock None [other].
Proof.
  intros req e other.
  assert (S : StartsWith "/admin-dashboard.html" "/admin")
    by (now exists "-dashboard.html").
  destruct (admin_path_ignored_and_excluded (host := ExampleHost.utc)
              "/admin-dashboard.html" Examples.env req [other]
              eq_refl (or_introl S)) as [T Q].
  split; [exact S|]. split; [exact T|].
  exact (proj1 (proj2 (proj2
    (Q e Examples.clock Examples.clock None [other] [] eq_refl)))).
Defined.

Lemma bounce_rate_is_rounded_share_witness :
  (Z.of_nat (List.length Examples.bounceLog) < 2 ^ 32)%Z
  /\ Analytics.bounceRate
       (Analytics.summary Examples.clock None Examples.bounceLog)
     = S754_finite false 4693595236650189 (-46).
Proof.
  assert (L : (Z.of_nat (List.length Examples.bounceLog) < 2 ^ 32)%Z)
    by (vm_compute; reflexivity).
  split; [exact L|].
  apply (bounce_rate_is_rounded_share Examples.clock None Examples.bounceLog L);
    vm_compute; reflexivity.
Defined.

Lemma window_excludes_old_events_realtime_does_not_witness :
  let old := Examples.event (Examples.clock - 8 * Analytics.dayMs) "s1" "/old" in
  let new := Examples.event Examples.clock "s2" "/new" in
  Analytics.windowMs (Analytics.periodOf None) = Some (7 * Analytics.dayMs)%Z
  /\ (Analytics.ts old < Examples.clock - 7 * Analytics.dayMs)%Z
  /\ Analytics.topPages Examples.clock None [old; new]
     = Analytics.topPages Examples.clock None [new]
  /\ In (Analytics.rowOf old) (Analytics.realtime [old; new]).
Proof.
  intros old new.
  assert (W : Analytics.windowMs (Analytics.periodOf None)
              = Some (7 * Analytics.dayMs)%Z) by reflexivity.
  assert (O : (Analytics.ts old < Examples.clock - 7 * Analytics.dayMs)%Z)
    by (vm_compute; reflexivity).
  destruct (window_excludes_old_events_realtime_does_not
              (host := ExampleHost.utc)
              Examples.clock Examples.clock (7 * Analytics.dayMs) None
              old [] [new] W O)
    as (_ & _ & T & _ & _ & _ & _ & R & _).
  split; [exact W|]. split; [exact O|]. split; [exact T|].
  apply R. simpl. lia.
Defined.

Lemma delete_unknown_id_not_found_witness :
  let st := Media.mkState [Examples.media "a" "x.png"] ["1-2-x.png"] 0 in
  ~ In "zzz" (map Media.id (Media.catalog st))
  /\ Media.deleteMedia "zzz" st = (Media.NotFound, st).
Proof.
  intros st.
  assert (H : ~ In "zzz" (map Media.id (Media.catalog st))).
  { simpl. intros [E|[]]. discriminate E. }
  split; [exact H|].
  exact (proj1 (delete_unknown_id_not_found "zzz" st H)).
Defined.

Lemma delete_removes_exactly_one_witness :
  let A := Examples.media "a" "x.png" in
  let B := Examples.media "b" "y.png" in
  let C := Examples.media "c" "z.png" in
  Media.catalog
    (snd (Media.deleteMedia "b" (Media.mkState [A; B; C] ["1-2-y.png"] 0)))
  = [A; C].
Proof.
  intros A B C.
  assert (AB : Media.id A <> Media.id B) by discriminate.
  assert (BC : Media.id B <> Media.id C) by discriminate.
  assert (AC : Media.id A <> Media.id C) by discriminate.
  change "b" with (Media.id B).
  rewrite (proj1 (delete_removes_exactly_one A B C ["1-2-y.png"] 0 AB BC AC)).
  reflexivity.
Defined.


Lemma referrer_classification_witness :
  urlHostname (Host := ExampleHost.utc) "https://www.google.com/search?q=x"
  = Some "www.google.com"
  /\ urlHostname (Host := ExampleHost.utc) "not a url" = None
  /\ Analytics.sourceOf (host := ExampleHost.utc)
       (JStr "https://www.google.com/search?q=x") = Analytics.Search
  /\ Analytics.sourceOf (host := ExampleHost.utc) (JStr "not a url")
     = Analytics.Referral
  /\ Analytics.sourceOf (host := ExampleHost.utc) (JStr "")
     = Analytics.Direct.
Proof.
  assert (G : urlHostname (Host := ExampleHost.utc)
                "https://www.google.com/search?q=x" = Some "www.google.com")
    by reflexivity.
  assert (N : urlHostname (Host := ExampleHost.utc) "not a url" = None)
    by reflexivity.
  destruct (referrer_classification (host := ExampleHost.utc) G N)
    as (D & _ & _ & _ & _ & _ & S & R).
  repeat split; assumption.
Defined.

Lemma top_pages_ranking_witness :
  Analytics.topPages Examples.clock None
                     Examples.pagesLog
  = [(JStr "/a", 5); (JStr "/b", 3); (JStr "/c", 3)]
  \/ Analytics.topPages Examples.clock None
                        Examples.pagesLog
     = [(JStr "/a", 5); (JStr "/c", 3); (JStr "/b", 3)].
Proof.
  apply (top_pages_ranking Examples.clock None
                           Examples.pagesLog);
    try (vm_compute; reflexivity).
  intros p H. vm_compute in H. intuition.
Defined.

Lemma realtime_never_reports_tablet_witness :
  let e := Examples.event Examples.clock "s1" "/" in
  Analytics.deviceOf (Analytics.device e) = Analytics.Tablet
  /\ Analytics.r_device (Analytics.rowOf (host := ExampleHost.utc) e)
     = Analytics.Desktop.
Proof.
  intros e.
  assert (T : MatchesAnyCase Analytics.tabletPattern "iPad").
  { exists "iPad", "", "iPad", "". simpl. tauto. }
  assert (M : ~ MatchesAnyCase Analytics.mobilePattern "iPad").
  { intros H. apply regexTestI_spec in H. vm_compute in H. discriminate H. }
  destruct (realtime_never_reports_tablet (host := ExampleHost.utc)
              e "iPad" eq_refl T M) as (D & R & _).
  split; assumption.
Defined.

Lemma path_default_precedes_page_fallback_witness :
  let req := Examples.request JUndefined (JStr "/pricing") in
  exists e,
    Analytics.track Examples.env req [] = (Analytics.Tracked "event-1", [e])
    /\ Analytics.path e = JStr "/".
Proof.
  intros req.
  exact (proj2 (proj1 (path_default_precedes_page_fallback
                         Examples.env req [] eq_refl eq_refl) eq_refl)).
Defined.

End Samples.

(* ================================================================= *)
(** * Further facts about the media catalog *)

Section MediaMoreFacts.
Import JS Spec Media Derived.
Local Open Scope string_scope.

Lemma combine_seq_snd {A : Type} (l : list A) (a : nat) :
  map snd (combine (seq a (List.length l)) l) = l.
Proof.
  revert a; induction l as [|x l IH]; intros a; simpl; [reflexivity|].
  now rewrite IH.
Qed.

Lemma combine_seq_nth {A : Type} (l : list A) (a i : nat) :
  nth_error (combine (seq a (List.length l)) l) i
  = option_map (fun x => (a + i, x)) (nth_error l i).
Proof.
  revert a i; induction l as [|x l IH]; intros a [|i]; simpl; try reflexivity.
  - now rewrite Nat.add_0_r.
  - rewrite IH. now rewrite Nat.add_succ_r.
Qed.

Lemma indexed_snd {A : Type} (l : list A) : map snd (indexed l) = l.
Proof. apply combine_seq_snd. Qed.

Lemma indexed_nth {A : Type} (l : list A) (i : nat) :
  nth_error (indexed l) i = option_map (fun x => (i, x)) (nth_error l i).
Proof. apply (combine_seq_nth l 0 i). Qed.

Lemma fsWrite_In (n m : string) (fs : list string) :
  In n (fsWrite m fs) <-> n = m \/ In n fs.
Proof.
  unfold fsWrite. destruct (existsb (String.eqb m) fs) eqn:E.
  - apply existsb_exists in E as (x & Hx & Ex). apply String.eqb_eq in Ex.
    subst x. split; [tauto|]. intros [->|H]; assumption.
  - rewrite in_app_iff. simpl. split; intros H; intuition congruence.
Qed.

Lemma fold_fsWrite_In {A : Type} (g : A -> string) (l : list A)
    (fs : list string) (n : string) :
  In n (fold_left (fun acc f => fsWrite (g f) acc) l fs)
  <-> In n fs \/ In n (map g l).
Proof.
  revert fs; induction l as [|x l IH]; intros fs; simpl; [tauto|].
  rewrite IH, fsWrite_In. intuition congruence.
Qed.

Lemma postMedia_saved (draws : nat -> Draw) (uploads : list Upload) (st : State) :
  List.length uploads <= 20 -> uploads <> [] ->
  postMedia draws uploads st
  = (Saved (map (recordAt draws) (indexed uploads)),
     {| catalog := (catalog st ++ map (recordAt draws) (indexed uploads))%list;
        files :=
          fold_left (fun fs iu => fsWrite (storedName (recordAt draws iu)) fs)
                    (indexed uploads) (files st);
        writes := S (writes st) |}).
Proof.
  intros Hlen Hne. unfold postMedia.
  replace (20 <? List.length uploads)%nat with false
    by (symmetry; apply Nat.ltb_ge; exact Hlen).
  assert (S1 : forall l : list (nat * Upload),
             map (fun f => recordOf (draws (fst f)) (snd f))
                 (map (fun iu => (fst iu, storeFile (draws (fst iu)) (snd iu))) l)
             = map (recordAt draws) l).
  { intros l. rewrite map_map. reflexivity. }
  assert (S2 : forall (l : list (nat * Upload)) fs,
             fold_left (fun acc f => fsWrite (filename (snd f)) acc)
               (map (fun iu => (fst iu, storeFile (draws (fst iu)) (snd iu))) l) fs
             = fold_left (fun acc iu => fsWrite (storedName (recordAt draws iu)) acc)
                 l fs).
  { induction l as [|iu l IH]; intros fs; cbn [map fold_left fst snd];
      [reflexivity|].
    rewrite IH.
    assert (N : storedName (recordAt draws iu)
                = filename (storeFile (draws (fst iu)) (snd iu))).
    { unfold recordAt. now rewrite storedName_recordOf. }
    now rewrite N. }
  destruct (indexed uploads) as [|iu rest] eqn:E.
  - destruct uploads; [contradiction|discriminate E].
  - rewrite <- E. destruct (map _ (indexed uploads)) as [|f fs'] eqn:M.
    + rewrite E in M. discriminate M.
    + rewrite <- M, S1, S2. reflexivity.
Qed.

Lemma postMedia_inv (draws : nat -> Draw) (uploads : list Upload) (st st' : State)
    (saved : list MediaRecord) :
  postMedia draws uploads st = (Saved saved, st') ->
  List.length uploads <= 20 /\ uploads <> []
  /\ saved = map (recordAt draws) (indexed uploads).
Proof.
  intros H.
  destruct (Nat.ltb_spec 20 (List.length uploads)) as [L|L].
  - unfold postMedia in H.
    replace (20 <? List.length uploads)%nat with true in H
      by (symmetry; now apply Nat.ltb_lt).
    discriminate H.
  - destruct uploads as [|u us]; [discriminate H|].
    rewrite postMedia_saved in H by (assumption || discriminate).
    injection H as <- _. repeat split; [assumption|discriminate].
Qed.

Lemma digit_safe (c : ascii) : isDigit c = true -> isSafeUnit c = true.
Proof.
  destruct c as [[] [] [] [] [] [] [] []]; vm_compute; intros H;
    (reflexivity || discriminate H).
Qed.

Lemma safeName_safe (s : string) : allUnits isSafeUnit (safeName s) = true.
Proof.
  induction s as [|c s IH]; simpl; [reflexivity|]. rewrite IH, andb_true_r.
  destruct (isSafeUnit c) eqn:E; [exact E|reflexivity].
Qed.

Lemma uniqueName_safe (n r : N) (s : string) :
  allUnits isSafeUnit (uniqueName n r s) = true.
Proof.
  assert (D : forall m, allUnits isSafeUnit (decimalN m) = true).
  { intros m. apply (allUnits_weaken isDigit); [apply digit_safe|].
    apply decimalN_digits. }
  unfold uniqueName. rewrite !allUnits_app, !D, safeName_safe. reflexivity.
Qed.

Lemma allUnits_get (P : ascii -> bool) (s : string) :
  allUnits P s = true -> forall i c, String.get i s = Some c -> P c = true.
Proof.
  induction s as [|d s IH]; simpl; intros H i c G; [discriminate G|].
  apply andb_true_iff in H as [Hd Hs].
  destruct i as [|i]; [injection G as <-; exact Hd|now apply (IH Hs i)].
Qed.


(** What a delete that succeeds has done. *)
Lemma deleteMedia_deleted (rid : string) (st st' : State) :
  deleteMedia rid st = (Deleted, st') ->
  exists l1 x l2,
    catalog st = (l1 ++ x :: l2)%list /\ id x = rid
    /\ ~ In rid (map id l1)
    /\ st' = {| catalog := (l1 ++ l2)%list;
                files := fsRemove (storedName x) (files st);
                writes := S (writes st) |}.
Proof.
  intros H. unfold deleteMedia in H.
  destruct (findIndex _ (catalog st)) as [i|] eqn:Ei; [|discriminate H].
  apply findIndex_some in Ei as (l1 & x & l2 & Hc & <- & Hx & Hl).
  rewrite Hc, nth_error_middle, splice1_middle in H.
  injection H as <-. apply String.eqb_eq in Hx.
  exists l1, x, l2. repeat split; try assumption.
  intros Hin. apply in_map_iff in Hin as (y & Hy & Hin).
  specialize (Hl y Hin). apply String.eqb_neq in Hl. contradiction.
Qed.

Lemma deleteMedia_found (rid : string) (st : State) :
  In rid (map id (catalog st)) -> exists st', deleteMedia rid st = (Deleted, st').
Proof.
  intros H. unfold deleteMedia.
  destruct (findIndex _ (catalog st)) as [i|] eqn:Ei.
  - apply findIndex_some in Ei as (l1 & x & l2 & Hc & <- & Hx & Hl).
    rewrite Hc, nth_error_middle. eexists. reflexivity.
  - exfalso. apply in_map_iff in H as (x & Hx & Hin).
    clear - Ei Hx Hin. induction (catalog st) as [|y l IH]; [contradiction|].
    simpl in Ei. destruct (String.eqb (id y) rid) eqn:E; [discriminate Ei|].
    destruct (findIndex _ l); [discriminate Ei|].
    destruct Hin as [->|Hin]; [|now apply IH].
    rewrite Hx, String.eqb_refl in E. discriminate E.
Qed.

Lemma safe_is_no_separator (c : ascii) :
  isSafeUnit c = true -> negb (Faults.isSeparator c) = true.
Proof.
  destruct c as [[] [] [] [] [] [] [] []]; vm_compute; intros H;
    (reflexivity || discriminate H).
Qed.

(** The names the upload handler generates are names of entries of the
    upload directory. *)
Lemma uniqueName_isEntryName (n r : N) (s : string) :
  Faults.isEntryName (uniqueName n r s) = true.
Proof.
  assert (D : allUnits notDash (uniqueName n r s) = false).
  { unfold uniqueName. rewrite allUnits_app. cbn [append allUnits].
    change (notDash "-") with false. cbn [andb]. apply andb_false_r. }
  unfold Faults.isEntryName.
  rewrite (allUnits_weaken isSafeUnit _ _ safe_is_no_separator
             (uniqueName_safe n r s)), andb_true_r.
  destruct (String.eqb_spec (uniqueName n r s) "") as [E|_];
    [rewrite E in D; discriminate D|].
  destruct (String.eqb_spec (uniqueName n r s) ".") as [E|_];
    [rewrite E in D; discriminate D|].
  destruct (String.eqb_spec (uniqueName n r s) "..") as [E|_];
    [rewrite E in D; discriminate D|].
  reflexivity.
Qed.

Lemma fsRemove_In (n x : string) (fs : list string) :
  In x (fsRemove n fs) <-> In x fs /\ x <> n.
Proof.
  unfold fsRemove. rewrite filter_In. split; intros [H1 H2]; split;
    try exact H1.
  - intros ->. now rewrite String.eqb_refl in H2.
  - destruct (String.eqb_spec n x) as [->|_]; [contradiction|reflexivity].
Qed.

Lemma deleteMediaWith_deleted (o : Faults.Removal) (rid : string) (st : State) :
  Faults.response (Faults.deleteMediaWith o rid st) = Deleted ->
  exists l1 x l2,
    catalog st = (l1 ++ x :: l2)%list /\ id x = rid
    /\ ~ In rid (map id l1)
    /\ Faults.deleteMediaWith o rid st
       = {| Faults.response := Deleted;
            Faults.records := (l1 ++ l2)%list;
            Faults.entries := Faults.removeStored o (storedName x) (files st);
            Faults.jsonWrites := S (writes st) |}.
Proof.
  unfold Faults.deleteMediaWith.
  destruct (findIndex _ (catalog st)) as [i|] eqn:Ei; [|discriminate].
  apply findIndex_some in Ei as (l1 & x & l2 & Hc & <- & Hx & Hl).
  rewrite Hc, nth_error_middle, splice1_middle. intros _.
  apply String.eqb_eq in Hx.
  exists l1, x, l2. repeat split; try assumption.
  intros Hin. apply in_map_iff in Hin as (y & Hy & Hin).
  specialize (Hl y Hin). apply String.eqb_neq in Hl. contradiction.
Qed.
End MediaMoreFacts.

(* ================================================================= *)
(** * Further properties of the media catalog *)

Section MediaMoreClaims.
Import JS Spec Media Derived.
Local Open Scope string_scope.

(** X1.  An upload request of at most twenty files is answered 400 and
    changes nothing when it carries no file.  Otherwise it is answered
    with one record per file, in request order, each carrying its
    file's original name, size and MIME type and the uuid and date
    drawn for its position; these records are appended to the catalog,
    which is written once, and a listing afterwards shows the old
    records followed by the new. *)
Theorem upload_one_record_per_file :
  forall (draws : nat -> Draw) (uploads : list Upload) (st : State),
    List.length uploads <= 20 ->
    (uploads = [] -> postMedia draws uploads st = (NoFiles, st))
    /\ (uploads <> [] ->
        exists saved st',
          postMedia draws uploads st = (Saved saved, st')
          /\ map name saved = map up_originalname uploads
          /\ map size saved = map up_size uploads
          /\ map type saved = map up_mimetype uploads
          /\ (forall i r, nth_error saved i = Some r ->
                id r = uuid (draws i) /\ uploadDate r = iso (draws i))
          /\ listMedia st' = (listMedia st ++ saved)%list
          /\ writes st' = S (writes st)).
Proof.
  intros draws uploads st Hlen. split.
  - intros ->. reflexivity.
  - intros Hne. eexists _, _. split; [now apply postMedia_saved|].
    assert (M : forall (A : Type) (f : MediaRecord -> A) (g : Upload -> A),
               (forall iu, f (recordAt draws iu) = g (snd iu)) ->
               map f (map (recordAt draws) (indexed uploads)) = map g uploads).
    { intros A f g H. rewrite map_map.
      rewrite <- (indexed_snd uploads) at 2. rewrite map_map.
      apply map_ext. exact H. }
    split; [apply M; reflexivity|]. split; [apply M; reflexivity|].
    split; [apply M; reflexivity|]. split; [|split; reflexivity].
    intros i r H. rewrite nth_error_map, indexed_nth in H.
    destruct (nth_error uploads i) as [u|]; [|discriminate H].
    injection H as <-. split; reflexivity.
Qed.

(** X2.  Every record an upload returns has a stored name made only of
    letters, digits, dot, underscore and hyphen, so it holds no path
    separator, and its url is [/uploads/media/] followed by that
    name. *)
Theorem stored_name_has_safe_characters :
  forall (draws : nat -> Draw) (uploads : list Upload) (st st' : State)
         (saved : list MediaRecord) (r : MediaRecord),
    postMedia draws uploads st = (Saved saved, st') ->
    In r saved ->
    (forall i c, String.get i (storedName r) = Some c -> SafeUnit c)
    /\ (forall i, String.get i (storedName r) <> Some "/"%char)
    /\ url r = "/uploads/media/" ++ storedName r.
Proof.
  intros draws uploads st st' saved r H Hr.
  apply postMedia_inv in H as (_ & _ & ->).
  apply in_map_iff in Hr as (iu & <- & _).
  assert (S : allUnits isSafeUnit (storedName (recordAt draws iu)) = true).
  { unfold recordAt. rewrite storedName_recordOf. apply uniqueName_safe. }
  split; [|split; [|reflexivity]].
  - intros i c G. apply isSafeUnit_spec. exact (allUnits_get _ _ S i c G).
  - intros i G. assert (E := allUnits_get _ _ S i _ G). discriminate E.
Qed.

(** X3.  After an upload the file of every returned record is in the
    upload directory, every file that was there before still is, and
    nothing else has appeared. *)
Theorem upload_leaves_files_on_disk :
  forall (draws : nat -> Draw) (uploads : list Upload) (st st' : State)
         (saved : list MediaRecord),
    postMedia draws uploads st = (Saved saved, st') ->
    forall n, In n (files st') <-> In n (files st) \/ In n (map storedName saved).
Proof.
  intros draws uploads st st' saved H n.
  destruct (postMedia_inv _ _ _ _ _ H) as (Hlen & Hne & ->).
  rewrite postMedia_saved in H by assumption.
  injection H as <-. cbn [files].
  rewrite fold_fsWrite_In, map_map. reflexivity.
Qed.


(** X5.  A delete request is answered 404 exactly when no record has
    the id and with success exactly when one has; looking up the record
    at the index found never fails. *)
Theorem delete_not_found_iff_absent :
  forall (rid : string) (st : State),
    (fst (deleteMedia rid st) = NotFound <-> ~ In rid (map id (catalog st)))
    /\ (fst (deleteMedia rid st) = Deleted <-> In rid (map id (catalog st)))
    /\ fst (deleteMedia rid st) <> Crashed.
Proof.
  intros rid st.
  destruct (in_dec string_dec rid (map id (catalog st))) as [Hin|Hout].
  - destruct (deleteMedia_found rid st Hin) as (st' & E). rewrite E. cbn [fst].
    repeat split; try (intros; assumption || discriminate || tauto).
  - rewrite (deleteMedia_absent rid st Hout). cbn [fst].
    repeat split; try (intros; assumption || discriminate || tauto).
Qed.

(** X6.  A delete that is answered with success has written
    [media.json] once and removed exactly one record, the first with
    the requested id: the catalog is one shorter, the records of that
    id are one fewer, and every record of another id is kept.  What it
    does to the upload directory depends on the stored name of that
    record and on the removal.  When the name is that of an entry of the
    directory, as every name the upload handler generates is, a removal
    that succeeds leaves exactly the other entries, and a removal that
    throws leaves the directory as it was, the answer being success all
    the same.  When the name is not that of an entry, such as the empty
    name, what is removed is not one entry of the directory. *)
Theorem delete_effect :
  forall (o : Faults.Removal) (rid : string) (st : State),
    Faults.response (Faults.deleteMediaWith o rid st) = Deleted ->
    let out := Faults.deleteMediaWith o rid st in
    List.length (catalog st) = S (List.length (Faults.records out))
    /\ List.length (filter (fun m => String.eqb (id m) rid) (catalog st))
       = S (List.length (filter (fun m => String.eqb (id m) rid)
                                (Faults.records out)))
    /\ (forall r, id r <> rid ->
          (In r (Faults.records out) <-> In r (catalog st)))
    /\ Faults.jsonWrites out = S (writes st)
    /\ (exists l1 x l2,
          catalog st = (l1 ++ x :: l2)%list /\ id x = rid
          /\ ~ In rid (map id l1)
          /\ Faults.records out = (l1 ++ l2)%list
          /\ (Faults.isEntryName (storedName x) = false ->
              Faults.entries out = None)
          /\ (Faults.isEntryName (storedName x) = true ->
              o = Faults.RemovalThrew ->
              Faults.entries out = Some (files st))
          /\ (Faults.isEntryName (storedName x) = true ->
              o = Faults.RemovalDone ->
              exists fs', Faults.entries out = Some fs'
                /\ forall n, In n fs' <-> In n (files st) /\ n <> storedName x))
    /\ Faults.isEntryName "" = false
    /\ forall (d : Draw) (u : Upload),
         Faults.isEntryName (storedName (recordOf d (storeFile d u))) = true.
Proof.
  intros o rid st H out.
  destruct (deleteMediaWith_deleted o rid st H)
    as (l1 & x & l2 & Hc & Hx & Hl & E).
  unfold out. rewrite E.
  cbn [Faults.records Faults.entries Faults.jsonWrites]. rewrite Hc.
  split; [rewrite !length_app; simpl; lia|].
  split.
  { rewrite !filter_app. simpl. rewrite Hx, String.eqb_refl.
    rewrite !length_app. simpl. lia. }
  split.
  { intros r Hr. rewrite !in_app_iff. simpl. split; [tauto|].
    intros [K|[K|K]]; try tauto. subst r. contradiction. }
  split; [reflexivity|].
  split.
  { exists l1, x, l2. split; [reflexivity|]. split; [exact Hx|].
    split; [exact Hl|]. split; [reflexivity|].
    unfold Faults.removeStored.
    split; [intros N; now rewrite N|].
    split; [intros N ->; now rewrite N|].
    intros N ->. rewrite N. eexists. split; [reflexivity|].
    intros n. apply fsRemove_In. }
  split; [reflexivity|].
  intros d u. rewrite storedName_recordOf. apply uniqueName_isEntryName.
Qed.


End MediaMoreClaims.

(* ================================================================= *)
(** * Further facts about the track handler *)

Section TrackFacts.
Import JS Spec Analytics Derived.
Context {host : Host}.
Local Open Scope string_scope.

(** The three ways a call of the handler can end. *)
Lemma track_cases (env : Env) (req : Request) (db : list Event) :
  (isAdminPath (finalPath (bodyOf req)) = true
   /\ track env req db = (Ignored, db))
  \/ (isAdminPath (finalPath (bodyOf req)) = false
      /\ (readOk env = false \/ writeOk env = false)
      /\ track env req db = (FailedToTrack, db))
  \/ (isAdminPath (finalPath (bodyOf req)) = false
      /\ readOk env = true /\ writeOk env = true
      /\ track env req db
         = (Tracked (uuid1 env), (db ++ [eventOf env req (bodyOf req)])%list)).
Proof.
  unfold track.
  destruct (isAdminPath (finalPath (bodyOf req))); [left; tauto|right].
  destruct (readOk env); [|left; simpl; tauto].
  destruct (writeOk env); [right; tauto|left; simpl; tauto].
Qed.

Lemma jsor_truthy_or (a b : jsval) :
  truthy (jsor a b) = true \/ jsor a b = b.
Proof. unfold jsor. destruct (truthy a) eqn:E; [left; exact E|right; reflexivity]. Qed.

Lemma StronglySorted_snoc {A : Type} (R : A -> A -> Prop) (l : list A) (a : A) :
  StronglySorted R l -> (forall x, In x l -> R x a) ->
  StronglySorted R (l ++ [a])%list.
Proof.
  induction 1 as [|x l Hl IH Hx]; intros Ha; simpl.
  - constructor; constructor.
  - constructor.
    + apply IH. intros y Hy. apply Ha. now right.
    + apply Forall_app. split; [exact Hx|].
      constructor; [|constructor]. apply Ha. now left.
Qed.

Lemma filterEvents_snoc (t : Z) (p : string) (w : Z) (db : list Event) (e : Event) :
  windowMs p = Some w -> (t - w <= ts e)%Z -> isAdminPath (path e) = false ->
  filterEvents t p (db ++ [e])%list = (filterEvents t p db ++ [e])%list.
Proof.
  intros Hw Hin Ha. unfold filterEvents. rewrite Hw, filter_app. simpl.
  rewrite Ha. replace (t - w <=? ts e)%Z with true
    by (symmetry; now apply Z.leb_le).
  reflexivity.
Qed.

Lemma nodup_snoc_length {A : Type} (dec : forall x y : A, {x = y} + {x <> y})
    (l : list A) (a : A) :
  List.length (nodup dec (l ++ [a])%list)
  = if in_dec dec a l then List.length (nodup dec l)
    else S (List.length (nodup dec l)).
Proof.
  destruct (in_dec dec a l) as [Hin|Hout].
  - apply Permutation_length, NoDup_Permutation; try apply NoDup_nodup.
    intros x. rewrite !nodup_In, in_app_iff. simpl.
    split; [intros [H|[<-|[]]]; assumption|tauto].
  - change (S (List.length (nodup dec l)))
      with (List.length (a :: nodup dec l)).
    apply Permutation_length, NoDup_Permutation.
    + apply NoDup_nodup.
    + constructor; [now rewrite nodup_In|apply NoDup_nodup].
    + intros x. simpl. rewrite !nodup_In, in_app_iff. simpl. tauto.
Qed.
End TrackFacts.

(* ================================================================= *)
(** * Further properties of the track handler *)

Section TrackClaims.
Import JS Spec Analytics Derived.
Context {host : Host}.
Local Open Scope string_scope.

(** X9.  In the event a successful call stores, the type is [pageview]
    when the body has none and the body's otherwise; the referrer is
    the body's when truthy, else the Referer header when truthy, else
    the empty string; the device is the body's when truthy, else the
    User-Agent header when truthy, else the empty string; the session
    id is the body's when truthy, else a fresh uuid.  So a stored
    referrer or device is truthy or the empty string, and a stored
    session id is truthy. *)
Theorem tracked_event_fields :
  forall (env : Env) (req : Request) (db : list Event) (eid : string)
         (e : Event),
    track env req db = (Tracked eid, (db ++ [e])%list) ->
    let b := bodyOf req in
    (b_type b = JUndefined -> type e = JStr "pageview")
    /\ (b_type b <> JUndefined -> type e = b_type b)
    /\ referrer e
       = (if truthy (b_referrer b) then b_referrer b
          else if truthy (referer req) then referer req else JStr "")
    /\ device e
       = (if truthy (b_device b) then b_device b
          else if truthy (userAgent req) then userAgent req else JStr "")
    /\ sessionId e
       = (if truthy (b_sessionId b) then b_sessionId b else JStr (uuid2 env))
    /\ (truthy (referrer e) = true \/ referrer e = JStr "")
    /\ (truthy (device e) = true \/ device e = JStr "")
    /\ (uuid2 env <> "" -> truthy (sessionId e) = true).
Proof.
  intros env req db eid e H b.
  assert (E : e = eventOf env req b).
  { destruct (track_cases env req db)
      as [(_ & T)|[(_ & _ & T)|(_ & _ & _ & T)]];
      rewrite T in H; try discriminate H.
    injection H as _ H. apply app_inj_tail in H as [_ H]. now symmetry. }
  subst e. cbn [eventOf type referrer device sessionId].
  split; [intros ->; reflexivity|].
  split; [intros N; destruct (b_type b); try reflexivity; contradiction|].
  unfold jsor.
  split; [destruct (truthy (b_referrer b)) eqn:R1; rewrite ?R1;
          [reflexivity|destruct (truthy (referer req)); reflexivity]|].
  split; [destruct (truthy (b_device b)) eqn:D1;
          [reflexivity|destruct (truthy (userAgent req)); reflexivity]|].
  split; [reflexivity|].
  split.
  { destruct (truthy (b_referrer b)) eqn:R1; rewrite ?R1; [now left|].
    destruct (truthy (referer req)) eqn:R2; rewrite ?R2; [now left|now right]. }
  split.
  { destruct (truthy (b_device b)) eqn:D1; [now left|].
    destruct (truthy (userAgent req)) eqn:D2; [now left|now right]. }
  intros U. destruct (truthy (b_sessionId b)) eqn:S1; [exact S1|].
  simpl. destruct (uuid2 env); [contradiction|reflexivity].
Qed.

(** X10.  A log built from the empty log by tracking calls, the clock
    never going back, holds no administrative path, is ordered by
    timestamp, and gives every event a truthy session id.  On such a
    log the window filter keeps exactly the events of the window: its
    exclusion of administrative paths removes nothing. *)
Theorem reachable_log_invariants :
  forall log : list Event,
    Reachable log ->
    NoAdmin log
    /\ Chronological log
    /\ Forall (fun e => truthy (sessionId e) = true) log
    /\ forall t p w, windowMs p = Some w ->
         filterEvents t p log = filter (fun e => (t - w <=? ts e)%Z) log.
Proof.
  intros log R.
  assert (I : NoAdmin log /\ Chronological log
              /\ Forall (fun e => truthy (sessionId e) = true) log).
  { induction R as [|env req db R IH Hclock Huuid].
    - repeat split; constructor.
    - destruct IH as (IA & IC & IS).
      destruct (track_cases env req db)
        as [(_ & T)|[(_ & _ & T)|(A & _ & _ & T)]]; rewrite T; cbn [snd];
        try (repeat split; assumption).
      split; [|split].
      + apply Forall_app. split; [exact IA|]. constructor; [exact A|constructor].
      + apply StronglySorted_snoc; [exact IC|]. intros x Hx.
        cbn [eventOf ts]. now apply Hclock.
      + apply Forall_app. split; [exact IS|]. constructor; [|constructor].
        cbn [eventOf sessionId]. unfold jsor.
        destruct (truthy (b_sessionId (bodyOf req))) eqn:S1; [exact S1|].
        simpl. destruct (uuid2 env); [contradiction|reflexivity]. }
  destruct I as (IA & IC & IS). repeat split; try assumption.
  intros t p w Hw. unfold filterEvents. rewrite Hw.
  apply filter_ext_in. intros e He.
  unfold NoAdmin in IA. rewrite Forall_forall in IA.
  rewrite (IA e He). apply andb_true_r.
Qed.

(** X11.  After a successful tracking call, a summary whose window
    reaches back to the call's clock reading counts one page view
    more.  It counts one visitor more when the event's session has no
    other event in the window, and the same number otherwise. *)
Theorem tracked_event_is_counted :
  forall (env : Env) (req : Request) (db db' : list Event) (eid : string)
         (t w : Z) (q : option string),
    track env req db = (Tracked eid, db') ->
    windowMs (periodOf q) = Some w ->
    (t - w <= now env)%Z ->
    pageViews (summary t q db') = S (pageViews (summary t q db))
    /\ exists e, db' = (db ++ [e])%list
         /\ visitors (summary t q db')
            = if in_dec jsval_eq_dec (sessionId e)
                        (map sessionId (filterEvents t (periodOf q) db))
              then visitors (summary t q db)
              else S (visitors (summary t q db)).
Proof.
  intros env req db db' eid t w q H Hw Hin.
  destruct (track_cases env req db)
    as [(_ & T)|[(_ & _ & T)|(A & _ & _ & T)]];
    rewrite T in H; try discriminate H.
  injection H as _ <-.
  set (e := eventOf env req (bodyOf req)).
  assert (F : filterEvents t (periodOf q) (db ++ [e])%list
              = (filterEvents t (periodOf q) db ++ [e])%list).
  { apply (filterEvents_snoc t _ w); [exact Hw|exact Hin|exact A]. }
  split.
  - unfold summary. cbn [pageViews]. rewrite F, length_app. simpl. lia.
  - exists e. split; [reflexivity|].
    unfold summary. cbn [visitors]. unfold setSize.
    rewrite F, map_app. simpl. apply nodup_snoc_length.
Qed.

(** X12.  After a successful tracking call the first row of the
    realtime feed is the row of the event just stored, showing its
    final path, and the feed holds at most twenty rows. *)
Theorem tracked_event_heads_realtime :
  forall (env : Env) (req : Request) (db db' : list Event) (eid : string),
    track env req db = (Tracked eid, db') ->
    exists e rest,
      db' = (db ++ [e])%list
      /\ realtime db' = rowOf e :: rest
      /\ page (rowOf e) = finalPath (bodyOf req)
      /\ List.length (realtime db') <= 20.
Proof.
  intros env req db db' eid H.
  destruct (track_cases env req db)
    as [(_ & T)|[(_ & _ & T)|(A & _ & _ & T)]];
    rewrite T in H; try discriminate H.
  injection H as _ <-.
  exists (eventOf env req (bodyOf req)).
  exists (map rowOf (firstn 19 (rev db))).
  split; [reflexivity|]. unfold realtime. rewrite recent_slice.
  split; [rewrite rev_app_distr; reflexivity|].
  split; [reflexivity|].
  rewrite length_map. apply firstn_le_length.
Qed.

End TrackClaims.

(* ================================================================= *)
(** * Further facts about windows and the summary *)

Section WindowFacts.
Import JS Spec Analytics Derived.
Local Open Scope string_scope.

Lemma filter_length_mono {A : Type} (f g : A -> bool) (l : list A) :
  (forall x, In x l -> f x = true -> g x = true) ->
  (List.length (filter f l) <= List.length (filter g l))%nat.
Proof.
  induction l as [|x l IH]; intros H; simpl; [lia|].
  assert (IH' := IH (fun y Hy => H y (or_intror Hy))).
  destruct (f x) eqn:Fx.
  - rewrite (H x (or_introl eq_refl) Fx). simpl. lia.
  - destruct (g x); simpl; lia.
Qed.

Lemma Permutation_filter {A : Type} (f : A -> bool) (l l' : list A) :
  Permutation l l' -> Permutation (filter f l) (filter f l').
Proof.
  induction 1 as [|x l l' _ IH|x y l|l l' l'' _ IH1 _ IH2]; simpl.
  - reflexivity.
  - destruct (f x); [now constructor|exact IH].
  - destruct (f x), (f y); try reflexivity. apply perm_swap.
  - now transitivity (filter f l').
Qed.

Lemma filterEvents_perm (t : Z) (p : string) (l l' : list Event) :
  Permutation l l' ->
  Permutation (filterEvents t p l) (filterEvents t p l').
Proof.
  intros H. unfold filterEvents.
  destruct (windowMs p); [now apply Permutation_filter|reflexivity].
Qed.

Lemma filterEvents_wider (t w1 w2 : Z) (p1 p2 : string) (l : list Event) :
  windowMs p1 = Some w1 -> windowMs p2 = Some w2 -> (w1 <= w2)%Z ->
  incl (filterEvents t p1 l) (filterEvents t p2 l).
Proof.
  intros H1 H2 Hw e. unfold filterEvents. rewrite H1, H2, !filter_In.
  intros [Hin H]. split; [exact Hin|].
  apply andb_true_iff in H as [Ht Ha]. rewrite Ha, andb_true_r.
  apply Z.leb_le in Ht. apply Z.leb_le. lia.
Qed.

Lemma filterEvents_wider_length (t w1 w2 : Z) (p1 p2 : string) (l : list Event) :
  windowMs p1 = Some w1 -> windowMs p2 = Some w2 -> (w1 <= w2)%Z ->
  (List.length (filterEvents t p1 l) <= List.length (filterEvents t p2 l))%nat.
Proof.
  intros H1 H2 Hw. unfold filterEvents. rewrite H1, H2.
  apply filter_length_mono. intros e _ H.
  apply andb_true_iff in H as [Ht Ha]. rewrite Ha, andb_true_r.
  apply Z.leb_le in Ht. apply Z.leb_le. lia.
Qed.

Lemma setSize_incl {A : Type} (dec : forall x y : A, {x = y} + {x <> y})
    (l l' : list A) :
  incl l l' -> (setSize dec l <= setSize dec l')%nat.
Proof.
  intros H. unfold setSize. apply NoDup_incl_length; [apply NoDup_nodup|].
  intros x Hx. apply nodup_In. apply H. now apply nodup_In in Hx.
Qed.

Lemma member_absent (table : list (string * Z)) (p : string) :
  ~ In p (map fst table) -> ~ In p objectPrototypeKeys ->
  member table p = Absent.
Proof.
  intros Ht Hp. induction table as [|[k n] table IH]; cbn [member].
  - destruct (existsb (String.eqb p) objectPrototypeKeys) eqn:E;
      [|reflexivity].
    apply existsb_exists in E as (x & Hx & Ex). apply String.eqb_eq in Ex.
    subst x. contradiction.
  - simpl in Ht. destruct (String.eqb_spec p k) as [->|_]; [tauto|].
    apply IH. tauto.
Qed.

Lemma member_inherited (table : list (string * Z)) (p : string) :
  ~ In p (map fst table) -> In p objectPrototypeKeys ->
  member table p = Inherited.
Proof.
  intros Ht Hp. induction table as [|[k n] table IH]; cbn [member].
  - replace (existsb (String.eqb p) objectPrototypeKeys) with true;
      [reflexivity|].
    symmetry. apply existsb_exists. exists p. split; [exact Hp|].
    apply String.eqb_refl.
  - simpl in Ht. destruct (String.eqb_spec p k) as [->|_]; [tauto|].
    apply IH. tauto.
Qed.

Lemma inherited_is_no_token (p : string) :
  In p objectPrototypeKeys -> ~ In p periodTokens.
Proof.
  unfold objectPrototypeKeys, periodTokens. simpl.
  intros H T.
  repeat (destruct H as [H|H]; [subst p; intuition discriminate|]).
  exact H.
Qed.

Lemma sessions_nonempty (evs : list Event) :
  List.length (sessionsOf evs) = 0%nat -> evs = [].
Proof.
  unfold sessionsOf. destruct evs as [|e evs]; [reflexivity|].
  intros H. exfalso.
  assert (I : In (sessionId e) (nodup jsval_eq_dec (map sessionId (e :: evs)))).
  { apply nodup_In. now left. }
  destruct (nodup jsval_eq_dec (map sessionId (e :: evs))); [exact I|discriminate H].
Qed.

Lemma sessions_le_views (evs : list Event) :
  (List.length (sessionsOf evs) <= List.length evs)%nat.
Proof.
  unfold sessionsOf. rewrite <- (length_map sessionId evs).
  apply NoDup_incl_length; [apply NoDup_nodup|].
  intros k. apply nodup_In.
Qed.

Lemma bouncedSessions_perm (evs evs' : list Event) :
  Permutation evs evs' ->
  List.length (bouncedSessions evs) = List.length (bouncedSessions evs').
Proof.
  intros P. unfold bouncedSessions, sessionsOf.
  assert (Pm : Permutation (map sessionId evs) (map sessionId evs'))
    by now apply Permutation_map.
  assert (Pc := proj1 (Permutation_count_occ jsval_eq_dec _ _) Pm).
  rewrite (filter_ext _ (fun s => count_occ jsval_eq_dec (map sessionId evs') s =? 1)%nat)
    by (intros s; now rewrite Pc).
  apply filter_length_perm, NoDup_Permutation; try apply NoDup_nodup.
  intros k. rewrite !nodup_In. split; apply Permutation_in;
    [exact Pm|now symmetry].
Qed.
End WindowFacts.

(* ================================================================= *)
(** * Further properties of windows and the summary *)

Section WindowClaims.
Import JS Spec Analytics Derived.
Context {host : Host}.
Local Open Scope string_scope.

(** X13.  Of two periods the one with the longer window keeps every
    event the other keeps, so its summary has at least as many page
    views and visitors.  In particular page views never decrease along
    1d, 7d, 30d, 90d, 1y. *)
Theorem wider_window_counts_more :
  forall (t w1 w2 : Z) (q1 q2 : option string) (l : list Event),
    windowMs (periodOf q1) = Some w1 ->
    windowMs (periodOf q2) = Some w2 ->
    (w1 <= w2)%Z ->
    (forall e, In e (filterEvents t (periodOf q1) l) ->
               In e (filterEvents t (periodOf q2) l))
    /\ (pageViews (summary t q1 l) <= pageViews (summary t q2 l))%nat
    /\ (visitors (summary t q1 l) <= visitors (summary t q2 l))%nat
    /\ (pageViews (summary t (Some "1d") l)
        <= pageViews (summary t (Some "7d") l))%nat
    /\ (pageViews (summary t (Some "7d") l)
        <= pageViews (summary t (Some "30d") l))%nat
    /\ (pageViews (summary t (Some "30d") l)
        <= pageViews (summary t (Some "90d") l))%nat
    /\ (pageViews (summary t (Some "90d") l)
        <= pageViews (summary t (Some "1y") l))%nat.
Proof.
  intros t w1 w2 q1 q2 l H1 H2 Hw.
  assert (I := filterEvents_wider t w1 w2 _ _ l H1 H2 Hw).
  split; [exact I|].
  split; [unfold summary; cbn [pageViews];
          now apply (filterEvents_wider_length t w1 w2)|].
  split.
  { unfold summary. cbn [visitors]. apply setSize_incl.
    intros k Hk. apply in_map_iff in Hk as (e & <- & He).
    apply in_map. now apply I. }
  unfold summary. cbn [pageViews periodOf String.eqb Ascii.eqb Bool.eqb].
  repeat split.
  - apply (filterEvents_wider_length t dayMs (7 * dayMs)); try reflexivity.
    unfold dayMs; lia.
  - apply (filterEvents_wider_length t (7 * dayMs) (30 * dayMs));
      try reflexivity. unfold dayMs; lia.
  - apply (filterEvents_wider_length t (30 * dayMs) (90 * dayMs));
      try reflexivity. unfold dayMs; lia.
  - apply (filterEvents_wider_length t (90 * dayMs) (365 * dayMs));
      try reflexivity. unfold dayMs; lia.
Qed.

(** X14.  A period that is none of the five tokens, and no name of a
    member inherited from [Object.prototype], is treated as [7d] by
    every query; so are an absent and an empty period. *)
Theorem unknown_period_is_seven_days :
  forall (t t' : Z) (q : option string) (l : list Event),
    ~ In (periodOf q) periodTokens ->
    ~ In (periodOf q) objectPrototypeKeys ->
    summary t q l = summary t (Some "7d") l
    /\ timeseries t t' q l = timeseries t t' (Some "7d") l
    /\ topPages t q l = topPages t (Some "7d") l
    /\ sources t q l = sources t (Some "7d") l
    /\ devices t q l = devices t (Some "7d") l
    /\ periodOf None = "7d" /\ periodOf (Some "") = "7d".
Proof.
  intros t t' q l Ht Hp.
  assert (F : filterEvents t (periodOf q) l = filterEvents t "7d" l).
  { unfold filterEvents, windowMs.
    rewrite (member_absent windowTable) by assumption. reflexivity. }
  assert (D : String.eqb (periodOf q) "1d" = false).
  { apply String.eqb_neq. intros E. apply Ht. rewrite E. simpl. tauto. }
  assert (B : bucketCount (periodOf q) = 7%nat).
  { unfold bucketCount. rewrite (member_absent daysTable); [reflexivity| |exact Hp].
    intros H. apply Ht. simpl in *. tauto. }
  unfold summary, timeseries, topPages, sources, devices.
  change (periodOf (Some "7d")) with "7d".
  rewrite F, D, B. repeat split.
Qed.

(** X15.  A period that names a member every object inherits, such as
    [constructor] or [toString], makes every query answer as for an
    empty log: no visitors, no page views, a bounce rate of 0, no
    buckets, no pages, no sources, no devices. *)
Theorem inherited_period_empties_results :
  forall (t t' : Z) (q : option string) (l : list Event),
    In (periodOf q) objectPrototypeKeys ->
    summary t q l = mkSummary 0 0 (S754_zero false)
    /\ timeseries t t' q l = ([], [])
    /\ topPages t q l = []
    /\ sources t q l = []
    /\ devices t q l = [].
Proof.
  intros t t' q l Hp.
  assert (Ht := inherited_is_no_token _ Hp).
  assert (F : filterEvents t (periodOf q) l = []).
  { unfold filterEvents, windowMs.
    rewrite (member_inherited windowTable) by assumption. reflexivity. }
  assert (D : String.eqb (periodOf q) "1d" = false).
  { apply String.eqb_neq. intros E. apply Ht. rewrite E. simpl. tauto. }
  assert (B : bucketCount (periodOf q) = 0%nat).
  { unfold bucketCount. rewrite (member_inherited daysTable); [reflexivity| |exact Hp].
    intros H. apply Ht. simpl in *. tauto. }
  unfold summary, timeseries, topPages, sources, devices.
  rewrite F, D, B. repeat split.
Qed.

(** X16.  In every summary of a log shorter than 2^32 the visitors are
    at most the page views, and there is no visitor exactly when there
    is no page view.  The bounce rate is exactly 0 when no session of
    the window has a single event, and exactly 100 when every session
    has. *)
Theorem summary_bounds :
  forall (t : Z) (q : option string) (events : list Event),
    (Z.of_nat (List.length events) < 2 ^ 32)%Z ->
    let evs := filterEvents t (periodOf q) events in
    let total := List.length (sessionsOf evs) in
    let bounced := List.length (bouncedSessions evs) in
    let s := summary t q events in
    (visitors s <= pageViews s)%nat
    /\ (visitors s = 0%nat <-> pageViews s = 0%nat)
    /\ (bounced = 0%nat -> bounceRate s = S754_zero false)
    /\ ((0 < total)%nat -> bounced = total ->
        bounceRate s = Binary64.ofZ 100).
Proof.
  intros t q events Hlen evs total bounced s.
  assert (R : bounceRate s = bounceRateOf bounced total).
  { unfold s, summary. cbn [bounceRate]. fold evs.
    now rewrite bounces_counted. }
  assert (Ht : (total <= List.length events)%nat) by apply sessions_le_events.
  split; [apply sessions_le_views|].
  split.
  { unfold s, summary. cbn [visitors pageViews]. fold evs. split.
    - intros H. apply sessions_nonempty in H. now rewrite H.
    - intros H. destruct evs; [reflexivity|discriminate H]. }
  split.
  - intros H0. rewrite R, H0. unfold bounceRateOf.
    destruct (Nat.eqb_spec total 0) as [_|N]; [reflexivity|].
    destruct (tenthsOf_nearest 0 total ltac:(lia) ltac:(lia) ltac:(lia))
      as (T & ET & Near).
    rewrite ET. replace T with 0%Z by nia. reflexivity.
  - intros Hpos Hall. rewrite R, Hall. unfold bounceRateOf.
    destruct (Nat.eqb_spec total 0) as [E|_]; [lia|].
    destruct (tenthsOf_nearest total total Hpos ltac:(lia) ltac:(lia))
      as (T & ET & Near).
    rewrite ET. replace T with 1000%Z by nia. vm_compute. reflexivity.
Qed.

(** X17.  The summary does not depend on the order of the log: two
    logs with the same events in any order have the same summary. *)
Theorem summary_order_independent :
  forall (t : Z) (q : option string) (l l' : list Event),
    Permutation l l' -> summary t q l = summary t q l'.
Proof.
  intros t q l l' P.
  assert (Pf := filterEvents_perm t (periodOf q) l l' P).
  unfold summary. rewrite !bounces_counted.
  rewrite (bouncedSessions_perm _ _ Pf), (Permutation_length Pf).
  assert (S : setSize jsval_eq_dec (map sessionId (filterEvents t (periodOf q) l))
              = setSize jsval_eq_dec (map sessionId (filterEvents t (periodOf q) l'))).
  { apply Nat.le_antisymm; apply setSize_incl; intros k Hk;
      (eapply Permutation_in; [|exact Hk]); apply Permutation_map;
      [exact Pf|now symmetry]. }
  now rewrite S.
Qed.

End WindowClaims.

(* ================================================================= *)
(** * Further facts about buckets and counts *)

Section BucketFacts.
Import JS Spec Analytics Derived.
Context {host : Host}.
Local Open Scope string_scope.

Lemma bumpAt_label (i : nat) (bs : list Bucket) :
  map label (bumpAt i bs) = map label bs.
Proof.
  revert i; induction bs as [|b bs IH]; intros [|i]; simpl; try reflexivity.
  now rewrite IH.
Qed.

Lemma bumpAt_sum (i : nat) (bs : list Bucket) :
  (i < List.length bs)%nat ->
  list_sum (map value (bumpAt i bs)) = S (list_sum (map value bs)).
Proof.
  revert i; induction bs as [|b bs IH]; intros [|i] H; simpl in *; try lia.
  rewrite IH by lia. lia.
Qed.

Lemma bumpAt_nth (i h : nat) (bs : list Bucket) :
  (i < List.length bs)%nat ->
  nth h (map value (bumpAt i bs)) 0%nat
  = (nth h (map value bs) 0 + if (i =? h)%nat then 1 else 0)%nat.
Proof.
  revert i h; induction bs as [|b bs IH]; intros [|i] [|h] H; simpl in *;
    try lia.
  now apply IH; lia.
Qed.

Lemma bumpAt_length (i : nat) (bs : list Bucket) :
  List.length (bumpAt i bs) = List.length bs.
Proof. rewrite <- (length_map label), bumpAt_label. apply length_map. Qed.

(** The hourly buckets after the events of a window have been put in. *)
Lemma hourly_fold (evs : list Event) (bs : list Bucket) :
  List.length bs = 24%nat ->
  let out := fold_left (fun bs e => bumpAt (getHours (ts e)) bs) evs bs in
  map label out = map label bs
  /\ list_sum (map value out) = (list_sum (map value bs) + List.length evs)%nat
  /\ forall h, nth h (map value out) 0%nat
               = (nth h (map value bs) 0
                  + List.length (filter (fun e => (getHours (ts e) =? h)%nat) evs))%nat.
Proof.
  revert bs; induction evs as [|e evs IH]; intros bs Hb; cbn [fold_left].
  - repeat split; simpl; lia.
  - assert (L : (getHours (ts e) < List.length bs)%nat)
      by (rewrite Hb; apply getHours_lt).
    destruct (IH (bumpAt (getHours (ts e)) bs)
                 ltac:(now rewrite bumpAt_length)) as (I1 & I2 & I3).
    split; [now rewrite I1, bumpAt_label|].
    split; [rewrite I2, bumpAt_sum by exact L; simpl; lia|].
    intros h. rewrite I3, bumpAt_nth by exact L. simpl.
    destruct (getHours (ts e) =? h)%nat; simpl; lia.
Qed.

Lemma bumpKey_shape (k : string) (bs : list Bucket) :
  map label (bumpKey k bs) = map label bs
  /\ map key (bumpKey k bs) = map key bs
  /\ list_sum (map value (bumpKey k bs))
     = (list_sum (map value bs) + if existsb (hasKey k) bs then 1 else 0)%nat.
Proof.
  induction bs as [|b bs (I1 & I2 & I3)]; [repeat split|].
  cbn [bumpKey existsb]. unfold hasKey at 1.
  destruct (key b) as [k'|] eqn:Kb.
  - destruct (String.eqb k' k); cbn [map list_sum orb incr label key value].
    + repeat split; try (rewrite Kb; reflexivity). simpl. lia.
    + rewrite I1, I2. repeat split. simpl. rewrite I3. lia.
  - cbn [map list_sum orb]. rewrite I1, I2. repeat split. simpl.
    rewrite I3. lia.
Qed.

Lemma existsb_hasKey (k : string) (bs bs' : list Bucket) :
  map key bs = map key bs' -> existsb (hasKey k) bs = existsb (hasKey k) bs'.
Proof.
  revert bs'; induction bs as [|b bs IH]; intros [|b' bs'] H;
    try discriminate H; [reflexivity|].
  injection H as Hk H. simpl. unfold hasKey at 1 3. rewrite Hk.
  now rewrite (IH bs').
Qed.

(** The daily buckets after the events of a window have been put in. *)
Lemma daily_fold (evs : list Event) (bs : list Bucket) :
  let out := fold_left (fun bs e => bumpKey (toDateString (ts e)) bs) evs bs in
  map label out = map label bs
  /\ map key out = map key bs
  /\ list_sum (map value out)
     = (list_sum (map value bs)
        + List.length
            (filter (fun e => existsb (hasKey (toDateString (ts e))) bs) evs))%nat.
Proof.
  revert bs; induction evs as [|e evs IH]; intros bs; cbn [fold_left].
  - repeat split; simpl; lia.
  - destruct (bumpKey_shape (toDateString (ts e)) bs) as (B1 & B2 & B3).
    destruct (IH (bumpKey (toDateString (ts e)) bs)) as (I1 & I2 & I3).
    split; [now rewrite I1|]. split; [now rewrite I2|].
    rewrite I3, B3. cbn [filter].
    rewrite (filter_ext _ (fun e0 => existsb (hasKey (toDateString (ts e0))) bs))
      by (intros e0; now apply existsb_hasKey).
    destruct (existsb (hasKey (toDateString (ts e))) bs); simpl; lia.
Qed.

Lemma bump_total {K : Type} (dec : forall x y : K, {x = y} + {x <> y})
    (m : list (K * nat)) (k : K) :
  totalCount (bump dec m k) = S (totalCount m).
Proof.
  unfold totalCount, bump. induction m as [|[k' c] m IH]; [reflexivity|].
  cbn [mapGet mapSet]. destruct (dec k k'); cbn [map snd].
  - simpl. lia.
  - simpl. simpl in IH. rewrite IH. lia.
Qed.

(** Grouping loses no element: the counts add up to the length. *)
Lemma countBy_total {E K : Type} (dec : forall x y : K, {x = y} + {x <> y})
    (f : E -> K) (xs : list E) :
  totalCount (countBy dec f xs) = List.length xs.
Proof.
  unfold countBy.
  assert (G : forall m, totalCount (fold_left (fun m e => bump dec m (f e)) xs m)
                        = (totalCount m + List.length xs)%nat).
  { induction xs as [|x xs IH]; intros m; cbn [fold_left List.length]; [lia|].
    rewrite IH, bump_total. lia. }
  now rewrite G.
Qed.

Lemma countBy_entry {E K : Type} (dec : forall x y : K, {x = y} + {x <> y})
    (f : E -> K) (xs : list E) (k : K) (c : nat) :
  In (k, c) (countBy dec f xs) ->
  (0 < c)%nat /\ c = count_occ dec (map f xs) k.
Proof.
  rewrite countBy_groupCount. intros H.
  apply groupCount_entry in H. tauto.
Qed.

Lemma countBy_NoDup {E K : Type} (dec : forall x y : K, {x = y} + {x <> y})
    (f : E -> K) (xs : list E) :
  NoDup (map fst (countBy dec f xs)).
Proof.
  rewrite countBy_groupCount, groupCount_keys. apply firstOccurrences_NoDup.
Qed.

Lemma totalCount_firstn {K : Type} (n : nat) (l : list (K * nat)) :
  (totalCount (firstn n l) <= totalCount l)%nat.
Proof.
  unfold totalCount. revert n; induction l as [|x l IH]; intros [|n]; simpl;
    try lia.
  specialize (IH n). lia.
Qed.

Lemma countGe_transitive {K : Type} :
  Relations_1.Transitive (@countGe K).
Proof. intros x y z H1 H2. unfold countGe in *. lia. Qed.
End BucketFacts.

Section CountFacts.
Import JS Spec Analytics Derived.
Local Open Scope string_scope.

Lemma count_occ_as_filter {E K : Type} (dec : forall x y : K, {x = y} + {x <> y})
    (f : E -> K) (xs : list E) (k : K) :
  count_occ dec (map f xs) k
  = List.length (filter (fun e => if dec (f e) k then true else false) xs).
Proof.
  induction xs as [|x xs IH]; simpl; [reflexivity|].
  destruct (dec (f x) k); simpl; now rewrite IH.
Qed.

Lemma nth_all_zero (l : list nat) (h : nat) :
  Forall (fun v => v = 0%nat) l -> nth h l 0%nat = 0%nat.
Proof.
  intros H. revert h. induction H as [|v l Hv _ IH]; intros [|h]; simpl;
    try reflexivity; [exact Hv|apply IH].
Qed.

Lemma existsb_map {A B : Type} (p : B -> bool) (f : A -> B) (l : list A) :
  existsb p (map f l) = existsb (fun a => p (f a)) l.
Proof. induction l as [|a l IH]; simpl; [|rewrite IH]; reflexivity. Qed.

Lemma regex_on_falsy_renderings :
  regexTestI mobilePattern "null" = false
  /\ regexTestI tabletPattern "null" = false
  /\ regexTestI mobilePattern "false" = false
  /\ regexTestI tabletPattern "false" = false
  /\ regexTestI mobilePattern "0" = false
  /\ regexTestI tabletPattern "0" = false
  /\ regexTestI mobilePattern "" = false
  /\ regexTestI tabletPattern "" = false.
Proof. repeat split. Qed.
End CountFacts.

Section HourlyFacts.
Import JS Spec Analytics Derived.
Context {host : Host}.
Local Open Scope string_scope.

Lemma hourly_is_fold (evs : list Event) (bs out : list Bucket) :
  Faults.hourly evs bs = Some out ->
  out = fold_left (fun bs e => bumpAt (getHours (ts e)) bs) evs bs.
Proof.
  revert bs; induction evs as [|e evs IH]; intros bs; cbn [Faults.hourly fold_left].
  - intros H. now injection H as <-.
  - destruct (Faults.isValidTime (ts e)); [apply IH|discriminate].
Qed.

Lemma hourly_throws_iff (evs : list Event) (bs : list Bucket) :
  Faults.hourly evs bs = None
  <-> exists e, In e evs /\ Faults.isValidTime (ts e) = false.
Proof.
  revert bs; induction evs as [|e evs IH]; intros bs; cbn [Faults.hourly].
  - split; [discriminate|intros (e & [] & _)].
  - destruct (Faults.isValidTime (ts e)) eqn:V.
    + rewrite IH. split.
      * intros (x & Hx & Vx). exists x. split; [now right|exact Vx].
      * intros (x & [<-|Hx] & Vx); [congruence|now exists x].
    + split; [|reflexivity]. intros _. exists e. split; [now left|exact V].
Qed.
End HourlyFacts.

(* ================================================================= *)
(** * Further properties of the queries *)

Section QueryClaims.
Import JS Spec Analytics Derived.
Context {host : Host}.
Local Open Scope string_scope.

(** X18.  For the period 1d the timeseries handler throws, instead
    of answering, exactly when some event of the window has a time
    value outside the range of a date: its hour is not a number and no
    bucket is found for it.  When it answers, it answers with the 24
    labels 0:00 to 23:00; the value at hour h is the number of events
    of the window whose local hour is h, and the values add up to the
    page views of the window: no event is dropped. *)
Theorem hourly_timeseries_counts_every_event :
  forall (t t' : Z) (l : list Event),
    let evs := filterEvents t "1d" l in
    (Faults.timeseriesHourly t l = None
     <-> exists e, In e evs /\ ~ (- Faults.maxTime <= ts e <= Faults.maxTime)%Z)
    /\ forall out, Faults.timeseriesHourly t l = Some out ->
         out = timeseries t t' (Some "1d") l
         /\ fst out = map (fun i => decimalN (N.of_nat i) ++ ":00") (seq 0 24)
         /\ List.length (snd out) = 24%nat
         /\ list_sum (snd out) = pageViews (summary t (Some "1d") l)
         /\ forall h, nth h (snd out) 0%nat
              = List.length (filter (fun e => (getHours (ts e) =? h)%nat) evs).
Proof.
  intros t t' l evs.
  assert (V : forall z, Faults.isValidTime z = false
                        <-> ~ (- Faults.maxTime <= z <= Faults.maxTime)%Z).
  { intros z. unfold Faults.isValidTime.
    rewrite andb_false_iff, !Z.leb_gt. lia. }
  split.
  - unfold Faults.timeseriesHourly. fold evs.
    destruct (Faults.hourly evs hourBuckets) as [bs|] eqn:E.
    + split; [discriminate|]. intros (e & He & Ve).
      assert (N : Faults.hourly evs hourBuckets = None).
      { apply hourly_throws_iff. exists e. split; [exact He|now apply V]. }
      congruence.
    + split; [|reflexivity]. intros _.
      apply hourly_throws_iff in E as (e & He & Ve).
      exists e. split; [exact He|now apply V].
  - intros out. unfold Faults.timeseriesHourly. fold evs.
    destruct (Faults.hourly evs hourBuckets) as [bs|] eqn:E; [|discriminate].
    intros H. injection H as <-. apply hourly_is_fold in E. subst bs.
    cbn [fst snd].
    destruct (hourly_fold evs hourBuckets eq_refl) as (H1 & H2 & H3).
    cbv zeta in H1, H2, H3.
    split; [reflexivity|].
    split; [rewrite H1; reflexivity|].
    split; [rewrite length_map, <- (length_map label), H1; reflexivity|].
    split; [rewrite H2; reflexivity|].
    intros h. rewrite H3, nth_all_zero; [reflexivity|].
    repeat constructor.
Qed.

(** X19.  For any other period the timeseries has as many buckets as
    the period asks for (7, 30, 12 and 12 for 7d, 30d, 90d and 1y),
    labelled with the days ending today.  The values add up to the
    number of events of the window whose date string is that of one of
    these days; an event of the window on another day is dropped, so
    the sum is at most the page views. *)
Theorem daily_timeseries_counts_matching_days :
  forall (t t' : Z) (q : option string) (l : list Event),
    periodOf q <> "1d" ->
    let out := timeseries t t' q l in
    let n := bucketCount (periodOf q) in
    let evs := filterEvents t (periodOf q) l in
    let day := fun i => daysBefore t' (n - 1 - i) in
    fst out = map (fun i => toLocaleDateLabel (day i)) (seq 0 n)
    /\ List.length (snd out) = n
    /\ list_sum (snd out)
       = List.length
           (filter (fun e =>
                      existsb (fun i => String.eqb (toDateString (day i))
                                                   (toDateString (ts e)))
                              (seq 0 n))
                   evs)
    /\ (list_sum (snd out) <= pageViews (summary t q l))%nat
    /\ bucketCount "7d" = 7%nat /\ bucketCount "30d" = 30%nat
    /\ bucketCount "90d" = 12%nat /\ bucketCount "1y" = 12%nat.
Proof.
  intros t t' q l Hp out n evs day. unfold out, timeseries.
  replace (String.eqb (periodOf q) "1d") with false
    by (symmetry; now apply String.eqb_neq).
  cbn [fst snd]. fold evs. fold n.
  destruct (daily_fold evs (dayBuckets t' n)) as (H1 & H2 & H3).
  cbv zeta in H1, H2, H3.
  assert (S : list_sum (map value
                (fold_left (fun bs e => bumpKey (toDateString (ts e)) bs) evs
                           (dayBuckets t' n)))
              = List.length
                  (filter (fun e =>
                             existsb (fun i => String.eqb (toDateString (day i))
                                                          (toDateString (ts e)))
                                     (seq 0 n))
                          evs)).
  { rewrite H3.
    assert (Z0 : list_sum (map value (dayBuckets t' n)) = 0%nat).
    { unfold dayBuckets. rewrite map_map. cbn [value].
      induction (seq 0 n); simpl; [reflexivity|assumption]. }
    rewrite Z0. simpl. f_equal. apply filter_ext. intros e.
    unfold dayBuckets. rewrite existsb_map. reflexivity. }
  split; [rewrite H1; unfold dayBuckets; rewrite map_map; reflexivity|].
  split.
  { rewrite length_map, <- (length_map label), H1. unfold dayBuckets.
    now rewrite !length_map, length_seq. }
  split; [exact S|].
  split; [|repeat split].
  rewrite S. unfold summary. cbn [pageViews]. fold evs. apply filter_length_le.
Qed.

(** X20.  The sources query partitions the events of the window: each
    class is listed at most once, a class is listed exactly when some
    event of the window falls in it, with the number of those events,
    and the counts add up to the page views. *)
Theorem sources_partition_the_window :
  forall (t : Z) (q : option string) (l : list Event),
    let out := sources t q l in
    let evs := filterEvents t (periodOf q) l in
    totalCount out = pageViews (summary t q l)
    /\ NoDup (map fst out)
    /\ (List.length out <= 4)%nat
    /\ (forall s, In s (map fst out) <->
                  exists e, In e evs /\ sourceOf (referrer e) = s)
    /\ (forall s c, In (s, c) out ->
          (0 < c)%nat
          /\ c = List.length
                   (filter (fun e => if Source_eq_dec (sourceOf (referrer e)) s
                                     then true else false) evs)).
Proof.
  intros t q l out evs. unfold out, sources. fold evs.
  split; [apply countBy_total|].
  assert (N := countBy_NoDup Source_eq_dec (fun e => sourceOf (referrer e)) evs).
  split; [exact N|].
  split.
  { rewrite <- (length_map fst).
    change 4%nat with (List.length [Direct; Search; Social; Referral]).
    apply NoDup_incl_length; [exact N|].
    intros [] _; simpl; tauto. }
  split.
  { intros s. rewrite countBy_keys, in_map_iff. split.
    - intros (e & E & He). now exists e.
    - intros (e & He & E). now exists e. }
  intros s c H. apply countBy_entry in H as [Hc ->].
  split; [exact Hc|apply count_occ_as_filter].
Qed.

(** X21.  The devices query partitions the events of the window among
    Mobile, Tablet and Desktop in the same way: at most three entries,
    one per class that occurs, with counts that add up to the page
    views. *)
Theorem devices_partition_the_window :
  forall (t : Z) (q : option string) (l : list Event),
    let out := devices t q l in
    let evs := filterEvents t (periodOf q) l in
    totalCount out = pageViews (summary t q l)
    /\ NoDup (map fst out)
    /\ (List.length out <= 3)%nat
    /\ (forall d, In d (map fst out) <->
                  exists e, In e evs /\ deviceOf (device e) = d)
    /\ (forall d c, In (d, c) out ->
          (0 < c)%nat
          /\ c = List.length
                   (filter (fun e => if DeviceClass_eq_dec (deviceOf (device e)) d
                                     then true else false) evs)).
Proof.
  intros t q l out evs. unfold out, devices. fold evs.
  split; [apply countBy_total|].
  assert (N := countBy_NoDup DeviceClass_eq_dec (fun e => deviceOf (device e)) evs).
  split; [exact N|].
  split.
  { rewrite <- (length_map fst).
    change 3%nat with (List.length [Mobile; Tablet; Desktop]).
    apply NoDup_incl_length; [exact N|].
    intros [] _; simpl; tauto. }
  split.
  { intros d. rewrite countBy_keys, in_map_iff. split.
    - intros (e & E & He). now exists e.
    - intros (e & He & E). now exists e. }
  intros d c H. apply countBy_entry in H as [Hc ->].
  split; [exact Hc|apply count_occ_as_filter].
Qed.

(** X22.  The top-pages answer is empty exactly when the window has no
    event.  Its first entry is a most viewed page: no path of the
    window has more events.  Its counts add up to at most the page
    views, and to exactly the page views when the window has at most
    ten distinct paths. *)
Theorem top_pages_head_and_total :
  forall (t : Z) (q : option string) (l : list Event),
    let paths := map path (filterEvents t (periodOf q) l) in
    let top := topPages t q l in
    (top = [] <-> pageViews (summary t q l) = 0%nat)
    /\ (forall p0 c0 rest, top = (p0, c0) :: rest ->
          forall p, (count_occ jsval_eq_dec paths p <= c0)%nat)
    /\ (totalCount top <= pageViews (summary t q l))%nat
    /\ ((List.length (firstOccurrences jsval_eq_dec paths) <= 10)%nat ->
        totalCount top = pageViews (summary t q l)).
Proof.
  intros t q l paths top.
  set (evs := filterEvents t (periodOf q) l).
  set (groups := countBy jsval_eq_dec path evs).
  assert (E : top = firstn 10 (sortDesc groups)) by reflexivity.
  assert (P : Permutation (sortDesc groups) groups) by apply sortDesc_perm.
  assert (T : totalCount (sortDesc groups) = List.length evs).
  { unfold totalCount. rewrite (Permutation_list_sum (Permutation_map snd P)).
    apply countBy_total. }
  assert (V : pageViews (summary t q l) = List.length evs) by reflexivity.
  split; [|split; [|split]].
  - rewrite V, E. split.
    + intros H. destruct (sortDesc groups) as [|x s] eqn:S; [|discriminate H].
      rewrite <- T. reflexivity.
    + intros H. rewrite <- T in H. destruct (sortDesc groups) as [|[k c] s] eqn:S;
        [reflexivity|].
      exfalso.
      assert (I : In (k, c) groups).
      { apply (Permutation_in _ P). now left. }
      apply countBy_entry in I as [Hc _].
      unfold totalCount in H. simpl in H. lia.
  - intros p0 c0 rest H p.
    assert (SS : StronglySorted countGe (sortDesc groups)).
    { apply Sorted_StronglySorted; [apply countGe_transitive|].
      apply sortDesc_sorted. }
    rewrite E in H.
    destruct (sortDesc groups) as [|x s] eqn:S; [discriminate H|].
    injection H as -> _.
    destruct (in_dec jsval_eq_dec p paths) as [Hin|Hout].
    + assert (I : In (p, count_occ jsval_eq_dec paths p) groups).
      { unfold groups. rewrite countBy_groupCount. unfold groupCount.
        apply in_map_iff. exists p. split; [reflexivity|].
        now apply firstOccurrences_In. }
      apply (Permutation_in _ (Permutation_sym P)) in I.
      inversion SS as [|? ? _ Hall]; subst.
      destruct I as [I|I].
      * inversion I. cbn [snd]. lia.
      * rewrite Forall_forall in Hall. specialize (Hall _ I).
        unfold countGe in Hall. cbn [snd] in Hall. exact Hall.
    + rewrite (proj1 (count_occ_not_In jsval_eq_dec paths p) Hout). lia.
  - rewrite V, E, <- T. apply totalCount_firstn.
  - intros H. rewrite V, E, <- T. rewrite firstn_all2; [reflexivity|].
    rewrite (Permutation_length P). unfold groups.
    rewrite countBy_groupCount. unfold groupCount. now rewrite length_map.
Qed.

(** X23.  For every event, whatever its device value, the class the
    realtime feed reports is the class the devices query gives it with
    Tablet turned into Desktop. *)
Theorem realtime_device_is_collapsed_class :
  forall e : Event,
    r_device (rowOf e) = collapseTablet (deviceOf (device e)).
Proof.
  intros e. unfold rowOf, deviceOf. cbv [r_device].
  destruct regex_on_falsy_renderings
    as (N1 & N2 & F1 & F2 & Z1 & Z2 & E1 & E2).
  assert (Same : forall s,
             (if regexTestI mobilePattern s then Mobile else Desktop)
             = collapseTablet
                 (if regexTestI mobilePattern s then Mobile
                  else if regexTestI tabletPattern s then Tablet else Desktop)).
  { intros s. destruct (regexTestI mobilePattern s); [reflexivity|].
    destruct (regexTestI tabletPattern s); reflexivity. }
  destruct (device e) as [| |[|]|n|s]; unfold jsor;
    cbn [withDefault truthy toString].
  - apply Same.
  - rewrite E1, N1, N2. reflexivity.
  - apply Same.
  - rewrite E1, F1, F2. reflexivity.
  - destruct (Z.eqb_spec n 0) as [->|_]; cbn [negb toString].
    + change (decimalZ 0) with "0". rewrite E1, Z1, Z2. reflexivity.
    + apply Same.
  - destruct s as [|c s]; cbn [String.eqb negb toString]; apply Same.
Qed.

End QueryClaims.

(* ================================================================= *)
(** * Facts about the tracker script *)

Section ClientFacts.
Import JS Spec Analytics Derived.
Local Open Scope string_scope.

Lemma string_app_assoc (a b c : string) : (a ++ b) ++ c = a ++ (b ++ c).
Proof. induction a as [|x a IH]; simpl; [|rewrite IH]; reflexivity. Qed.

Lemma startsWith_extend (a r p : string) :
  startsWith a p = true -> startsWith (a ++ r) p = true.
Proof.
  intros H. apply startsWith_inv in H as [r' ->].
  rewrite string_app_assoc. apply startsWith_app.
Qed.

Lemma includes_extend (a r n : string) :
  includes a n = true -> includes (a ++ r) n = true.
Proof.
  intros H. apply includes_inv in H as (pre & post & ->).
  rewrite !string_app_assoc. apply includes_app.
Qed.

Lemma isAdminPath_nonempty (p : string) :
  isAdminPath (JStr p) = true -> truthy (JStr p) = true.
Proof. destruct p; [discriminate|reflexivity]. Qed.

Lemma truthy_nonempty (s : string) : s <> "" -> truthy (JStr s) = true.
Proof. destruct s; [congruence|reflexivity]. Qed.

Lemma finalPath_of_path (b : Body) (p : string) :
  b_path b = JStr p -> p <> "" -> finalPath b = JStr p.
Proof.
  intros E N. unfold finalPath, jsor. rewrite E. cbn [withDefault].
  rewrite (truthy_nonempty p N). cbv iota. now rewrite (truthy_nonempty p N).
Qed.

Lemma getSessionId_spec (d : Client.Draw) (entry : option string) :
  exists sid,
    Client.getSessionId d entry = (sid, Some sid)
    /\ sid <> ""
    /\ forall id0, entry = Some id0 -> id0 <> "" -> sid = id0.
Proof.
  unfold Client.getSessionId. destruct entry as [[|c s]|]; cbn [String.eqb].
  - eexists. split; [reflexivity|]. split; [discriminate|].
    intros id0 E N. congruence.
  - eexists. split; [reflexivity|]. split; [discriminate|].
    intros id0 E _. congruence.
  - eexists. split; [reflexivity|]. split; [discriminate|].
    intros id0 E _. discriminate E.
Qed.

Lemma client_track_sent (d : Client.Draw) (pg : Client.Page)
    (entry entry' : option string) (b : Body) :
  Client.track d pg entry = (Some b, entry') ->
  Client.isAdminPage pg = false
  /\ entry' = Some (fst (Client.getSessionId d entry))
  /\ fst (Client.getSessionId d entry) <> ""
  /\ b = {| b_type := JStr "pageview";
            b_path := JStr (Client.pathname pg ++ Client.search pg
                            ++ Client.hash pg);
            b_page := JUndefined;
            b_referrer := jsor (JStr (Client.docReferrer pg)) (JStr "");
            b_device := JStr (Client.navUserAgent pg);
            b_sessionId := JStr (fst (Client.getSessionId d entry)) |}.
Proof.
  unfold Client.track. destruct (Client.isAdminPage pg); [discriminate|].
  destruct (getSessionId_spec d entry) as (sid & E & N & _).
  rewrite E. cbn [fst]. intros H. injection H as <- <-. auto.
Qed.

End ClientFacts.

(* ================================================================= *)
(** * Properties of the tracker script and the service together *)

Section ClientClaims.
Import JS Spec Analytics Derived.
Context {host : Host}.
Local Open Scope string_scope.

(** X24.  A page the tracker script skips as administrative is one the
    service would have ignored: its full path, with query and fragment,
    is administrative for the service, and a body carrying that path is
    answered [ignored] and leaves the log as it was. *)
Theorem client_skips_only_what_server_ignores :
  forall (pg : Client.Page),
    Client.isAdminPage pg = true ->
    let full := Client.pathname pg ++ Client.search pg ++ Client.hash pg in
    (forall d entry, Client.track d pg entry = (None, entry))
    /\ isAdminPath (JStr full) = true
    /\ forall env req db b,
         body req = Some b -> b_path b = JStr full ->
         track env req db = (Ignored, db).
Proof.
  intros pg H full.
  assert (A : isAdminPath (JStr full) = true).
  { unfold Client.isAdminPage in H. unfold isAdminPath, full.
    cbn [withDefault toString]. rewrite toLowerCase_app.
    apply orb_true_iff in H as [H|H]; apply orb_true_iff; [left|right].
    - now apply startsWith_extend.
    - now apply includes_extend. }
  split; [|split; [exact A|]].
  - intros d entry. unfold Client.track. now rewrite H.
  - intros env req db b Hb Hp. unfold track, bodyOf. rewrite Hb.
    rewrite (finalPath_of_path b full Hp), A; [reflexivity|].
    intros E. rewrite E in A. discriminate A.
Qed.

(** X25.  The service ignores more than the script skips: when the
    path name of a page is not administrative but its query or fragment
    holds [admin-] in any letter case, the script posts the view and
    the service answers [ignored] without storing it. *)
Theorem server_ignores_marker_in_query :
  forall (d : Client.Draw) (pg : Client.Page) (entry : option string)
         (pre post : string),
    Client.isAdminPage pg = false ->
    toLowerCase (Client.search pg ++ Client.hash pg) = pre ++ "admin-" ++ post ->
    exists b entry',
      Client.track d pg entry = (Some b, entry')
      /\ forall env req db,
           body req = Some b -> track env req db = (Ignored, db).
Proof.
  intros d pg entry pre post H M.
  destruct (Client.track d pg entry) as [[b|] entry'] eqn:T.
  - exists b, entry'. split; [reflexivity|].
    apply client_track_sent in T as (_ & _ & _ & ->).
    intros env req db Hb. unfold track, bodyOf. rewrite Hb.
    set (full := Client.pathname pg ++ Client.search pg ++ Client.hash pg).
    assert (A : isAdminPath (JStr full) = true).
    { unfold isAdminPath, full. cbn [withDefault toString].
      rewrite toLowerCase_app, M, <- string_app_assoc.
      rewrite includes_app. apply orb_true_r. }
    rewrite (finalPath_of_path _ full);
      [rewrite A; reflexivity|reflexivity|].
    intros E. rewrite E in A. discriminate A.
  - unfold Client.track in T. rewrite H in T.
    destruct (Client.getSessionId d entry). discriminate T.
Qed.

(** X26.  The session id of a tab is stable: a call of [getSessionId]
    returns a non-empty id and leaves it stored, a second call returns
    the same id whatever it would have drawn, and a non-empty id found
    in the store is returned as it is. *)
Theorem session_id_is_stable :
  forall (d d' : Client.Draw) (entry : option string),
    let r := Client.getSessionId d entry in
    Client.getSessionId d' (snd r) = r
    /\ fst r <> ""
    /\ snd r = Some (fst r)
    /\ forall id0, entry = Some id0 -> id0 <> "" -> r = (id0, entry).
Proof.
  intros d d' entry r.
  destruct (getSessionId_spec d entry) as (sid & E & N & K).
  unfold r. rewrite E. cbn [fst snd].
  split; [|split; [exact N|split; [reflexivity|]]].
  - unfold Client.getSessionId. destruct sid; [congruence|reflexivity].
  - intros id0 E0 N0. rewrite (K id0 E0 N0), E0. reflexivity.
Qed.

(** X27.  A page view the script posts and the service accepts is stored
    as the script described it: type [pageview], the full path of the
    page, and the session id of the tab, never a uuid drawn by the
    service.  The device is the browser's user agent and the referrer
    the document's; when one is empty the request header stands in. *)
Theorem client_pageview_end_to_end :
  forall (d : Client.Draw) (pg : Client.Page) (entry entry' : option string)
         (b : Body) (env : Env) (req : Request) (db : list Event),
    Client.track d pg entry = (Some b, entry') ->
    body req = Some b ->
    Client.pathname pg <> "" ->
    isAdminPath
      (JStr (Client.pathname pg ++ Client.search pg ++ Client.hash pg)) = false ->
    readOk env = true -> writeOk env = true ->
    exists e,
      track env req db = (Tracked (uuid1 env), (db ++ [e])%list)
      /\ type e = JStr "pageview"
      /\ path e
         = JStr (Client.pathname pg ++ Client.search pg ++ Client.hash pg)
      /\ sessionId e = JStr (fst (Client.getSessionId d entry))
      /\ entry' = Some (fst (Client.getSessionId d entry))
      /\ device e
         = (if String.eqb (Client.navUserAgent pg) ""
            then jsor (userAgent req) (JStr "")
            else JStr (Client.navUserAgent pg))
      /\ referrer e
         = (if String.eqb (Client.docReferrer pg) ""
            then jsor (referer req) (JStr "")
            else JStr (Client.docReferrer pg)).
Proof.
  intros d pg entry entry' b env req db T Hb Hp A Hr Hw.
  apply client_track_sent in T as (_ & -> & N & ->).
  set (full := Client.pathname pg ++ Client.search pg ++ Client.hash pg) in *.
  assert (Nf : full <> "").
  { unfold full. destruct (Client.pathname pg); [congruence|discriminate]. }
  eexists. unfold track, bodyOf. rewrite Hb.
  rewrite (finalPath_of_path _ full); [|reflexivity|exact Nf].
  rewrite A, Hr, Hw.
  cbn [negb]. split; [reflexivity|].
  unfold eventOf. cbn [id type path sessionId device referrer
                       b_type b_path b_page b_referrer b_device b_sessionId].
  rewrite (finalPath_of_path _ full); [|reflexivity|exact Nf].
  split; [reflexivity|]. split; [reflexivity|].
  split; [unfold jsor; now rewrite (truthy_nonempty _ N)|].
  split; [reflexivity|].
  split.
  - destruct (Client.navUserAgent pg); reflexivity.
  - destruct (Client.docReferrer pg); reflexivity.
Qed.

(** X28.  Two page views posted from one tab and accepted by the
    service are stored with the same session id, whatever pages they
    are of, so the second adds a page view and no visitor to any
    summary whose window reaches back to both. *)
Theorem same_tab_views_share_a_session :
  forall (d1 d2 : Client.Draw) (pg1 pg2 : Client.Page)
         (entry s1 s2 : option string) (b1 b2 : Body)
         (env1 env2 : Env) (req1 req2 : Request)
         (db db1 db2 : list Event) (i1 i2 : string),
    Client.track d1 pg1 entry = (Some b1, s1) ->
    Client.track d2 pg2 s1 = (Some b2, s2) ->
    body req1 = Some b1 -> body req2 = Some b2 ->
    track env1 req1 db = (Tracked i1, db1) ->
    track env2 req2 db1 = (Tracked i2, db2) ->
    exists e1 e2,
      db2 = (db ++ [e1; e2])%list
      /\ sessionId e1 = sessionId e2
      /\ s2 = s1
      /\ forall t q w,
           windowMs (periodOf q) = Some w ->
           (t - w <= now env1)%Z -> (t - w <= now env2)%Z ->
           visitors (summary t q db2) = visitors (summary t q db1)
           /\ pageViews (summary t q db2) = S (pageViews (summary t q db1)).
Proof.
  intros d1 d2 pg1 pg2 entry s1 s2 b1 b2 env1 env2 req1 req2 db db1 db2 i1 i2
         T1 T2 Hb1 Hb2 S1 S2.
  apply client_track_sent in T1 as (_ & E1 & N1 & B1).
  apply client_track_sent in T2 as (_ & E2 & N2 & B2).
  destruct (getSessionId_spec d1 entry) as (sid & G1 & N & _).
  rewrite G1 in E1, B1. cbn [fst] in E1, B1. subst s1.
  destruct (getSessionId_spec d2 (Some sid)) as (sid' & G2 & _ & K).
  rewrite (K sid eq_refl N) in G2.
  rewrite G2 in E2, B2. cbn [fst] in E2, B2.
  destruct (track_cases env1 req1 db)
    as [(_ & T)|[(_ & _ & T)|(A1 & _ & _ & T)]];
    rewrite T in S1; try discriminate S1.
  injection S1 as _ <-.
  destruct (track_cases env2 req2 (db ++ [eventOf env1 req1 (bodyOf req1)])%list)
    as [(_ & T')|[(_ & _ & T')|(A2 & _ & _ & T')]];
    rewrite T' in S2; try discriminate S2.
  injection S2 as _ <-.
  set (e1 := eventOf env1 req1 (bodyOf req1)) in *.
  set (e2 := eventOf env2 req2 (bodyOf req2)) in *.
  assert (I1 : sessionId e1 = JStr sid).
  { unfold e1, eventOf, bodyOf. rewrite Hb1, B1. cbn [sessionId b_sessionId].
    unfold jsor. now rewrite (truthy_nonempty _ N). }
  assert (I2 : sessionId e2 = JStr sid).
  { unfold e2, eventOf, bodyOf. rewrite Hb2, B2. cbn [sessionId b_sessionId].
    unfold jsor. now rewrite (truthy_nonempty _ N). }
  exists e1, e2.
  split; [now rewrite <- app_assoc|].
  split; [congruence|]. split; [exact E2|].
  intros t q w Hw H1 H2.
  assert (F1 : filterEvents t (periodOf q) (db ++ [e1])%list
               = (filterEvents t (periodOf q) db ++ [e1])%list).
  { apply (filterEvents_snoc t _ w); [exact Hw|exact H1|exact A1]. }
  assert (F2 : filterEvents t (periodOf q) ((db ++ [e1]) ++ [e2])%list
               = (filterEvents t (periodOf q) (db ++ [e1]) ++ [e2])%list).
  { apply (filterEvents_snoc t _ w); [exact Hw|exact H2|exact A2]. }
  split.
  - unfold summary. cbn [visitors]. unfold setSize.
    rewrite F2, map_app. cbn [map]. rewrite nodup_snoc_length.
    destruct (in_dec jsval_eq_dec (sessionId e2)
                (map sessionId (filterEvents t (periodOf q) (db ++ [e1])%list)))
      as [_|Out]; [reflexivity|].
    exfalso. apply Out. rewrite F1, map_app, in_app_iff. right. left.
    congruence.
  - unfold summary. cbn [pageViews]. rewrite F2, length_app. simpl. lia.
Qed.

End ClientClaims.

(* ================================================================= *)
(** * The further properties on sample data *)

Section MoreSamples.
Import JS.
Local Open Scope string_scope.
Local Existing Instance ExampleHost.utc.

Lemma upload_one_record_per_file_witness :
  List.length [Fixtures.report; Examples.photo] <= 20
  /\ exists saved st',
       Media.postMedia Fixtures.draws [Fixtures.report; Examples.photo]
                       Examples.emptyState = (Media.Saved saved, st')
       /\ map Media.name saved = ["annual report (final).pdf"; "my photo.png"]
       /\ Media.writes st' = 1.
Proof.
  assert (H : List.length [Fixtures.report; Examples.photo] <= 20)
    by (simpl; lia).
  split; [exact H|].
  destruct (upload_one_record_per_file Fixtures.draws
              [Fixtures.report; Examples.photo] Examples.emptyState H)
    as [_ K].
  destruct (K ltac:(discriminate)) as (saved & st' & P & Nm & _ & _ & _ & _ & W).
  exists saved, st'. split; [exact P|]. split; [exact Nm|exact W].
Defined.

Lemma stored_name_has_safe_characters_witness :
  let r := Derived.recordAt Fixtures.draws (0, Fixtures.report) in
  let out := Media.postMedia Fixtures.draws [Fixtures.report] Examples.emptyState in
  out = (Media.Saved [r], snd out)
  /\ In r [r]
  /\ Media.name r = "annual report (final).pdf"
  /\ Media.storedName r = "1700000000000-42-annual_report__final_.pdf"
  /\ (forall i, String.get i (Media.storedName r) <> Some "/"%char)
  /\ Media.url r = "/uploads/media/" ++ Media.storedName r.
Proof.
  intros r out.
  assert (P : out = (Media.Saved [r], snd out)) by (vm_compute; reflexivity).
  assert (I : In r [r]) by (left; reflexivity).
  split; [exact P|]. split; [exact I|].
  split; [reflexivity|]. split; [vm_compute; reflexivity|].
  destruct (stored_name_has_safe_characters Fixtures.draws [Fixtures.report]
              Examples.emptyState (snd out) [r] r P I) as (_ & S & U).
  split; [exact S|exact U].
Defined.

Lemma upload_leaves_files_on_disk_witness :
  let out := Media.postMedia Fixtures.draws [Fixtures.report] Fixtures.oneRecord in
  let r := Derived.recordAt Fixtures.draws (0, Fixtures.report) in
  out = (Media.Saved [r], snd out)
  /\ In "1-2-x.png" (Media.files (snd out))
  /\ In "1700000000000-42-annual_report__final_.pdf" (Media.files (snd out))
  /\ ~ In "other.png" (Media.files (snd out)).
Proof.
  intros out r.
  assert (P : out = (Media.Saved [r], snd out)) by (vm_compute; reflexivity).
  split; [exact P|].
  assert (K := upload_leaves_files_on_disk Fixtures.draws [Fixtures.report]
                 Fixtures.oneRecord (snd out) [r] P).
  split; [apply K; left; left; reflexivity|].
  split; [apply K; right; left; vm_compute; reflexivity|].
  intros H. apply K in H. vm_compute in H.
  destruct H as [[H|[]]|[H|[]]]; discriminate H.
Defined.


Lemma delete_effect_witness :
  let out := Faults.deleteMediaWith Faults.RemovalThrew "a" Fixtures.sharedFile in
  Faults.response out = Media.Deleted
  /\ Faults.records out = [Examples.media "b" "x.png"]
  /\ Faults.entries out = Some ["1-2-x.png"]
  /\ List.length (Media.catalog Fixtures.sharedFile)
     = S (List.length (Faults.records out))
  /\ (In (Examples.media "b" "x.png") (Faults.records out)
      <-> In (Examples.media "b" "x.png") (Media.catalog Fixtures.sharedFile))
  /\ Faults.jsonWrites out = S (Media.writes Fixtures.sharedFile).
Proof.
  intros out.
  assert (P : Faults.response out = Media.Deleted) by reflexivity.
  split; [exact P|]. split; [reflexivity|]. split; [reflexivity|].
  destruct (delete_effect Faults.RemovalThrew "a" Fixtures.sharedFile P)
    as (L & _ & K & W & _).
  split; [exact L|]. split; [|exact W].
  apply K. discriminate.
Defined.


Lemma tracked_event_fields_witness :
  let req := Examples.request (JStr "/news") JUndefined in
  let e := Analytics.eventOf Examples.env req (Analytics.bodyOf req) in
  Analytics.track Examples.env req [] = (Analytics.Tracked "event-1", ([] ++ [e])%list)
  /\ Analytics.type e = JStr "pageview"
  /\ Analytics.device e = JStr "Mozilla/5.0"
  /\ Analytics.referrer e = JStr ""
  /\ Analytics.sessionId e = JStr "session-1".
Proof.
  intros req e.
  assert (P : Analytics.track Examples.env req []
              = (Analytics.Tracked "event-1", ([] ++ [e])%list))
    by (vm_compute; reflexivity).
  split; [exact P|].
  destruct (tracked_event_fields Examples.env req [] "event-1" e P)
    as (T & _ & R & D & S & _).
  split; [exact (T eq_refl)|]. split; [exact D|]. split; [exact R|exact S].
Defined.

Lemma reachable_log_invariants_witness :
  let log := snd (Analytics.track Examples.env
                    (Examples.request (JStr "/news") JUndefined) []) in
  Derived.Reachable log
  /\ List.length log = 1
  /\ Derived.NoAdmin log
  /\ Derived.Chronological log
  /\ Analytics.filterEvents Examples.clock "1d" log
     = filter (fun e => (Examples.clock - Analytics.dayMs <=? Analytics.ts e)%Z) log.
Proof.
  intros log.
  assert (R : Derived.Reachable log).
  { apply Derived.reach_track.
    - apply Derived.reach_empty.
    - intros e [].
    - discriminate. }
  split; [exact R|]. split; [reflexivity|].
  destruct (reachable_log_invariants log R) as (A & C & _ & F).
  split; [exact A|]. split; [exact C|].
  apply F. reflexivity.
Defined.

Lemma tracked_event_is_counted_witness :
  let req := Examples.request (JStr "/news") JUndefined in
  let db' := [Analytics.eventOf Examples.env req (Analytics.bodyOf req)] in
  Analytics.track Examples.env req [] = (Analytics.Tracked "event-1", db')
  /\ Analytics.windowMs (Analytics.periodOf None) = Some (7 * Analytics.dayMs)%Z
  /\ (Examples.clock - 7 * Analytics.dayMs <= Analytics.now Examples.env)%Z
  /\ Analytics.pageViews (Analytics.summary Examples.clock None db') = 1.
Proof.
  intros req db'.
  assert (P : Analytics.track Examples.env req []
              = (Analytics.Tracked "event-1", db'))
    by (vm_compute; reflexivity).
  assert (W : Analytics.windowMs (Analytics.periodOf None)
              = Some (7 * Analytics.dayMs)%Z) by reflexivity.
  assert (I : (Examples.clock - 7 * Analytics.dayMs
               <= Analytics.now Examples.env)%Z)
    by (vm_compute; discriminate).
  split; [exact P|]. split; [exact W|]. split; [exact I|].
  exact (proj1 (tracked_event_is_counted Examples.env req [] db' "event-1"
                  Examples.clock (7 * Analytics.dayMs) None P W I)).
Defined.

Lemma tracked_event_heads_realtime_witness :
  let req := Examples.request (JStr "/news") JUndefined in
  let db := [Examples.event Examples.clock "s1" "/"] in
  let db' := (db ++ [Analytics.eventOf Examples.env req (Analytics.bodyOf req)])%list in
  Analytics.track Examples.env req db = (Analytics.Tracked "event-1", db')
  /\ exists e rest,
       db' = (db ++ [e])%list
       /\ Analytics.realtime db' = Analytics.rowOf e :: rest
       /\ Analytics.page (Analytics.rowOf e) = JStr "/news".
Proof.
  intros req db db'.
  assert (P : Analytics.track Examples.env req db
              = (Analytics.Tracked "event-1", db'))
    by (vm_compute; reflexivity).
  split; [exact P|].
  destruct (tracked_event_heads_realtime Examples.env req db db' "event-1" P)
    as (e & rest & E & R & Pg & _).
  exists e, rest. split; [exact E|]. split; [exact R|exact Pg].
Defined.

Lemma wider_window_counts_more_witness :
  Analytics.windowMs (Analytics.periodOf (Some "1d")) = Some Analytics.dayMs
  /\ Analytics.windowMs (Analytics.periodOf (Some "30d"))
     = Some (30 * Analytics.dayMs)%Z
  /\ (Analytics.dayMs <= 30 * Analytics.dayMs)%Z
  /\ Analytics.pageViews (Analytics.summary Examples.clock (Some "1d") Fixtures.agedLog) = 1
  /\ Analytics.pageViews (Analytics.summary Examples.clock (Some "30d") Fixtures.agedLog) = 3
  /\ (Analytics.pageViews (Analytics.summary Examples.clock (Some "1d") Fixtures.agedLog)
      <= Analytics.pageViews
           (Analytics.summary Examples.clock (Some "30d") Fixtures.agedLog))%nat.
Proof.
  assert (A : Analytics.windowMs (Analytics.periodOf (Some "1d"))
              = Some Analytics.dayMs) by reflexivity.
  assert (B : Analytics.windowMs (Analytics.periodOf (Some "30d"))
              = Some (30 * Analytics.dayMs)%Z) by reflexivity.
  assert (C : (Analytics.dayMs <= 30 * Analytics.dayMs)%Z)
    by (vm_compute; discriminate).
  split; [exact A|]. split; [exact B|]. split; [exact C|].
  split; [vm_compute; reflexivity|]. split; [vm_compute; reflexivity|].
  destruct (wider_window_counts_more Examples.clock Analytics.dayMs
              (30 * Analytics.dayMs) (Some "1d") (Some "30d") Fixtures.agedLog
              A B C) as (_ & V & _).
  exact V.
Defined.

Lemma unknown_period_is_seven_days_witness :
  ~ In (Analytics.periodOf (Some "week")) Derived.periodTokens
  /\ ~ In (Analytics.periodOf (Some "week")) Analytics.objectPrototypeKeys
  /\ Analytics.summary Examples.clock (Some "week") Fixtures.agedLog
     = Analytics.summary Examples.clock (Some "7d") Fixtures.agedLog
  /\ Analytics.timeseries Examples.clock Examples.clock (Some "week") Fixtures.agedLog
     = Analytics.timeseries Examples.clock Examples.clock (Some "7d") Fixtures.agedLog.
Proof.
  assert (A : ~ In (Analytics.periodOf (Some "week")) Derived.periodTokens).
  { intros H. vm_compute in H.
    repeat (destruct H as [H|H]; [discriminate H|]). exact H. }
  assert (B : ~ In (Analytics.periodOf (Some "week")) Analytics.objectPrototypeKeys).
  { intros H. vm_compute in H.
    repeat (destruct H as [H|H]; [discriminate H|]). exact H. }
  split; [exact A|]. split; [exact B|].
  destruct (unknown_period_is_seven_days Examples.clock Examples.clock
              (Some "week") Fixtures.agedLog A B) as (S & T & _).
  split; [exact S|exact T].
Defined.

Lemma inherited_period_empties_results_witness :
  In (Analytics.periodOf (Some "constructor")) Analytics.objectPrototypeKeys
  /\ Analytics.pageViews
       (Analytics.summary Examples.clock (Some "constructor") Fixtures.agedLog) = 0
  /\ Analytics.timeseries Examples.clock Examples.clock (Some "constructor")
                          Fixtures.agedLog = ([], [])
  /\ Analytics.topPages Examples.clock (Some "constructor") Fixtures.agedLog = [].
Proof.
  assert (A : In (Analytics.periodOf (Some "constructor"))
                 Analytics.objectPrototypeKeys) by (left; reflexivity).
  split; [exact A|].
  destruct (inherited_period_empties_results Examples.clock Examples.clock
              (Some "constructor") Fixtures.agedLog A) as (S & T & P & _).
  split; [rewrite S; reflexivity|]. split; [exact T|exact P].
Defined.

Lemma summary_bounds_witness :
  let evs := Analytics.filterEvents Examples.clock "1y" Fixtures.agedLog in
  (Z.of_nat (List.length Fixtures.agedLog) < 2 ^ 32)%Z
  /\ (0 < List.length (Spec.sessionsOf evs))%nat
  /\ List.length (Spec.bouncedSessions evs) = List.length (Spec.sessionsOf evs)
  /\ (Analytics.visitors (Analytics.summary Examples.clock (Some "1y") Fixtures.agedLog)
      <= Analytics.pageViews
           (Analytics.summary Examples.clock (Some "1y") Fixtures.agedLog))%nat
  /\ Analytics.bounceRate
       (Analytics.summary Examples.clock (Some "1y") Fixtures.agedLog)
     = Binary64.ofZ 100.
Proof.
  intros evs.
  assert (L : (Z.of_nat (List.length Fixtures.agedLog) < 2 ^ 32)%Z)
    by (vm_compute; reflexivity).
  assert (P : (0 < List.length (Spec.sessionsOf evs))%nat)
    by (vm_compute; lia).
  assert (E : List.length (Spec.bouncedSessions evs)
              = List.length (Spec.sessionsOf evs))
    by (vm_compute; reflexivity).
  split; [exact L|]. split; [exact P|]. split; [exact E|].
  destruct (summary_bounds Examples.clock (Some "1y") Fixtures.agedLog L)
    as (V & _ & _ & R).
  split; [exact V|exact (R P E)].
Defined.

Lemma summary_order_independent_witness :
  let a := Examples.event Examples.clock "s1" "/a" in
  let b := Examples.event Examples.clock "s2" "/b" in
  Permutation [a; b; a] [b; a; a]
  /\ Analytics.summary Examples.clock None [a; b; a]
     = Analytics.summary Examples.clock None [b; a; a].
Proof.
  intros a b.
  assert (P : Permutation [a; b; a] [b; a; a]) by apply perm_swap.
  split; [exact P|].
  exact (summary_order_independent Examples.clock None _ _ P).
Defined.

Lemma daily_timeseries_counts_matching_days_witness :
  let out := Analytics.timeseries Examples.clock Examples.clock None
                                  Fixtures.agedLog in
  Analytics.periodOf None <> "1d"
  /\ List.length (snd out) = 7
  /\ snd out = [0; 0; 0; 1; 0; 0; 1]
  /\ (list_sum (snd out)
      <= Analytics.pageViews
           (Analytics.summary Examples.clock None Fixtures.agedLog))%nat.
Proof.
  intros out.
  assert (A : Analytics.periodOf None <> "1d") by discriminate.
  split; [exact A|].
  destruct (daily_timeseries_counts_matching_days Examples.clock Examples.clock
              None Fixtures.agedLog A) as (_ & L & _ & S & _).
  split; [exact L|]. split; [vm_compute; reflexivity|exact S].
Defined.

Lemma client_skips_only_what_server_ignores_witness :
  let pg := Client.mkPage "/Admin/users.html" "" "#top" "" "Mozilla/5.0" in
  Client.isAdminPage pg = true
  /\ Client.track Fixtures.clientDraw pg None = (None, None)
  /\ Analytics.isAdminPath (JStr "/Admin/users.html#top") = true.
Proof.
  intros pg.
  assert (A : Client.isAdminPage pg = true) by reflexivity.
  split; [exact A|].
  destruct (client_skips_only_what_server_ignores pg A) as (T & P & _).
  split; [exact (T Fixtures.clientDraw None)|exact P].
Defined.

Lemma server_ignores_marker_in_query_witness :
  Client.isAdminPage Fixtures.marked = false
  /\ toLowerCase (Client.search Fixtures.marked ++ Client.hash Fixtures.marked)
     = "?from=" ++ "admin-" ++ "panel"
  /\ exists b entry',
       Client.track Fixtures.clientDraw Fixtures.marked None = (Some b, entry')
       /\ Analytics.track Examples.env (Fixtures.requestOf b) []
          = (Analytics.Ignored, []).
Proof.
  assert (A : Client.isAdminPage Fixtures.marked = false) by reflexivity.
  assert (B : toLowerCase (Client.search Fixtures.marked
                           ++ Client.hash Fixtures.marked)
              = "?from=" ++ "admin-" ++ "panel") by reflexivity.
  split; [exact A|]. split; [exact B|].
  destruct (server_ignores_marker_in_query Fixtures.clientDraw Fixtures.marked
              None "?from=" "panel" A B) as (b & entry' & T & K).
  exists b, entry'. split; [exact T|].
  apply K. reflexivity.
Defined.

Lemma client_pageview_end_to_end_witness :
  let b := Analytics.mkBody (JStr "pageview") (JStr "/events.html?tab=next")
             JUndefined (JStr "") (JStr "Mozilla/5.0 (iPhone)")
             (JStr "sess_k3j9x_lp0q2z") in
  Client.track Fixtures.clientDraw Fixtures.home None
  = (Some b, Some "sess_k3j9x_lp0q2z")
  /\ Client.pathname Fixtures.home <> ""
  /\ Analytics.isAdminPath (JStr "/events.html?tab=next") = false
  /\ exists e,
       Analytics.track Examples.env (Fixtures.requestOf b) []
       = (Analytics.Tracked "event-1", [e])
       /\ Analytics.path e = JStr "/events.html?tab=next"
       /\ Analytics.sessionId e = JStr "sess_k3j9x_lp0q2z"
       /\ Analytics.device e = JStr "Mozilla/5.0 (iPhone)"
       /\ Analytics.referrer e = JStr "".
Proof.
  intros b.
  assert (T : Client.track Fixtures.clientDraw Fixtures.home None
              = (Some b, Some "sess_k3j9x_lp0q2z")) by reflexivity.
  assert (N : Client.pathname Fixtures.home <> "") by discriminate.
  assert (A : Analytics.isAdminPath (JStr "/events.html?tab=next") = false)
    by reflexivity.
  split; [exact T|]. split; [exact N|]. split; [exact A|].
  destruct (client_pageview_end_to_end Fixtures.clientDraw Fixtures.home None
              (Some "sess_k3j9x_lp0q2z") b Examples.env (Fixtures.requestOf b)
              [] T eq_refl N A eq_refl eq_refl)
    as (e & K & _ & P & S & _ & D & R).
  exists e. split; [exact K|]. split; [exact P|]. split; [exact S|].
  split; [exact D|exact R].
Defined.

Lemma same_tab_views_share_a_session_witness :
  let about := Client.mkPage "/about.html" "" "" "" "Mozilla/5.0 (iPhone)" in
  let later := Client.mkDraw "zzzzz" "lp0q3a" in
  let sid := Some "sess_k3j9x_lp0q2z" in
  let b1 := Analytics.mkBody (JStr "pageview") (JStr "/events.html?tab=next")
              JUndefined (JStr "") (JStr "Mozilla/5.0 (iPhone)")
              (JStr "sess_k3j9x_lp0q2z") in
  let b2 := Analytics.mkBody (JStr "pageview") (JStr "/about.html")
              JUndefined (JStr "") (JStr "Mozilla/5.0 (iPhone)")
              (JStr "sess_k3j9x_lp0q2z") in
  let env2 := Analytics.mkEnv (Examples.clock + 1000) "event-2" "session-2"
                true true in
  let e1 := Analytics.eventOf Examples.env (Fixtures.requestOf b1) b1 in
  let e2 := Analytics.eventOf env2 (Fixtures.requestOf b2) b2 in
  Client.track Fixtures.clientDraw Fixtures.home None = (Some b1, sid)
  /\ Client.track later about sid = (Some b2, sid)
  /\ Analytics.track Examples.env (Fixtures.requestOf b1) []
     = (Analytics.Tracked "event-1", [e1])
  /\ Analytics.track env2 (Fixtures.requestOf b2) [e1]
     = (Analytics.Tracked "event-2", [e1; e2])
  /\ exists x1 x2,
       [e1; e2] = ([] ++ [x1; x2])%list
       /\ Analytics.sessionId x1 = Analytics.sessionId x2.
Proof.
  intros about later sid b1 b2 env2 e1 e2.
  assert (T1 : Client.track Fixtures.clientDraw Fixtures.home None
               = (Some b1, sid)) by reflexivity.
  assert (T2 : Client.track later about sid = (Some b2, sid)) by reflexivity.
  assert (S1 : Analytics.track Examples.env (Fixtures.requestOf b1) []
               = (Analytics.Tracked "event-1", [e1])) by reflexivity.
  assert (S2 : Analytics.track env2 (Fixtures.requestOf b2) [e1]
               = (Analytics.Tracked "event-2", [e1; e2])) by reflexivity.
  split; [exact T1|]. split; [exact T2|]. split; [exact S1|]. split; [exact S2|].
  destruct (same_tab_views_share_a_session Fixtures.clientDraw later
              Fixtures.home about None sid sid b1 b2 Examples.env env2
              (Fixtures.requestOf b1) (Fixtures.requestOf b2)
              [] [e1] [e1; e2] "event-1" "event-2"
              T1 T2 eq_refl eq_refl S1 S2)
    as (x1 & x2 & E & I & _).
  exists x1, x2. split; [exact E|exact I].
Defined.

Lemma hourly_timeseries_counts_every_event_witness :
  let far := Examples.event 9000000000000000 "s9" "/far" in
  Faults.timeseriesHourly Examples.clock (Fixtures.agedLog ++ [far])%list = None
  /\ exists out,
       Faults.timeseriesHourly Examples.clock Fixtures.agedLog = Some out
       /\ list_sum (snd out) = 1
       /\ nth 22 (snd out) 0 = 1
       /\ out = Analytics.timeseries Examples.clock Examples.clock (Some "1d")
                                     Fixtures.agedLog.
Proof.
  intros far.
  split.
  - apply (proj1 (hourly_timeseries_counts_every_event Examples.clock
                    Examples.clock (Fixtures.agedLog ++ [far])%list)).
    exists far. split; [vm_compute; tauto|].
    intros [_ H]. vm_compute in H. apply H. reflexivity.
  - eexists. split; [vm_compute; reflexivity|].
    split; [reflexivity|]. split; [reflexivity|].
    apply (proj2 (hourly_timeseries_counts_every_event Examples.clock
                    Examples.clock Fixtures.agedLog)).
    vm_compute. reflexivity.
Defined.

End MoreSamples.
